(** * SurveyKit advanced pipeline: validation, chart checking and integrity manifests

    A shallow embedding of [surveykit/validate_data.py],
    [surveykit/validate_charts.py] and [surveykit/integrity.py].

    Modelling conventions.
    - A Python [str] is a Rocq [string]; its characters are code points
      below 256 and [str.encode("utf-8")] is [utf8_encode].
    - [bytes] are [list Byte.byte].
    - [hashlib.sha256] is implemented below on bytes; an incremental
      [update]/[update] pair hashes the concatenation of its inputs.
    - Exceptions are the constructors of [exn]; a computation that may raise
      returns [result A]. *)

From Stdlib Require Import ZArith QArith String Ascii List Bool Lia.
From Stdlib Require Import Strings.Byte.
From Stdlib Require Import Qround Qabs Sorting.Permutation Sorting.Sorted.
Import ListNotations.
Open Scope string_scope.
Open Scope Z_scope.
Set Warnings "-register-all".

(** ** Python exceptions and the error monad *)

Inductive exn : Type :=
| KeyError (msg : string)
| TypeError (msg : string)
| ValueError (msg : string)
| ValidationError (msg : string)
| FileNotFoundError (path : string)
| NotADirectoryError (path : string)
| IsADirectoryError (path : string).

Inductive result (A : Type) : Type :=
| Ok (a : A)
| Raise (e : exn).
Arguments Ok {A} a.
Arguments Raise {A} e.

Definition bind {A B} (m : result A) (k : A -> result B) : result B :=
  match m with
  | Ok a => k a
  | Raise e => Raise e
  end.

Notation "x <- m ;; k" := (bind m (fun x => k))
  (at level 61, m at next level, right associativity).

Fixpoint mapM {A B} (f : A -> result B) (l : list A) : result (list B) :=
  match l with
  | [] => Ok []
  | x :: r => y <- f x ;; ys <- mapM f r ;; Ok (y :: ys)
  end.

Definition is_ok {A} (m : result A) : bool :=
  match m with Ok _ => true | Raise _ => false end.

(** ** Strings, bytes and UTF-8 *)

Definition byte_of_Z (z : Z) : Byte.byte :=
  match Byte.of_nat (Z.to_nat (z mod 256)) with
  | Some b => b
  | None => Byte.x00
  end.

Definition Z_of_byte (b : Byte.byte) : Z := Z.of_nat (Byte.to_nat b).

(** [str.encode("utf-8")] for code points below 256. *)
Definition utf8_char (c : ascii) : list Byte.byte :=
  let n := Z.of_nat (nat_of_ascii c) in
  if n <? 128 then [byte_of_Z n]
  else [byte_of_Z (Z.lor 192 (Z.shiftr n 6)); byte_of_Z (Z.lor 128 (Z.land n 63))].

Fixpoint utf8_encode (s : string) : list Byte.byte :=
  match s with
  | EmptyString => []
  | String c r => utf8_char c ++ utf8_encode r
  end.

Fixpoint concat_str (l : list string) : string :=
  match l with
  | [] => ""
  | s :: r => s ++ concat_str r
  end.

(** [sep.join(l)] *)
Fixpoint join (sep : string) (l : list string) : string :=
  match l with
  | [] => ""
  | [s] => s
  | s :: r => s ++ sep ++ join sep r
  end.

(** [str(n)] for a Python [int]. *)
Fixpoint digits_rev (fuel : nat) (n : Z) : list Z :=
  match fuel with
  | O => []
  | S f => if n <? 10 then [n] else (n mod 10) :: digits_rev f (n / 10)
  end.

Definition digit_char (d : Z) : ascii := ascii_of_nat (48 + Z.to_nat d).

Definition str_of_nonneg (n : Z) : string :=
  fold_left (fun acc d => String (digit_char d) acc)
    (digits_rev (S (Z.to_nat (Z.log2 (Z.max n 1)))) n) "".

Definition str_of_Z (z : Z) : string :=
  if z <? 0 then "-" ++ str_of_nonneg (- z) else str_of_nonneg z.

Definition str_of_nat (n : nat) : string := str_of_Z (Z.of_nat n).




(** [str.lower()] on ASCII letters. *)
Definition lower_char (c : ascii) : ascii :=
  let n := nat_of_ascii c in
  if (Nat.leb 65 n && Nat.leb n 90)%bool then ascii_of_nat (n + 32) else c.

Fixpoint lower (s : string) : string :=
  match s with
  | EmptyString => EmptyString
  | String c r => String (lower_char c) (lower r)
  end.

(** ** SHA-256 *)

Module SHA256.

Definition mask32 (x : Z) : Z := Z.land x (Z.ones 32).
Definition add32 (x y : Z) : Z := mask32 (x + y).
Definition rotr (x : Z) (n : Z) : Z :=
  mask32 (Z.lor (Z.shiftr x n) (Z.shiftl x (32 - n))).
Definition ch (x y z : Z) : Z := Z.lxor (Z.land x y) (Z.land (Z.lxor x (Z.ones 32)) z).
Definition maj (x y z : Z) : Z := Z.lxor (Z.lxor (Z.land x y) (Z.land x z)) (Z.land y z).
Definition bsig0 (x : Z) : Z := Z.lxor (Z.lxor (rotr x 2) (rotr x 13)) (rotr x 22).
Definition bsig1 (x : Z) : Z := Z.lxor (Z.lxor (rotr x 6) (rotr x 11)) (rotr x 25).
Definition ssig0 (x : Z) : Z := Z.lxor (Z.lxor (rotr x 7) (rotr x 18)) (Z.shiftr x 3).
Definition ssig1 (x : Z) : Z := Z.lxor (Z.lxor (rotr x 17) (rotr x 19)) (Z.shiftr x 10).

(** The first primes, by trial division. *)
Definition is_prime (n : nat) : bool :=
  (1 <? n)%nat && forallb (fun d => negb (n mod d =? 0)%nat) (seq 2 (n - 2)).
Definition first_primes (k : nat) : list Z :=
  map Z.of_nat (firstn k (filter is_prime (seq 2 310))).

(** Integer cube root, one bit at a time from bit [b - 1] down. *)
Fixpoint icbrt_bits (b : nat) (n r : Z) : Z :=
  match b with
  | O => r
  | S b' =>
      let c := r + 2 ^ Z.of_nat b' in
      icbrt_bits b' n (if c * c * c <=? n then c else r)
  end.
Definition icbrt (n : Z) : Z := icbrt_bits 40 n 0.

(** FIPS 180-4, 4.2.2: the first 32 bits of the fractional parts of the cube
    roots of the first 64 primes. *)
Definition K : list Z :=
  map (fun p => mask32 (icbrt (p * 2 ^ 96))) (first_primes 64).

(** FIPS 180-4, 5.3.3: the first 32 bits of the fractional parts of the square
    roots of the first 8 primes. *)
Definition H0 : list Z :=
  map (fun p => mask32 (Z.sqrt (p * 2 ^ 64))) (first_primes 8).

(** Big-endian byte encoding of [v] on [n] bytes. *)
Fixpoint be_bytes (n : nat) (v : Z) : list Z :=
  match n with
  | O => []
  | S m => be_bytes m (Z.shiftr v 8) ++ [Z.land v 255]
  end.

(** Message padding: a 1 bit, zeros, then the 64-bit bit length. *)
Definition pad (msg : list Z) : list Z :=
  let len := Z.of_nat (length msg) in
  let zeros := Z.to_nat ((55 - len) mod 64) in
  msg ++ [128] ++ repeat 0 zeros ++ be_bytes 8 (8 * len).

Fixpoint words_of (fuel : nat) (bs : list Z) : list Z :=
  match fuel, bs with
  | S f, a :: b :: c :: d :: r =>
      (Z.lor (Z.shiftl a 24) (Z.lor (Z.shiftl b 16) (Z.lor (Z.shiftl c 8) d)))
        :: words_of f r
  | _, _ => []
  end.

(** Message schedule: 16 words extended to 64, kept in reverse order. *)
Fixpoint schedule_rev (n : nat) (w : list Z) : list Z :=
  match n with
  | O => w
  | S m =>
      let w' := schedule_rev m w in
      let t2 := nth 1 w' 0 in
      let t7 := nth 6 w' 0 in
      let t15 := nth 14 w' 0 in
      let t16 := nth 15 w' 0 in
      add32 (add32 (ssig1 t2) t7) (add32 (ssig0 t15) t16) :: w'
  end.

Definition schedule (block : list Z) : list Z :=
  rev (schedule_rev 48 (rev block)).

Definition round (st : list Z) (kw : Z * Z) : list Z :=
  match st with
  | [a; b; c; d; e; f; g; h] =>
      let t1 := add32 (add32 (add32 h (bsig1 e)) (add32 (ch e f g) (fst kw))) (snd kw) in
      let t2 := add32 (bsig0 a) (maj a b c) in
      [add32 t1 t2; a; b; c; add32 d t1; e; f; g]
  | _ => st
  end.

Definition compress (st : list Z) (block : list Z) : list Z :=
  let st' := fold_left round (combine K (schedule block)) st in
  map (fun p => add32 (fst p) (snd p)) (combine st st').

Fixpoint blocks (fuel : nat) (ws : list Z) : list (list Z) :=
  match fuel with
  | O => []
  | S f =>
      match ws with
      | [] => []
      | _ => firstn 16 ws :: blocks f (skipn 16 ws)
      end
  end.

Definition digest_words (msg : list Z) : list Z :=
  let p := pad msg in
  let ws := words_of (length p) p in
  fold_left compress (blocks (length ws) ws) H0.

Definition hex_char (d : Z) : ascii :=
  if d <? 10 then ascii_of_nat (48 + Z.to_nat d) else ascii_of_nat (87 + Z.to_nat d).

Definition hex_byte (b : Z) : string :=
  String (hex_char (Z.shiftr b 4)) (String (hex_char (Z.land b 15)) EmptyString).

(** [hashlib.sha256(msg).hexdigest()] *)
Definition hexdigest (msg : list Byte.byte) : string :=
  concat_str (map hex_byte (flat_map (be_bytes 4) (digest_words (map Z_of_byte msg)))).

End SHA256.

(** ** Cell values and pandas data frames *)

(** A decimal number [dmant * 10 ^ dexp].  A Python [float] is represented
    by the decimal that its [repr] prints, so that every finite float has
    exactly one representative up to trailing zeros. *)
Record decimal : Type := { dmant : Z; dexp : Z }.

Definition Q_of_decimal (d : decimal) : Q :=
  if 0 <=? dexp d then inject_Z (dmant d * 10 ^ dexp d)
  else Qmake (dmant d) (Z.to_pos (10 ^ (- dexp d))).

(** A cell: a Python [int], a [float], a [str], or a missing value
    ([None] / [NaN], what [isna] reports). *)
Inductive value : Type :=
| VInt (z : Z)
| VFloat (d : decimal)
| VStr (s : string)
| VNull.

(** A Python [float] produced by [astype(float)]: a number, [NaN], or an
    infinity ([FInf true] is [-inf]). *)
Inductive fval : Type :=
| FNum (q : Q)
| FNaN
| FInf (neg : bool).

Definition num_of (v : value) : option Q :=
  match v with
  | VInt z => Some (inject_Z z)
  | VFloat d => Some (Q_of_decimal d)
  | _ => None
  end.

Definition Qlt_bool (p q : Q) : bool := negb (Qle_bool q p).

Definition is_null (v : value) : bool :=
  match v with VNull => true | _ => false end.

(** Python [a == b] on non-missing cells ([NaN == x] is [False]). *)
Definition py_eq (a b : value) : bool :=
  match a, b with
  | VStr s, VStr t => String.eqb s t
  | VNull, _ | _, VNull => false
  | _, _ =>
      match num_of a, num_of b with
      | Some p, Some q => Qeq_bool p q
      | _, _ => false
      end
  end.

Definition unorderable : exn := TypeError "'<' not supported between instances".

(** Python [a < b]: numbers by value, strings by code points, any other
    combination raises [TypeError]. *)
Definition py_lt (a b : value) : result bool :=
  match a, b with
  | VStr s, VStr t => Ok (String.ltb s t)
  | _, _ =>
      match num_of a, num_of b with
      | Some p, Some q => Ok (Qlt_bool p q)
      | _, _ => Raise unorderable
      end
  end.

(** [sorted(xs)]: a stable insertion sort through [py_lt]; like any
    comparison sort it raises as soon as two unorderable cells meet. *)
Fixpoint insert_sorted (x : value) (l : list value) : result (list value) :=
  match l with
  | [] => Ok [x]
  | y :: r =>
      b <- py_lt y x ;;
      if b then (r' <- insert_sorted x r ;; Ok (y :: r')) else Ok (x :: y :: r)
  end.

Fixpoint py_sorted (l : list value) : result (list value) :=
  match l with
  | [] => Ok []
  | x :: r => r' <- py_sorted r ;; insert_sorted x r'
  end.

(** [sorted] on a list of [str]. *)
Fixpoint insert_str (x : string) (l : list string) : list string :=
  match l with
  | [] => [x]
  | y :: r => if String.ltb y x then y :: insert_str x r else x :: y :: r
  end.

Definition sort_str (l : list string) : list string := fold_right insert_str [] l.

(** pandas dtypes of a column. *)
Inductive pdtype : Type :=
| DInt64 | DFloat64 | DBool | DObject | DStringDt | DDatetime | DCategory.

(** [str(series.dtype)] *)
Definition dtype_name (d : pdtype) : string :=
  match d with
  | DInt64 => "int64" | DFloat64 => "float64" | DBool => "bool"
  | DObject => "object" | DStringDt => "string" | DDatetime => "datetime64[ns]"
  | DCategory => "category"
  end.

Record Series : Type := { cname : string; cdtype : pdtype; cells : list value }.

(** A [pd.DataFrame]: its columns in order.  All columns have the same
    number of cells, one per row. *)
Definition DataFrame := list Series.

Definition df_columns (df : DataFrame) : list string := map cname df.

Definition has_column (df : DataFrame) (name : string) : bool :=
  existsb (fun c => String.eqb (cname c) name) df.

(** [df[name]] (column names of a frame are distinct). *)
Definition get_column (df : DataFrame) (name : string) : result Series :=
  match find (fun c => String.eqb (cname c) name) df with
  | Some c => Ok c
  | None => Raise (KeyError name)
  end.

Definition nrows (df : DataFrame) : nat :=
  match df with [] => O | c :: _ => length (cells c) end.

Definition row (df : DataFrame) (i : nat) : list value :=
  map (fun c => nth i (cells c) VNull) df.

Definition rows (df : DataFrame) : list (list value) := map (row df) (seq 0 (nrows df)).

(** ** [df.to_csv(index=False)] *)

(** [repr(float)] of the decimal [m * 10 ^ e] ([m] without trailing zeros). *)
Fixpoint strip_zeros (fuel : nat) (m e : Z) : Z * Z :=
  match fuel with
  | O => (m, e)
  | S f => if (m =? 0) || negb (m mod 10 =? 0) then (m, e) else strip_zeros f (m / 10) (e + 1)
  end.

Fixpoint zeros (n : nat) : string :=
  match n with O => "" | S k => String "0" (zeros k) end.

Definition exp_text (x : Z) : string :=
  (if x <? 0 then "-" else "+") ++
  (if Z.abs x <? 10 then "0" else "") ++ str_of_Z (Z.abs x).

Definition float_repr (d : decimal) : string :=
  let '(m, e) := strip_zeros (S (Z.to_nat (Z.log2 (Z.abs (dmant d) + 1)))) (dmant d) (dexp d) in
  if m =? 0 then "0.0" else
  let sign := if m <? 0 then "-" else "" in
  let ds := str_of_nonneg (Z.abs m) in
  let n := Z.of_nat (String.length ds) in
  let x := n - 1 + e in
  sign ++
  (if (x <? -4) || (16 <=? x) then
     substring 0 1 ds ++
     (if n =? 1 then "" else "." ++ substring 1 (Z.to_nat (n - 1)) ds) ++
     "e" ++ exp_text x
   else if 0 <=? e then ds ++ zeros (Z.to_nat e) ++ ".0"
   else if 0 <? n + e then
     substring 0 (Z.to_nat (n + e)) ds ++ "." ++ substring (Z.to_nat (n + e)) (Z.to_nat (- e)) ds
   else "0." ++ zeros (Z.to_nat (- (n + e))) ++ ds).

(** The text the CSV writer receives for a cell ([na_rep=""]). *)
Definition cell_text (v : value) : string :=
  match v with
  | VInt z => str_of_Z z
  | VFloat d => float_repr d
  | VStr s => s
  | VNull => ""
  end.

Definition comma : ascii := ",".
Definition dquote : ascii := "034".
Definition nl : ascii := "010".
Definition cr : ascii := "013".

Definition special (c : ascii) : bool :=
  Ascii.eqb c comma || Ascii.eqb c dquote || Ascii.eqb c nl || Ascii.eqb c cr.

Fixpoint has_special (s : string) : bool :=
  match s with
  | EmptyString => false
  | String c r => special c || has_special r
  end.

Fixpoint double_quotes (s : string) : string :=
  match s with
  | EmptyString => EmptyString
  | String c r =>
      if Ascii.eqb c dquote then String dquote (String dquote (double_quotes r))
      else String c (double_quotes r)
  end.

(** [csv.QUOTE_MINIMAL] quoting of one field. *)
Definition quote_field (s : string) : string :=
  if has_special s then String dquote (double_quotes s ++ String dquote EmptyString) else s.

(** [csv.writer.writerow]: a record made of one empty field is written as
    [""] so that it is not an empty line. *)
Definition csv_record (fields : list string) : string :=
  match fields with
  | [EmptyString] => String dquote (String dquote (String nl EmptyString))
  | _ => join "," (map quote_field fields) ++ String nl EmptyString
  end.

Definition to_csv (df : DataFrame) : string :=
  csv_record (df_columns df) ++ concat_str (map (fun r => csv_record (map cell_text r)) (rows df)).

(** [_hash_dataframe] of both [validate_data.py] and [validate_charts.py]. *)
Definition hash_dataframe (df : DataFrame) : string :=
  SHA256.hexdigest (utf8_encode (to_csv df)).

(** Values held in the [context] dictionaries of issues. *)
Inductive ctxval : Type :=
| CInt (n : nat)
| CVal (v : value)
| CStr (s : string)
| COptStr (s : option string)
| CVals (l : list value)
| CFloat (f : fval).

Definition Context := list (string * ctxval).

Fixpoint str_dedup (l : list string) : list string :=
  match l with
  | [] => []
  | x :: r => x :: filter (fun y => negb (String.eqb x y)) (str_dedup r)
  end.

(** [series.unique()]: first occurrences, Python equality. *)
Fixpoint unique (l : list value) : list value :=
  match l with
  | [] => []
  | x :: r => x :: filter (fun y => negb (py_eq x y)) (unique r)
  end.

Definition dropna (l : list value) : list value := filter (fun v => negb (is_null v)) l.

(** * [surveykit/validate_data.py] *)

Module ValidateData.

Record ColumnSchema : Type := {
  name : string;
  dtype : string;
  required : bool;
  nullable : bool;
  allowed_values : option (list value);
  minimum : option value;
  maximum : option value;
  notes : option string }.

Record SchemaDefinition : Type := {
  columns : list ColumnSchema;
  version : option string;
  description : option string }.

Record ValidationIssue : Type := {
  level : string;
  column : option string;
  message : string;
  context : Context }.

Record ValidationReport : Type := {
  issues : list ValidationIssue;
  data_signature : string;
  schema_version : option string;
  validated_at : string }.

Definition is_error (i : ValidationIssue) : bool := String.eqb (level i) "ERROR".
Definition is_warning (i : ValidationIssue) : bool := String.eqb (level i) "WARN".

Definition errors (r : ValidationReport) : list ValidationIssue := filter is_error (issues r).
Definition warnings (r : ValidationReport) : list ValidationIssue := filter is_warning (issues r).
Definition has_errors (r : ValidationReport) : bool :=
  match errors r with [] => false | _ => true end.

(** The dtype predicates of pandas used by [_PANDAS_TYPE_CHECKS]. *)
Definition is_integer_dtype (d : pdtype) : bool := match d with DInt64 => true | _ => false end.
Definition is_float_dtype (d : pdtype) : bool := match d with DFloat64 => true | _ => false end.
Definition is_string_dtype (d : pdtype) : bool :=
  match d with DObject | DStringDt => true | _ => false end.
Definition is_object_dtype (d : pdtype) : bool := match d with DObject => true | _ => false end.
Definition is_bool_dtype (d : pdtype) : bool := match d with DBool => true | _ => false end.
Definition is_datetime64_any_dtype (d : pdtype) : bool :=
  match d with DDatetime => true | _ => false end.
Definition is_categorical_dtype (d : pdtype) : bool :=
  match d with DCategory => true | _ => false end.

Definition PANDAS_TYPE_CHECKS : list (string * list (pdtype -> bool)) :=
  [("integer", [is_integer_dtype]);
   ("float", [is_float_dtype]);
   ("number", [is_float_dtype; is_integer_dtype]);
   ("string", [is_string_dtype; is_object_dtype]);
   ("boolean", [is_bool_dtype]);
   ("datetime", [is_datetime64_any_dtype]);
   ("category", [is_categorical_dtype])].

Fixpoint lookup_checks (k : string) (t : list (string * list (pdtype -> bool)))
  : option (list (pdtype -> bool)) :=
  match t with
  | [] => None
  | (k', v) :: r => if String.eqb k k' then Some v else lookup_checks k r
  end.

Definition series_has_dtype (series : Series) (expected : string) : result bool :=
  match lookup_checks (lower expected) PANDAS_TYPE_CHECKS with
  | None => Raise (ValueError ("Unsupported dtype in schema: " ++ expected))
  | Some checkers => Ok (existsb (fun checker => checker (cdtype series)) checkers)
  end.

Definition count_true (l : list bool) : nat := length (filter (fun b => b) l).

Definition issue (lvl : string) (col : string) (msg : string) (ctx : Context) : ValidationIssue :=
  {| level := lvl; column := Some col; message := msg; context := ctx |}.

(** The Python type name of a bound, as pandas prints it in comparison errors. *)
Definition py_type_name (v : value) : string :=
  match v with VInt _ => "int" | VFloat _ | VNull => "float" | VStr _ => "str" end.

(** One cell of [series.dropna() < m] ([below = true]) or of
    [series.dropna() > m]: a comparison with a [NaN] bound is [False] for a
    number and raises for a string. *)
Definition cmp_cell (below : bool) (m v : value) : result bool :=
  match m with
  | VNull => match v with VStr _ => Raise unorderable | _ => Ok false end
  | _ => if below then py_lt v m else py_lt m v
  end.

(** [series.dropna() < m] or [series.dropna() > m], by the dtype of the
    column: an unordered categorical refuses [<] and [>]; a numeric column
    refuses a string bound and a datetime column a non-string bound, before
    looking at any cell (a datetime cell is held as its ISO text); an
    [object] or [string] column compares cell by cell as Python does. *)
Definition compare_bound (below : bool) (series : Series) (m : value) : result (list bool) :=
  let cs := dropna (cells series) in
  match cdtype series with
  | DCategory => Raise (TypeError "Unordered Categoricals can only compare equality or not")
  | DInt64 | DFloat64 | DBool =>
      match m with
      | VStr _ => Raise (TypeError ("Invalid comparison between dtype=" ++ dtype_name (cdtype series)
                                     ++ " and str"))
      | _ => mapM (cmp_cell below m) cs
      end
  | DDatetime =>
      match m with
      | VStr _ => mapM (cmp_cell below m) cs
      | _ => Raise (TypeError ("Invalid comparison between dtype=datetime64[ns] and " ++ py_type_name m))
      end
  | DObject | DStringDt => mapM (cmp_cell below m) cs
  end.

(** The body of the loop over [schema.columns] for one declared column. *)
Definition check_column (df : DataFrame) (col_schema : ColumnSchema) : result (list ValidationIssue) :=
  let nm := name col_schema in
  if negb (has_column df nm) then
    Ok [if required col_schema then issue "ERROR" nm "Missing required column" []
        else issue "WARN" nm "Optional column missing" []]
  else
  series <- get_column df nm ;;
  let null_issues :=
    if negb (nullable col_schema) && existsb is_null (cells series) then
      [issue "ERROR" nm "Null values not permitted"
         [("null_count", CInt (length (filter is_null (cells series))))]]
    else [] in
  dtype_issues <-
    match series_has_dtype series (dtype col_schema) with
    | Ok true => Ok []
    | Ok false =>
        Ok [issue "ERROR" nm "Unexpected dtype"
              [("observed", CStr (dtype_name (cdtype series))); ("expected", CStr (dtype col_schema))]]
    | Raise (ValueError msg) => Ok [issue "ERROR" nm msg []]
    | Raise e => Raise e
    end ;;
  allowed_issues <-
    match allowed_values col_schema with
    | None => Ok []
    | Some av =>
        invalid_values <-
          py_sorted (filter (fun v => negb (existsb (py_eq v) av)) (unique (dropna (cells series)))) ;;
        Ok (match invalid_values with
            | [] => []
            | _ => [issue "ERROR" nm "Values outside allowed set"
                      [("invalid_values", CVals invalid_values)]]
            end)
    end ;;
  min_issues <-
    match minimum col_schema with
    | None => Ok []
    | Some m =>
        below <- compare_bound true series m ;;
        Ok (if existsb (fun b => b) below then
              [issue "ERROR" nm "Values below minimum" [("minimum", CVal m); ("count", CInt (count_true below))]]
            else [])
    end ;;
  max_issues <-
    match maximum col_schema with
    | None => Ok []
    | Some m =>
        above <- compare_bound false series m ;;
        Ok (if existsb (fun b => b) above then
              [issue "ERROR" nm "Values above maximum" [("maximum", CVal m); ("count", CInt (count_true above))]]
            else [])
    end ;;
  Ok (null_issues ++ dtype_issues ++ allowed_issues ++ min_issues ++ max_issues)%list.

Fixpoint column_issues (df : DataFrame) (cols : list ColumnSchema) : result (list ValidationIssue) :=
  match cols with
  | [] => Ok []
  | cs :: r => is <- check_column df cs ;; rest <- column_issues df r ;; Ok (is ++ rest)%list
  end.

(** [sorted(present_columns)] after every declared column found in the
    frame has been discarded. *)
Definition extra_columns (df : DataFrame) (schema : SchemaDefinition) : list string :=
  sort_str (filter (fun c => negb (existsb (fun cs => String.eqb (name cs) c) (columns schema)))
                   (str_dedup (df_columns df))).

Definition extra_issues (df : DataFrame) (schema : SchemaDefinition) : list ValidationIssue :=
  map (fun extra => issue "WARN" extra "Unexpected column present" []) (extra_columns df schema).

(** One line of the audit log: [{"ts": ..., **report.to_dict()}]. *)
Record LogEntry : Type := { ts : string; entry : ValidationReport }.

(** Files of the audit log, each the list of its lines. *)
Definition LogStore := list (string * list LogEntry).

Fixpoint append_line (st : LogStore) (p : string) (e : LogEntry) : LogStore :=
  match st with
  | [] => [(p, [e])]
  | (q, lines) :: r =>
      if String.eqb p q then (q, (lines ++ [e])%list) :: r else (q, lines) :: append_line r p e
  end.

Fixpoint log_lines (st : LogStore) (p : string) : list LogEntry :=
  match st with
  | [] => []
  | (q, lines) :: r => if String.eqb p q then lines else log_lines r p
  end.

(** Opening the log with mode ["a"] creates it when it is missing. *)
Fixpoint touch_log (st : LogStore) (p : string) : LogStore :=
  match st with
  | [] => [(p, [])]
  | (q, lines) :: r => if String.eqb p q then st else (q, lines) :: touch_log r p
  end.

(** The class of the elements of [series.dropna().unique()] that the
    audit-log [json.dumps] (called without [default=]) cannot serialise:
    numpy integer and boolean scalars (numpy 2 names) and the [Timestamp]s
    of a datetime column (pandas 2).  [float64] scalars are Python
    [float]s; object, string and categorical columns give Python objects. *)
Definition unserialisable_scalar (d : pdtype) : option string :=
  match d with
  | DInt64 => Some "int64"
  | DBool => Some "bool"
  | DDatetime => Some "Timestamp"
  | _ => None
  end.

(** The class of the first value of the issues that [json.dumps] rejects:
    the [invalid_values] of a column of such a dtype. *)
Fixpoint json_error (df : DataFrame) (is : list ValidationIssue) : option string :=
  match is with
  | [] => None
  | i :: r =>
      let bad := match column i with
                 | Some c =>
                     if existsb (fun kv => String.eqb (fst kv) "invalid_values") (context i) then
                       match get_column df c with
                       | Ok s => unserialisable_scalar (cdtype s)
                       | Raise _ => None
                       end
                     else None
                 | None => None
                 end in
      match bad with Some cls => Some cls | None => json_error df r end
  end.

(** [validate_dataframe]; [now_report] and [now_log] are the two readings
    of [datetime.utcnow()] (the report's [validated_at], the log's [ts]). *)
Definition validate_dataframe (df : DataFrame) (schema : SchemaDefinition)
  (log_path : option string) (halt_on_error : bool) (now_report now_log : string)
  (st : LogStore) : result ValidationReport * LogStore :=
  match column_issues df (columns schema) with
  | Raise e => (Raise e, st)
  | Ok col_issues =>
      let report := {| issues := (col_issues ++ extra_issues df schema)%list;
                       data_signature := hash_dataframe df;
                       schema_version := version schema;
                       validated_at := now_report |} in
      let finish := fun st' =>
        if halt_on_error && has_errors report then
          (Raise (ValidationError ("Validation failed with " ++ str_of_nat (length (errors report))
                                   ++ " error(s)")), st')
        else (Ok report, st') in
      match log_path with
      | Some p =>
          match json_error df (issues report) with
          | Some cls => (Raise (TypeError ("Object of type " ++ cls ++ " is not JSON serializable")),
                         touch_log st p)
          | None => finish (append_line st p {| ts := now_log; entry := report |})
          end
      | None => finish st
      end
  end.

End ValidateData.

(** * [surveykit/validate_charts.py] *)

Module ValidateCharts.

(** A filter's expected value: a scalar (compared with [==]) or a
    non-string iterable (compared with [isin]). *)
Inductive FilterValue : Type :=
| FScalar (v : value)
| FIterable (vs : list value).

Record ChartSpec : Type := {
  identifier : string;
  kind : string;
  x : string;
  y : option string;
  aggregation : option string;
  filters : list (string * FilterValue);
  data_signature : option string;
  created_at : option string;
  metadata : list (string * value) }.

Record ChartIssue : Type := {
  issue_identifier : string;
  issue_level : string;
  issue_message : string;
  issue_context : Context }.

Record ChartValidationReport : Type := {
  report_issues : list ChartIssue;
  report_data_signature : string }.

Definition has_errors (r : ChartValidationReport) : bool :=
  existsb (fun i => String.eqb (issue_level i) "ERROR") (report_issues r).

(** [Series.isin]: [NaN] matches [NaN]. *)
Definition isin (v : value) (vs : list value) : bool :=
  existsb (fun w => py_eq v w || (is_null v && is_null w)) vs.

Fixpoint select {A} (mask : list bool) (l : list A) : list A :=
  match mask, l with
  | b :: m, a :: r => if b then a :: select m r else select m r
  | _, _ => []
  end.

(** [df[mask]] *)
Definition mask_frame (df : DataFrame) (mask : list bool) : DataFrame :=
  map (fun c => {| cname := cname c; cdtype := cdtype c; cells := select mask (cells c) |}) df.

Definition apply_filter (df filtered : DataFrame) (flt : string * FilterValue) : result DataFrame :=
  let '(col, expected) := flt in
  if negb (has_column df col) then Raise (KeyError ("Filter column not found: " ++ col))
  else
  series <- get_column filtered col ;;
  let mask := match expected with
              | FIterable vs => map (fun v => isin v vs) (cells series)
              | FScalar e => map (fun v => py_eq v e) (cells series)
              end in
  Ok (mask_frame filtered mask).

(** [_apply_filters] *)
Fixpoint apply_filters_from (df filtered : DataFrame) (flts : list (string * FilterValue))
  : result DataFrame :=
  match flts with
  | [] => Ok filtered
  | f :: r => filtered' <- apply_filter df filtered f ;; apply_filters_from df filtered' r
  end.

Definition apply_filters (df : DataFrame) (flts : list (string * FilterValue)) : result DataFrame :=
  apply_filters_from df df flts.

(** An aggregated value as pandas holds it: a number, [NaN], or (for a
    [sum] of text) a string. *)
Inductive aval : Type :=
| AQ (q : Q)
| ANaN
| AStr (s : string).

Definition aval_of (v : value) : aval :=
  match v with
  | VStr s => AStr s
  | VNull => ANaN
  | _ => match num_of v with Some q => AQ q | None => ANaN end
  end.

Definition nums (vs : list value) : result (list Q) :=
  mapM (fun v => match num_of v with
                 | Some q => Ok q
                 | None => Raise (TypeError "unsupported operand type(s) for +")
                 end) (dropna vs).

Definition agg_mean (vs : list value) : result aval :=
  qs <- nums vs ;;
  match qs with
  | [] => Ok ANaN
  | _ => Ok (AQ (fold_right Qplus 0 qs / inject_Z (Z.of_nat (length qs))))%Q
  end.

Fixpoint all_str (vs : list value) : option (list string) :=
  match vs with
  | [] => Some []
  | VStr s :: r => option_map (cons s) (all_str r)
  | _ => None
  end.

Definition agg_sum (vs : list value) : result aval :=
  match dropna vs, all_str (dropna vs) with
  | _ :: _, Some ss => Ok (AStr (concat_str ss))
  | _, _ => qs <- nums vs ;; Ok (AQ (fold_right Qplus 0%Q qs))
  end.

Definition agg_count (vs : list value) : result aval :=
  Ok (AQ (inject_Z (Z.of_nat (length (dropna vs))))).

(** [filtered.groupby(spec.x)[spec.y].<agg>()]: groups keyed by the distinct
    non-missing x values in ascending order. *)
Definition group_aggregate (agg : list value -> result aval) (xs ys : list value)
  : result (list (value * aval)) :=
  keys <- py_sorted (unique (dropna xs)) ;;
  mapM (fun k => a <- agg (map snd (filter (fun p => py_eq (fst p) k) (combine xs ys))) ;; Ok (k, a))
    keys.

(** [df.sort_values(col)] on rows [(key, payload)]: missing keys last. *)
Fixpoint insert_row {A} (r : value * A) (l : list (value * A)) : result (list (value * A)) :=
  match l with
  | [] => Ok [r]
  | s :: t =>
      if is_null (fst r) then (t' <- insert_row r t ;; Ok (s :: t'))
      else if is_null (fst s) then Ok (r :: s :: t)
      else b <- py_lt (fst s) (fst r) ;;
           if b then (t' <- insert_row r t ;; Ok (s :: t')) else Ok (r :: s :: t)
  end.

Fixpoint sort_rows {A} (l : list (value * A)) : result (list (value * A)) :=
  match l with
  | [] => Ok []
  | r :: t => t' <- sort_rows t ;; insert_row r t'
  end.

(** [Series.equals] on the category columns: same dtype, same length,
    equal values position by position ([NaN] equal to [NaN]). *)
Definition values_equal (a b : value) : bool := py_eq a b || (is_null a && is_null b).

Fixpoint list_equals {A} (eq : A -> A -> bool) (l1 l2 : list A) : bool :=
  match l1, l2 with
  | [], [] => true
  | a :: r1, b :: r2 => eq a b && list_equals eq r1 r2
  | _, _ => false
  end.

(** [round(q, 6)] as numpy computes it (half to even), as the integer
    count of millionths. *)
Definition round6 (q : Q) : Z :=
  let n := Qnum q * 10 ^ 6 in
  let d := Zpos (Qden q) in
  let k := n / d in
  let r := n mod d in
  if 2 * r <? d then k
  else if d <? 2 * r then k + 1
  else if Z.even k then k else k + 1.

(** Whitespace that [float()] strips, below code point 256: the ASCII
    [isspace] characters and the two Unicode spaces [\x85] and [\xa0]. *)
Definition is_py_space (c : ascii) : bool :=
  let n := nat_of_ascii c in
  (Nat.leb 9 n && Nat.leb n 13) || Nat.eqb n 32 || Nat.eqb n 133 || Nat.eqb n 160.

Fixpoint strip_left (l : list ascii) : list ascii :=
  match l with
  | c :: r => if is_py_space c then strip_left r else l
  | [] => []
  end.

Definition strip (l : list ascii) : list ascii := rev (strip_left (rev (strip_left l))).

Definition is_digit (c : ascii) : bool :=
  Nat.leb 48 (nat_of_ascii c) && Nat.leb (nat_of_ascii c) 57.

Definition digit_val (c : ascii) : Z := Z.of_nat (nat_of_ascii c) - 48.

(** The digits of [digit (["_"] digit)*] read greedily, and the rest. *)
Fixpoint digit_run (l : list ascii) : list Z * list ascii :=
  match l with
  | [] => ([], [])
  | c :: r =>
      if is_digit c then let '(ds, rest) := digit_run r in (digit_val c :: ds, rest)
      else if Ascii.eqb c "_"%char then
        match r with
        | d :: r' => if is_digit d then let '(ds, rest) := digit_run r' in (digit_val d :: ds, rest)
                     else ([], l)
        | [] => ([], l)
        end
      else ([], l)
  end.

(** [digitpart ::= digit (["_"] digit)*] *)
Definition digitpart (l : list ascii) : option (list Z * list ascii) :=
  match l with
  | c :: _ => if is_digit c then Some (digit_run l) else None
  | [] => None
  end.

(** [number ::= [digitpart] "." digitpart | digitpart ["."]]: all the
    digits, the number of them after the point, and the rest. *)
Definition number_part (l : list ascii) : option (list Z * nat * list ascii) :=
  match digitpart l with
  | Some (ip, r) =>
      match r with
      | c :: r' =>
          if Ascii.eqb c "."%char then
            match digitpart r' with
            | Some (fp, r'') => Some ((ip ++ fp)%list, length fp, r'')
            | None => Some (ip, 0%nat, r')
            end
          else Some (ip, 0%nat, r)
      | [] => Some (ip, 0%nat, r)
      end
  | None =>
      match l with
      | c :: r' =>
          if Ascii.eqb c "."%char then
            match digitpart r' with
            | Some (fp, r'') => Some (fp, length fp, r'')
            | None => None
            end
          else None
      | [] => None
      end
  end.

(** An optional sign: [true] for ["-"]. *)
Definition sign_part (l : list ascii) : bool * list ascii :=
  match l with
  | c :: r => if Ascii.eqb c "-"%char then (true, r)
              else if Ascii.eqb c "+"%char then (false, r) else (false, l)
  | [] => (false, l)
  end.

(** [exponent ::= ("e" | "E") ["+" | "-"] digitpart], which must end the text. *)
Definition exponent_part (l : list ascii) : option Z :=
  match l with
  | [] => Some 0
  | c :: r =>
      if Ascii.eqb c "e"%char || Ascii.eqb c "E"%char then
        let '(neg, r') := sign_part r in
        match digitpart r' with
        | Some (ds, []) => let e := fold_left (fun acc d => acc * 10 + d) ds 0 in
                           Some (if neg then - e else e)
        | _ => None
        end
      else None
  end.

(** The smallest magnitude that a [float] conversion rounds to infinity:
    half-way between the largest double and [2 ^ 1024]. *)
Definition float_overflow : Z := 2 ^ 1024 - 2 ^ 970.

(** The [float] nearest to an exact decimal value, up to the rounding of
    finite values to 53 bits (which the comparisons below do not see). *)
Definition to_float (neg : bool) (q : Q) : fval :=
  if Qle_bool (inject_Z float_overflow) q then FInf neg
  else FNum (if neg then - q else q)%Q.

(** [float(s)] on a Python [str], the conversion [astype(float)] makes:
    surrounding whitespace stripped, an optional sign, then [inf],
    [infinity] or [nan] in any case, or a decimal literal with optional
    underscores between digits and an optional exponent. *)
Definition parse_float (s : string) : option fval :=
  let '(neg, body) := sign_part (strip (list_ascii_of_string s)) in
  let word := lower (string_of_list_ascii body) in
  if String.eqb word "inf" || String.eqb word "infinity" then Some (FInf neg)
  else if String.eqb word "nan" then Some FNaN
  else
    match number_part body with
    | Some (ds, k, rest) =>
        match exponent_part rest with
        | Some e =>
            let m := fold_left (fun acc d => acc * 10 + d) ds 0 in
            Some (to_float neg (Q_of_decimal {| dmant := m; dexp := e - Z.of_nat k |}))
        | None => None
        end
    | None => None
    end.

(** [series.astype(float)] on one aggregated value. *)
Definition as_float (a : aval) : result fval :=
  match a with
  | AQ q => Ok (FNum q)
  | ANaN => Ok FNaN
  | AStr s => match parse_float s with
              | Some f => Ok f
              | None => Raise (ValueError "could not convert string to float")
              end
  end.

(** Position by position, [a.round(6).equals(b.round(6))] on two float
    columns: [NaN] equals [NaN], an infinity equals itself. *)
Definition round_eq (a b : fval) : bool :=
  match a, b with
  | FNum p, FNum q => Z.eqb (round6 p) (round6 q)
  | FNaN, FNaN => true
  | FInf s, FInf t => Bool.eqb s t
  | _, _ => false
  end.

(** One position of [(expected_df[spec.y] - candidate[spec.y]).abs()] on
    the columns as they are, [NaN] as [None].  A string with a non-missing
    partner makes the subtraction raise; pandas' fallback for [object]
    columns operates only where both sides are present, so a string facing
    a missing value gives [NaN]. *)
Definition delta (e c : aval) : result (option Q) :=
  match e, c with
  | AQ p, AQ q => Ok (Some (Qabs (p - q)))%Q
  | AStr _, AQ _ | AQ _, AStr _ | AStr _, AStr _ =>
      Raise (TypeError "unsupported operand type(s) for -")
  | _, _ => Ok None
  end.

Definition Qmax (p q : Q) : Q := if Qle_bool p q then q else p.

(** [deltas.max()] (missing values skipped). *)
Fixpoint max_delta (ds : list (option Q)) : option Q :=
  match ds with
  | [] => None
  | None :: r => max_delta r
  | Some d :: r => match max_delta r with
                   | Some m => Some (Qmax d m)
                   | None => Some d
                   end
  end.

Definition chart_issue (spec : ChartSpec) (lvl msg : string) (ctx : Context) : ChartIssue :=
  {| issue_identifier := identifier spec; issue_level := lvl; issue_message := msg;
     issue_context := ctx |}.

Definition pdtype_eqb (a b : pdtype) : bool :=
  match a, b with
  | DInt64, DInt64 | DFloat64, DFloat64 | DBool, DBool | DObject, DObject
  | DStringDt, DStringDt | DDatetime, DDatetime | DCategory, DCategory => true
  | _, _ => false
  end.

Definition agg_function (agg : string) : option (list value -> result aval) :=
  if String.eqb agg "mean" then Some agg_mean
  else if String.eqb agg "sum" then Some agg_sum
  else if String.eqb agg "count" then Some agg_count
  else None.

Definition exceeds (tolerance : Q) (d : option Q) : bool :=
  match d with Some q => Qlt_bool tolerance q | None => false end.

(** [expected_series.reset_index().sort_values(spec.x)]: the dtype of the
    category column and the sorted [(x, aggregate)] rows. *)
Definition expected_frame (f : list value -> result aval) (xs ys : Series) (xname ycol : string)
  : result (pdtype * list (value * aval)) :=
  expected_series <- group_aggregate f (cells xs) (cells ys) ;;
  _ <- (if String.eqb ycol xname
        then Raise (ValueError ("cannot insert " ++ ycol ++ ", already exists"))
        else Ok tt) ;;
  expected_df <- sort_rows expected_series ;;
  Ok (cdtype xs, expected_df).

(** [chart_data.sort_values(spec.x)]: rows as [(x, original row number)]. *)
Definition candidate_frame (chart_data : DataFrame) (xname : string)
  : result (pdtype * list (value * nat)) :=
  cx <- get_column chart_data xname ;;
  candidate <- sort_rows (combine (cells cx) (seq 0 (length (cells cx)))) ;;
  Ok (cdtype cx, candidate).

(** [expected_df[spec.x].equals(candidate[spec.x])] *)
Definition categories_equal (xdt : pdtype) (ex : list value) (cdt : pdtype) (ox : list value) : bool :=
  pdtype_eqb xdt cdt && list_equals values_equal ex ox.

(** The value comparison of lines 154-162, once the categories agree:
    [e_f] and [c_f] are the columns after [astype(float)], [e] and [c] the
    columns as they are. *)
Definition compare_values (spec : ChartSpec) (tolerance : Q) (e_f c_f : list fval) (e c : list aval)
  : result (option ChartIssue) :=
  if list_equals round_eq e_f c_f then Ok None
  else
    deltas <- mapM (fun p => delta (fst p) (snd p)) (combine e c) ;;
    if existsb (exceeds tolerance) deltas then
      Ok (Some (chart_issue spec "ERROR" "Aggregated values differ from data."
                  [("max_delta", CFloat (match max_delta deltas with Some m => FNum m | None => FNaN end))]))
    else Ok None.

(** The [bar] branch of [verify_chart] once [y] and [aggregation] are set. *)
Definition verify_bar (spec : ChartSpec) (filtered chart_data : DataFrame) (tolerance : Q)
  (ycol agg : string) : result (option ChartIssue) :=
  xs <- get_column filtered (x spec) ;;
  ys <- get_column filtered ycol ;;
  match agg_function agg with
  | None => Ok (Some (chart_issue spec "ERROR" ("Unsupported aggregation: " ++ agg) []))
  | Some f =>
      ef <- expected_frame f xs ys (x spec) ycol ;;
      cf <- candidate_frame chart_data (x spec) ;;
      let ex := map fst (snd ef) in
      let ox := map fst (snd cf) in
      if negb (categories_equal (fst ef) ex (fst cf) ox) then
        Ok (Some (chart_issue spec "ERROR" "Category mismatch between chart and data."
                    [("expected", CVals ex); ("observed", CVals ox)]))
      else
        let e := map snd (snd ef) in
        e_f <- mapM as_float e ;;
        cy <- get_column chart_data ycol ;;
        let c := map (fun p => aval_of (nth (snd p) (cells cy) VNull)) (snd cf) in
        c_f <- mapM as_float c ;;
        compare_values spec tolerance e_f c_f e c
  end.

Definition verify_chart (df : DataFrame) (spec : ChartSpec) (chart_data : DataFrame)
  (tolerance : Q) : result (option ChartIssue) :=
  filtered <- match filters spec with [] => Ok df | fl => apply_filters df fl end ;;
  if String.eqb (kind spec) "bar" then
    match y spec, aggregation spec with
    | Some ycol, Some agg => verify_bar spec filtered chart_data tolerance ycol agg
    | _, _ => Ok (Some (chart_issue spec "ERROR" "Bar charts must define 'y' and 'aggregation'." []))
    end
  else if String.eqb (kind spec) "line" then
    cx <- get_column chart_data (x spec) ;;
    fx <- get_column filtered (x spec) ;;
    match filter (fun v => negb (isin v (cells fx))) (cells cx) with
    | [] => Ok None
    | missing =>
        Ok (Some (chart_issue spec "ERROR" "Chart includes x-values that do not exist in the dataset."
                    [("values", CVals missing)]))
    end
  else Ok (Some (chart_issue spec "WARN" ("No validator registered for chart kind: " ++ kind spec) [])).

(** [charts[identifier]] for a [Dict[str, DataFrame]]. *)
Fixpoint lookup_chart (charts : list (string * DataFrame)) (k : string) : option DataFrame :=
  match charts with
  | [] => None
  | (k', v) :: r => if String.eqb k k' then Some v else lookup_chart r k
  end.

(** The staleness test [spec.data_signature and spec.data_signature != data_signature]. *)
Definition stale_issues (spec : ChartSpec) (sig : string) : list ChartIssue :=
  match data_signature spec with
  | Some s =>
      if negb (String.eqb s "") && negb (String.eqb s sig) then
        [chart_issue spec "ERROR" "Chart is stale relative to the dataset signature."
           [("chart_signature", CStr s); ("data_signature", CStr sig)]]
      else []
  | None => []
  end.

Definition option_list {A} (o : option A) : list A :=
  match o with Some a => [a] | None => [] end.

(** The loop over [specs] of [validate_charts]. *)
Fixpoint spec_issues (df : DataFrame) (sig : string) (charts : list (string * DataFrame))
  (tolerance : Q) (specs : list ChartSpec) : result (list ChartIssue) :=
  match specs with
  | [] => Ok []
  | spec :: r =>
      this <- match lookup_chart charts (identifier spec) with
              | None => Ok [chart_issue spec "ERROR" "Chart output missing." []]
              | Some chart_df =>
                  issue <- verify_chart df spec chart_df tolerance ;;
                  Ok (option_list issue ++ stale_issues spec sig)%list
              end ;;
      rest <- spec_issues df sig charts tolerance r ;;
      Ok (this ++ rest)%list
  end.

Definition validate_charts (df : DataFrame) (specs : list ChartSpec)
  (charts : list (string * DataFrame)) (tolerance : Q) : result ChartValidationReport :=
  let sig := hash_dataframe df in
  issues <- spec_issues df sig charts tolerance specs ;;
  Ok {| report_issues := issues; report_data_signature := sig |}.

(** The default [tolerance=1e-6]. *)
Definition default_tolerance : Q := 1 # 1000000.

End ValidateCharts.

(** * [surveykit/integrity.py] *)

Module Integrity.

(** The file system: absolute paths (lists of components) to regular files
    with their bytes, or directories. *)
Inductive node : Type :=
| NFile (contents : list Byte.byte)
| NDir.

Definition Path := list string.
Definition FS := list (Path * node).

Fixpoint path_eqb (p q : Path) : bool :=
  match p, q with
  | [], [] => true
  | a :: p', b :: q' => String.eqb a b && path_eqb p' q'
  | _, _ => false
  end.

Fixpoint lookup (fs : FS) (p : Path) : option node :=
  match fs with
  | [] => None
  | (q, n) :: r => if path_eqb p q then Some n else lookup r p
  end.

Definition exists_ (fs : FS) (p : Path) : bool :=
  match lookup fs p with Some _ => true | None => false end.

(** The file system after a successful write: the file is created or its
    contents replaced. *)
Fixpoint put_file (fs : FS) (p : Path) (b : list Byte.byte) : FS :=
  match fs with
  | [] => [(p, NFile b)]
  | (q, n) :: r => if path_eqb p q then (q, NFile b) :: r else (q, n) :: put_file r p b
  end.

(** The resolution of the directories above a path by [open]: every
    proper prefix must be a directory ([done] is the part resolved so far,
    [target] the path named in the error). *)
Fixpoint check_dirs (fs : FS) (done rest : Path) (target : string) : result unit :=
  match rest with
  | [] => Ok tt
  | c :: r =>
      let d := (done ++ [c])%list in
      match lookup fs d with
      | Some NDir => check_dirs fs d r target
      | Some (NFile _) => Raise (NotADirectoryError target)
      | None => Raise (FileNotFoundError target)
      end
  end.

(** [Path.write_text]: [open(p, "w")] fails when a directory above [p] is
    missing or is a file, or when [p] is a directory; otherwise the file is
    created or truncated and written. *)
Definition write_text (fs : FS) (p : Path) (b : list Byte.byte) : result FS :=
  u <- check_dirs fs [] (removelast p) (join "/" p) ;;
  match lookup fs p with
  | Some NDir => Raise (IsADirectoryError (join "/" p))
  | _ => Ok (put_file fs p b)
  end.

(** [p.relative_to(d)] when [d] is a strict prefix of [p]. *)
Fixpoint strip_prefix (d p : Path) : option Path :=
  match d, p with
  | [], _ :: _ => Some p
  | a :: d', b :: p' => if String.eqb a b then strip_prefix d' p' else None
  | _, _ => None
  end.

(** Path ordering: component lists compared lexicographically. *)
Fixpoint path_ltb (p q : Path) : bool :=
  match p, q with
  | [], _ :: _ => true
  | a :: p', b :: q' => if String.eqb a b then path_ltb p' q' else String.ltb a b
  | _, _ => false
  end.

Fixpoint insert_entry (e : Path * node) (l : list (Path * node)) : list (Path * node) :=
  match l with
  | [] => [e]
  | f :: r => if path_ltb (fst f) (fst e) then f :: insert_entry e r else e :: f :: r
  end.

(** [sorted(d.rglob("*"))], each entry with its path relative to [d]. *)
Definition rglob_sorted (fs : FS) (d : Path) : list (Path * node) :=
  fold_right insert_entry []
    (flat_map (fun e => match strip_prefix d (fst e) with
                        | Some rel => [(rel, snd e)]
                        | None => []
                        end) fs).

(** [sha256_file] *)
Definition sha256_file (fs : FS) (p : Path) : option string :=
  match lookup fs p with
  | Some (NFile b) => Some (SHA256.hexdigest b)
  | _ => None
  end.

(** The bytes fed to the running hash of [sha256_dir]: for each regular
    file in sorted order, its relative POSIX path, then its contents. *)
Definition dir_stream (fs : FS) (d : Path) : list Byte.byte :=
  flat_map (fun e => match snd e with
                     | NFile b => (utf8_encode (join "/" (fst e)) ++ b)%list
                     | NDir => []
                     end) (rglob_sorted fs d).

(** [sha256_dir] *)
Definition sha256_dir (fs : FS) (d : Path) : string := SHA256.hexdigest (dir_stream fs d).

(** ** JSON values and [json.dumps] *)

Inductive json : Type :=
| JNull
| JStr (s : string)
| JFloat (d : decimal)
| JObj (fields : list (string * json)).

Definition hex4 (n : nat) : string :=
  let z := Z.of_nat n in
  String (SHA256.hex_char (z / 4096 mod 16)) (String (SHA256.hex_char (z / 256 mod 16))
    (String (SHA256.hex_char (z / 16 mod 16)) (String (SHA256.hex_char (z mod 16)) EmptyString))).

(** The [ensure_ascii] escaping of one character. *)
Definition escape_char (c : ascii) : string :=
  let n := nat_of_ascii c in
  if Nat.eqb n 34 then String "\" (String dquote EmptyString)
  else if Nat.eqb n 92 then "\\"
  else if Nat.eqb n 10 then "\n"
  else if Nat.eqb n 13 then "\r"
  else if Nat.eqb n 9 then "\t"
  else if Nat.eqb n 8 then "\b"
  else if Nat.eqb n 12 then "\f"
  else if (Nat.ltb n 32 || Nat.ltb 126 n)%bool then "\u" ++ hex4 n
  else String c EmptyString.

Fixpoint escape (s : string) : string :=
  match s with
  | EmptyString => EmptyString
  | String c r => escape_char c ++ escape r
  end.

Definition json_string (s : string) : string :=
  String dquote (escape s ++ String dquote EmptyString).

Fixpoint insert_item (f : string * string) (l : list (string * string)) : list (string * string) :=
  match l with
  | [] => [f]
  | g :: r => if String.ltb (fst g) (fst f) then g :: insert_item f r else f :: g :: r
  end.

(** [sort_keys=True]: the rendered members ordered by key. *)
Definition sort_items (l : list (string * string)) : list (string * string) :=
  fold_right insert_item [] l.

(** [json.dumps(v, sort_keys=True, separators=(",", ":"))] *)
Fixpoint dumps_canonical (v : json) : string :=
  match v with
  | JNull => "null"
  | JStr s => json_string s
  | JFloat d => float_repr d
  | JObj fields =>
      let items := (fix go (l : list (string * json)) : list (string * string) :=
                      match l with
                      | [] => []
                      | (k, w) :: r => (k, dumps_canonical w) :: go r
                      end) fields in
      "{" ++ join "," (map (fun it => json_string (fst it) ++ ":" ++ snd it) (sort_items items)) ++ "}"
  end.

Fixpoint indent (n : nat) : string :=
  match n with O => "" | S k => "  " ++ indent k end.

Definition newline : string := String nl EmptyString.

(** [json.dumps(v, indent=2)] at nesting depth [lvl]. *)
Fixpoint dumps_indent2 (lvl : nat) (v : json) : string :=
  match v with
  | JNull => "null"
  | JStr s => json_string s
  | JFloat d => float_repr d
  | JObj [] => "{}"
  | JObj fields =>
      let items := (fix go (l : list (string * json)) : list string :=
                      match l with
                      | [] => []
                      | (k, w) :: r => (json_string k ++ ": " ++ dumps_indent2 (S lvl) w) :: go r
                      end) fields in
      "{" ++ newline ++ indent (S lvl) ++ join ("," ++ newline ++ indent (S lvl)) items
        ++ newline ++ indent lvl ++ "}"
  end.

Definition opt_json (o : option string) : json :=
  match o with Some s => JStr s | None => JNull end.

(** [int(ts)] for the float [ts] (truncation toward zero). *)
Definition trunc (d : decimal) : Z :=
  let q := Q_of_decimal d in Z.quot (Qnum q) (Zpos (Qden q)).

(** The fixed artefact table of [write_manifest]. *)
Definition artefacts (fs : FS) (root : Path) : json :=
  JObj [("report_md", opt_json (sha256_file fs (root ++ ["report.md"])%list));
        ("audit_jsonl", opt_json (sha256_file fs (root ++ ["audit.jsonl"])%list));
        ("provenance_manifest", opt_json (sha256_file fs (root ++ ["provenance.manifest.json"])%list));
        ("charts_dir_hash",
           if exists_ fs (root ++ ["charts"])%list then JStr (sha256_dir fs (root ++ ["charts"])%list)
           else JNull);
        ("lineage_json", opt_json (sha256_file fs (root ++ ["lineage"; "lineage.json"])%list))].

Definition record_fields (ts : decimal) (arts : json) (prev_hash : option string)
  : list (string * json) :=
  [("ts", JFloat ts); ("artefacts", arts); ("prev_manifest_hash", opt_json prev_hash)].

Definition manifest_hash_of (fields : list (string * json)) : string :=
  SHA256.hexdigest (utf8_encode (dumps_canonical (JObj fields))).

Definition manifest_path (root : Path) (ts : decimal) : Path :=
  app root ["integrity.manifest." ++ str_of_Z (trunc ts) ++ ".json"].

(** The manifest object written to disk: [{**record, "manifest_hash": chain_hash}]. *)
Definition manifest_object (fs : FS) (root : Path) (ts : decimal) (prev_hash : option string)
  : list (string * json) :=
  let record := record_fields ts (artefacts fs root) prev_hash in
  (record ++ [("manifest_hash", JStr (manifest_hash_of record))])%list.

(** [write_manifest]: [ts] is the reading of [time.time()], [signer] the
    value of [SURVEYKIT_SIGN_CMD]; returns the written path, the new file
    system and the shell commands run by [os.system]. *)
Definition write_manifest (fs : FS) (root : Path) (prev_hash : option string) (ts : decimal)
  (signer : option string) : result (Path * FS * list string) :=
  let out := manifest_path root ts in
  fs' <- write_text fs out (utf8_encode (dumps_indent2 0 (JObj (manifest_object fs root ts prev_hash)))) ;;
  let cmds := match signer with
              | Some cmd => if String.eqb cmd "" then [] else [cmd ++ String " " (String dquote (join "/" out ++ String dquote EmptyString))]
              | None => []
              end in
  Ok (out, fs', cmds).

End Integrity.

(** * [cli.py]: chart specifications from the configuration *)

Module Cli.
Import ValidateCharts.

(** One entry of [cfg["charts"]["specs"]]: the keys [_chart_specs] reads,
    each [None] when the key is absent from the entry. *)
Record RawChartSpec : Type := {
  raw_id : option string;
  raw_kind : option string;
  raw_x : option string;
  raw_y : option string;
  raw_aggregation : option string;
  raw_filters : option (list (string * FilterValue));
  raw_title : option value;
  raw_description : option value }.

(** [raw[key]] *)
Definition required_key {A} (key : string) (o : option A) : result A :=
  match o with Some a => Ok a | None => Raise (KeyError key) end.

(** [raw.get(key, default)] *)
Definition get_or {A} (o : option A) (default : A) : A :=
  match o with Some a => a | None => default end.

(** [_chart_specs(cfg, data_signature)], on the list [specs_cfg]. *)
Definition chart_specs (specs_cfg : list RawChartSpec) (sig : option string)
  : result (list ChartSpec) :=
  mapM (fun raw =>
          ident <- required_key "id" (raw_id raw) ;;
          xcol <- required_key "x" (raw_x raw) ;;
          Ok {| identifier := ident;
                kind := get_or (raw_kind raw) "bar";
                x := xcol;
                y := raw_y raw;
                aggregation := raw_aggregation raw;
                filters := get_or (raw_filters raw) [];
                data_signature := sig;
                created_at := None;
                metadata := (match raw_title raw with Some t => [("title", t)] | None => [] end ++
                             match raw_description raw with
                             | Some d => [("description", d)]
                             | None => []
                             end)%list |})
       specs_cfg.

End Cli.

(** * Verification-side definitions *)

Module ManifestCheck.
Import Integrity.

Fixpoint field (k : string) (obj : list (string * json)) : option json :=
  match obj with
  | [] => None
  | (k', v) :: r => if String.eqb k k' then Some v else field k r
  end.

Definition remove_field (k : string) (obj : list (string * json)) : list (string * json) :=
  filter (fun f => negb (String.eqb (fst f) k)) obj.

(** The stored hash of a manifest object ([""] when absent). *)
Definition stored_hash (obj : list (string * json)) : string :=
  match field "manifest_hash" obj with Some (JStr h) => h | _ => "" end.

(** Chain verification (spec 4.4): the hash recomputed from the other
    fields equals the stored one. *)
Definition verify_manifest (obj : list (string * json)) : bool :=
  match field "manifest_hash" obj with
  | Some (JStr h) => String.eqb h (manifest_hash_of (remove_field "manifest_hash" obj))
  | _ => false
  end.

End ManifestCheck.

(** Rows of a frame, read by position. *)
Module FrameView.
Import ValidateCharts.

(** [df[col].iloc[i]] ([NaN] past the end or for an absent column). *)
Definition cell (df : DataFrame) (col : string) (i : nat) : value :=
  match find (fun c => String.eqb (cname c) col) df with
  | Some c => nth i (cells c) VNull
  | None => VNull
  end.

(** Whether row [i] of [df] satisfies one filter of a chart spec. *)
Definition passes (df : DataFrame) (i : nat) (flt : string * FilterValue) : bool :=
  let v := cell df (fst flt) i in
  match snd flt with
  | FScalar e => py_eq v e
  | FIterable vs => isin v vs
  end.

(** The rows of [df] satisfying every filter. *)
Definition kept_rows (df : DataFrame) (flts : list (string * FilterValue)) : list bool :=
  map (fun i => forallb (passes df i) flts) (seq 0 (nrows df)).

(** Every column of the frame has one cell per row. *)
Definition rectangular (df : DataFrame) : Prop :=
  forall c, In c df -> length (cells c) = nrows df.

End FrameView.

(** Views of single steps of [validate_dataframe], used to state and
    prove its properties piece by piece. *)
Module DataViews.
Import ValidateData.

(** The issues of a report that name column [nm]. *)
Definition about_column (nm : string) (i : ValidationIssue) : bool :=
  match column i with Some c => String.eqb c nm | None => false end.

(** The dtypes that pandas compares with a number as numbers. *)
Definition numeric_dtype (d : pdtype) : bool :=
  match d with DInt64 | DFloat64 | DBool => true | _ => false end.

(** A test on the numeric reading of a cell; non-numbers fail it. *)
Definition num_test (f : Q -> bool) (v : value) : bool :=
  match num_of v with Some q => f q | None => false end.

(** The five checks of a present column, in the order of the source: the
    null check, the dtype check, the allowed-value check and the two bound
    checks. *)
Definition null_part (s : Series) (cs : ColumnSchema) : list ValidationIssue :=
  if negb (nullable cs) && existsb is_null (cells s) then
    [issue "ERROR" (name cs) "Null values not permitted"
       [("null_count", CInt (length (filter is_null (cells s))))]]
  else [].

Definition dtype_part (s : Series) (cs : ColumnSchema) : result (list ValidationIssue) :=
  match series_has_dtype s (dtype cs) with
  | Ok true => Ok []
  | Ok false =>
      Ok [issue "ERROR" (name cs) "Unexpected dtype"
            [("observed", CStr (dtype_name (cdtype s))); ("expected", CStr (dtype cs))]]
  | Raise (ValueError msg) => Ok [issue "ERROR" (name cs) msg []]
  | Raise e => Raise e
  end.

Definition allowed_part (s : Series) (cs : ColumnSchema) : result (list ValidationIssue) :=
  match allowed_values cs with
  | None => Ok []
  | Some av =>
      invalid_values <-
        py_sorted (filter (fun v => negb (existsb (py_eq v) av)) (unique (dropna (cells s)))) ;;
      Ok (match invalid_values with
          | [] => []
          | _ => [issue "ERROR" (name cs) "Values outside allowed set"
                    [("invalid_values", CVals invalid_values)]]
          end)
  end.

Definition min_part (s : Series) (cs : ColumnSchema) : result (list ValidationIssue) :=
  match minimum cs with
  | None => Ok []
  | Some m =>
      below <- compare_bound true s m ;;
      Ok (if existsb (fun b => b) below then
            [issue "ERROR" (name cs) "Values below minimum" [("minimum", CVal m); ("count", CInt (count_true below))]]
          else [])
  end.

Definition max_part (s : Series) (cs : ColumnSchema) : result (list ValidationIssue) :=
  match maximum cs with
  | None => Ok []
  | Some m =>
      above <- compare_bound false s m ;;
      Ok (if existsb (fun b => b) above then
            [issue "ERROR" (name cs) "Values above maximum" [("maximum", CVal m); ("count", CInt (count_true above))]]
          else [])
  end.

End DataViews.

(** Views of the filter pipeline and of the line-chart check. *)
Module ChartViews.
Import ValidateCharts FrameView.

(** Elementwise [&] of two boolean masks. *)
Definition zip_and (m1 m2 : list bool) : list bool := map (fun p => fst p && snd p) (combine m1 m2).

(** The mask one filter computes on a column cell: [==] for a scalar,
    [isin] for an iterable. *)
Definition filter_test (flt : string * FilterValue) (v : value) : bool :=
  match snd flt with FScalar e => py_eq v e | FIterable vs => isin v vs end.

(** The rows of [df] that pass every filter of [P]. *)
Definition mask_of (df : DataFrame) (P : list (string * FilterValue)) : list bool :=
  map (fun i => forallb (passes df i) P) (seq 0 (nrows df)).

(** Whether some row kept by the filters has [v] as its x cell. *)
Definition matched_row (df : DataFrame) (flts : list (string * FilterValue)) (xs : Series) (v : value) : bool :=
  existsb (fun i => nth i (kept_rows df flts) false && values_equal v (nth i (cells xs) VNull))
    (seq 0 (nrows df)).

End ChartViews.

(** Views of the directory listing hashed by [sha256_dir]. *)
Module TreeViews.
Import Integrity.

Definition entry_lt (e f : Path * node) : Prop := path_ltb (fst e) (fst f) = true.

(** The entries under [d], with their paths relative to [d]. *)
Definition stripped (fs : FS) (d : Path) : list (Path * node) :=
  flat_map (fun e => match strip_prefix d (fst e) with Some rel => [(rel, snd e)] | None => [] end) fs.

Definition is_file (e : Path * node) : bool := match snd e with NFile _ => true | NDir => false end.


End TreeViews.

(** * Concrete inputs *)

Module Inputs.
Import Integrity.

(** Two one-file trees under [/d]: [ab] holding [c], and [a] holding [bc]. *)
Definition tree_ab : FS := [(["d"], NDir); (["d"; "ab"], NFile (utf8_encode "c"))].
Definition tree_a_bc : FS := [(["d"], NDir); (["d"; "a"], NFile (utf8_encode "bc"))].

Definition ts_1000_25 : decimal := {| dmant := 100025; dexp := -2 |}.
Definition ts_1001 : decimal := {| dmant := 1001; dexp := 0 |}.

(** A file system holding the output root [/r] only. *)
Definition root_fs : FS := [(["r"], NDir)].

End Inputs.

(** Chart inputs: the worked example of the specification (mean
    satisfaction per segment) and variations of it. *)
Module ChartInputs.
Import ValidateCharts.

Definition sdf : DataFrame :=
  [ {| cname := "segment"; cdtype := DObject; cells := [VStr "A"; VStr "A"; VStr "B"] |};
    {| cname := "satisfaction"; cdtype := DInt64; cells := [VInt 4; VInt 5; VInt 3] |} ].

Definition agg_chart : DataFrame :=
  [ {| cname := "segment"; cdtype := DObject; cells := [VStr "A"; VStr "B"] |};
    {| cname := "satisfaction"; cdtype := DFloat64;
       cells := [VFloat {| dmant := 45; dexp := -1 |}; VFloat {| dmant := 3; dexp := 0 |}] |} ].

Definition bar_spec (sig : option string) : ChartSpec :=
  {| identifier := "satisfaction_by_segment"; kind := "bar"; x := "segment";
     y := Some "satisfaction"; aggregation := Some "mean"; filters := [];
     data_signature := sig; created_at := None; metadata := [] |}.

Definition charts_ok : list (string * DataFrame) := [("satisfaction_by_segment", agg_chart)].

(** A bar chart over a column the dataset does not have, without filters. *)
Definition region_spec : ChartSpec :=
  {| identifier := "by_region"; kind := "bar"; x := "region";
     y := Some "satisfaction"; aggregation := Some "mean"; filters := [];
     data_signature := None; created_at := None; metadata := [] |}.

Definition region_charts : list (string * DataFrame) := [("by_region", agg_chart)].

(** A chart filtered on a column the dataset does not have. *)
Definition filtered_spec : ChartSpec :=
  {| identifier := "satisfaction_by_segment"; kind := "bar"; x := "segment";
     y := Some "satisfaction"; aggregation := Some "mean";
     filters := [("region", FScalar (VStr "north"))];
     data_signature := None; created_at := None; metadata := [] |}.






(** [_hash_dataframe(sdf)], as [hashlib] computes it for the CSV text
    [segment,satisfaction\nA,4\nA,5\nB,3\n]. *)
Definition sdf_signature : string :=
  "46dc3ca6c8ea52485c12c29857053fbbc81e399ce337b7aa3b5fd6a42c6a532a".

End ChartInputs.

(** The reading of the bar-chart check in the specification: the
    recomputed aggregation and the materialized chart, each as its x
    categories sorted by x with their aggregated values, and agreement of
    the values within an absolute tolerance. *)
Module BarCheck.
Import ValidateCharts.










End BarCheck.

(** Validation inputs: the range example of the specification, the same
    column holding text, and the missing-column example. *)
Module DataInputs.
Import ValidateData.

Definition age_schema : SchemaDefinition :=
  {| columns := [{| name := "age"; dtype := "number"; required := true; nullable := true;
                    allowed_values := None; minimum := Some (VInt 18); maximum := None;
                    notes := None |}];
     version := None; description := None |}.

Definition age_df : DataFrame :=
  [ {| cname := "age"; cdtype := DInt64; cells := [VInt 30; VInt 15] |} ].

(** An [age] column read as text ([object] dtype). *)
Definition text_age_df : DataFrame :=
  [ {| cname := "age"; cdtype := DObject; cells := [VStr "abc"] |} ].

Definition id_schema : SchemaDefinition :=
  {| columns := [{| name := "id"; dtype := "integer"; required := true; nullable := true;
                    allowed_values := None; minimum := None; maximum := None; notes := None |}];
     version := None; description := None |}.

Definition x_df : DataFrame :=
  [ {| cname := "x"; cdtype := DInt64; cells := [VInt 1] |} ].

(** An [int64] column [code] holding a value outside its allowed set. *)
Definition code_schema : SchemaDefinition :=
  {| columns := [{| name := "code"; dtype := "integer"; required := true; nullable := true;
                    allowed_values := Some [VInt 1; VInt 2]; minimum := None; maximum := None;
                    notes := None |}];
     version := None; description := None |}.

Definition code_df : DataFrame :=
  [ {| cname := "code"; cdtype := DInt64; cells := [VInt 1; VInt 3] |} ].

Definition t_report : string := "2024-01-01T00:00:00".
Definition t_log : string := "2024-01-01T00:00:01".

End DataInputs.

(** Reading back what [to_csv] and [encode("utf-8")] write: a UTF-8
    decoder for code points below 256 and a reader of [QUOTE_MINIMAL] CSV
    records, used to show which datasets share a hashed byte string. *)
Module CsvRead.

Definition decode_pair (b1 b2 : Byte.byte) : ascii :=
  ascii_of_nat (Z.to_nat (Z.lor (Z.shiftl (Z.land (Z_of_byte b1) 31) 6) (Z.land (Z_of_byte b2) 63))).

Fixpoint utf8_decode (bs : list Byte.byte) : string :=
  match bs with
  | [] => EmptyString
  | b :: r =>
      if Z_of_byte b <? 128 then String (ascii_of_nat (Z.to_nat (Z_of_byte b))) (utf8_decode r)
      else match r with
           | b2 :: r' => String (decode_pair b b2) (utf8_decode r')
           | [] => EmptyString
           end
  end.

(** [utf8_decode] reads back the encoding of character [c]. *)
Definition char_ok (c : ascii) : bool :=
  match utf8_char c with
  | [b] => (Z_of_byte b <? 128) && Ascii.eqb (ascii_of_nat (Z.to_nat (Z_of_byte b))) c
  | [b1; b2] => negb (Z_of_byte b1 <? 128) && Ascii.eqb (decode_pair b1 b2) c
  | _ => false
  end.

(** The content of a quoted field, after its opening quote. *)
Fixpoint parse_quoted (s : string) : option (string * string) :=
  match s with
  | EmptyString => None
  | String c r =>
      if Ascii.eqb c dquote then
        match r with
        | String c' r' =>
            if Ascii.eqb c' dquote then
              match parse_quoted r' with
              | Some (t, rest) => Some (String dquote t, rest)
              | None => None
              end
            else Some (EmptyString, r)
        | EmptyString => Some (EmptyString, EmptyString)
        end
      else match parse_quoted r with
           | Some (t, rest) => Some (String c t, rest)
           | None => None
           end
  end.

(** An unquoted field: everything up to the next comma or newline. *)
Fixpoint parse_plain (s : string) : string * string :=
  match s with
  | EmptyString => (EmptyString, EmptyString)
  | String c r =>
      if Ascii.eqb c comma || Ascii.eqb c nl then (EmptyString, s)
      else let '(t, rest) := parse_plain r in (String c t, rest)
  end.

Definition parse_field (s : string) : option (string * string) :=
  match s with
  | String c r => if Ascii.eqb c dquote then parse_quoted r else Some (parse_plain s)
  | EmptyString => Some (parse_plain s)
  end.

Fixpoint parse_fields (fuel : nat) (s : string) : option (list string * string) :=
  match fuel with
  | O => None
  | S f =>
      match parse_field s with
      | Some (t, String c r) =>
          if Ascii.eqb c comma then
            match parse_fields f r with
            | Some (ts, rest) => Some (t :: ts, rest)
            | None => None
            end
          else if Ascii.eqb c nl then Some ([t], r)
          else None
      | _ => None
      end
  end.

Definition parse_record (s : string) : option (list string * string) :=
  match s with
  | String c r => if Ascii.eqb c nl then Some ([], r) else parse_fields (String.length s) s
  | EmptyString => None
  end.

Fixpoint parse_records (fuel : nat) (s : string) : option (list (list string)) :=
  match s with
  | EmptyString => Some []
  | _ =>
      match fuel with
      | O => None
      | S f =>
          match parse_record s with
          | Some (ts, rest) =>
              match parse_records f rest with
              | Some rs => Some (ts :: rs)
              | None => None
              end
          | None => None
          end
      end
  end.

End CsvRead.

(** Two frames whose [a] columns differ in one cell: the number [1] and
    the string ["1"]. *)
Module SignatureInputs.

Definition df_int : DataFrame :=
  [ {| cname := "a"; cdtype := DObject; cells := [VStr "x"; VInt 1] |} ].

Definition df_text : DataFrame :=
  [ {| cname := "a"; cdtype := DObject; cells := [VStr "x"; VStr "1"] |} ].

End SignatureInputs.

(** Inputs for the further properties of the data validation. *)
Module DataExtraInputs.
Import ValidateData DataInputs.

(** The value of a computation that returns, [d] if it raises. *)
Definition ok_or {A} (d : A) (r : result A) : A :=
  match r with Ok a => a | Raise _ => d end.

Definition id_col : ColumnSchema :=
  {| name := "id"; dtype := "integer"; required := true; nullable := true;
     allowed_values := None; minimum := None; maximum := None; notes := None |}.

(** The report for [x_df] against [id_schema]. *)
Definition missing_report : ValidationReport :=
  {| issues := [issue "ERROR" "id" "Missing required column" [];
                issue "WARN" "x" "Unexpected column present" []];
     data_signature := hash_dataframe x_df; schema_version := None; validated_at := t_report |}.

Definition score_series : Series :=
  {| cname := "score"; cdtype := DInt64; cells := [VInt 3; VNull; VInt 12] |}.

Definition score_df : DataFrame :=
  [ score_series; {| cname := "note"; cdtype := DObject; cells := [VStr "a"; VStr "b"; VStr "c"] |} ].

Definition decimal_col : ColumnSchema :=
  {| name := "score"; dtype := "Decimal"; required := true; nullable := true;
     allowed_values := None; minimum := None; maximum := None; notes := None |}.

Definition strict_col : ColumnSchema :=
  {| name := "score"; dtype := "integer"; required := true; nullable := false;
     allowed_values := Some [VInt 3; VInt 5]; minimum := Some (VInt 5); maximum := Some (VInt 10);
     notes := None |}.

Definition id_series : Series := {| cname := "id"; cdtype := DInt64; cells := [VInt 1] |}.
Definition note_series : Series := {| cname := "note"; cdtype := DObject; cells := [VStr "a"] |}.

Definition id_report : ValidationReport :=
  {| issues := []; data_signature := hash_dataframe [id_series]; schema_version := None;
     validated_at := t_report |}.

Definition empty_schema : SchemaDefinition := {| columns := []; version := None; description := None |}.

Definition empty_report : ValidationReport :=
  {| issues := []; data_signature := ""; schema_version := None; validated_at := "" |}.

End DataExtraInputs.

(** Inputs for the further properties of the chart checks. *)
Module ChartExtraInputs.
Import ValidateCharts.

Definition region_series : Series :=
  {| cname := "region"; cdtype := DObject; cells := [VStr "N"; VStr "S"; VStr "N"] |}.

Definition flt_df : DataFrame :=
  [ region_series; {| cname := "score"; cdtype := DInt64; cells := [VInt 1; VInt 2; VInt 3] |} ].

Definition flts : list (string * FilterValue) :=
  [("region", FScalar (VStr "N")); ("score", FIterable [VInt 1; VInt 2])].

Definition chart_region : Series :=
  {| cname := "region"; cdtype := DObject; cells := [VStr "N"; VStr "E"] |}.

Definition line_chart : DataFrame := [chart_region].

Definition line_spec : ChartSpec :=
  {| identifier := "trend"; kind := "line"; x := "region"; y := Some "score"; aggregation := None;
     filters := [("score", FIterable [VInt 1; VInt 3])];
     data_signature := None; created_at := None; metadata := [] |}.

Definition pie_spec : ChartSpec :=
  {| identifier := "share"; kind := "pie"; x := "region"; y := None; aggregation := None;
     filters := []; data_signature := None; created_at := None; metadata := [] |}.

Definition median_spec : ChartSpec :=
  {| identifier := "median_score"; kind := "bar"; x := "region"; y := Some "score";
     aggregation := Some "median"; filters := [];
     data_signature := None; created_at := None; metadata := [] |}.

Definition missing_chart_report : ChartValidationReport :=
  {| report_issues := [chart_issue line_spec "ERROR" "Chart output missing." []];
     report_data_signature := hash_dataframe flt_df |}.

Definition raw_c1 : Cli.RawChartSpec :=
  {| Cli.raw_id := Some "c1"; Cli.raw_kind := Some "line"; Cli.raw_x := Some "region";
     Cli.raw_y := None; Cli.raw_aggregation := None; Cli.raw_filters := None;
     Cli.raw_title := None; Cli.raw_description := None |}.

Definition empty_chart_report : ChartValidationReport :=
  {| report_issues := []; report_data_signature := "" |}.

(** The validation report of [flt_df] against a schema without columns. *)
Definition flt_report : ValidateData.ValidationReport :=
  DataExtraInputs.ok_or DataExtraInputs.empty_report
    (fst (ValidateData.validate_dataframe flt_df DataExtraInputs.empty_schema None false
            DataInputs.t_report DataInputs.t_log [])).

Definition c1_specs : list ChartSpec :=
  DataExtraInputs.ok_or [] (Cli.chart_specs [raw_c1] (Some (ValidateData.data_signature flt_report))).

End ChartExtraInputs.

(** Inputs for the further properties of the integrity tools. *)
Module TreeExtraInputs.
Import Integrity.

(** An output directory with a report and one chart file. *)
Definition out_fs : FS :=
  [ (["out"], NDir); (["out"; "report.md"], NFile (utf8_encode "# r"));
    (["out"; "charts"], NDir); (["out"; "charts"; "a.csv"], NFile (utf8_encode "x")) ].

(** Another listing with the same file under [out/charts]. *)
Definition listed_fs : FS :=
  [ (["out"; "charts"; "a.csv"], NFile (utf8_encode "x")); (["out"; "notes"], NFile (utf8_encode "n")) ].

Definition ts_out : decimal := {| dmant := 1700000000; dexp := 0 |}.

End TreeExtraInputs.

(** * Properties *)

(** ** Reference values of the SHA-256 implementation *)

Example sha256_empty :
  SHA256.hexdigest [] =
  "e3b0c44298fc1c149afbf4c8996fb92427ae41e4649b934ca495991b7852b855".
Proof. vm_compute. reflexivity. Qed.

Example sha256_abc :
  SHA256.hexdigest (utf8_encode "abc") =
  "ba7816bf8f01cfea414140de5dae2223b00361a396177a9cb410ff61f20015ad".
Proof. vm_compute. reflexivity. Qed.

(** ** Length of a digest *)

Module ShaFacts.
Import SHA256.

Lemma length_append : forall a b, String.length (a ++ b) = (String.length a + String.length b)%nat.
Proof. induction a as [|c a IH]; intro b; cbn [append String.length]; [reflexivity | rewrite IH; reflexivity]. Qed.

Lemma round_length : forall st kw, length (round st kw) = length st.
Proof.
  intros st kw. unfold round.
  destruct st as [|a [|b [|c [|d [|e [|f [|g [|h [|i r]]]]]]]]]; reflexivity.
Qed.

Lemma fold_round_length : forall kws st, length (fold_left round kws st) = length st.
Proof.
  induction kws as [|kw kws IH]; intro st; cbn [fold_left]; [reflexivity|].
  rewrite IH. apply round_length.
Qed.

Lemma compress_length : forall st b, length (compress st b) = length st.
Proof.
  intros st b. unfold compress. rewrite length_map, length_combine, fold_round_length. lia.
Qed.

Lemma fold_compress_length : forall bs st, length (fold_left compress bs st) = length st.
Proof.
  induction bs as [|b bs IH]; intro st; cbn [fold_left]; [reflexivity|].
  rewrite IH. apply compress_length.
Qed.

Lemma digest_words_length : forall msg, length (digest_words msg) = 8%nat.
Proof. intro msg. unfold digest_words. rewrite fold_compress_length. reflexivity. Qed.

Lemma hexdigest_nonempty : forall msg, hexdigest msg <> "".
Proof.
  intro msg. unfold hexdigest.
  pose proof (digest_words_length (map Z_of_byte msg)) as H.
  destruct (digest_words (map Z_of_byte msg)) as [|w ws]; [discriminate|].
  cbn [flat_map be_bytes]. rewrite <- !app_assoc. cbn [app map concat_str hex_byte append].
  discriminate.
Qed.

End ShaFacts.


(** ** Integrity manifests *)

Module IntegrityProofs.
Import Integrity ManifestCheck Inputs.

Lemma path_eqb_eq : forall p q, path_eqb p q = true <-> p = q.
Proof.
  induction p as [|a p IH]; destruct q as [|b q]; simpl; split; intro H;
    try discriminate; try reflexivity.
  - apply andb_prop in H as [H1 H2]. apply String.eqb_eq in H1. apply IH in H2. subst. reflexivity.
  - injection H as -> ->. rewrite String.eqb_refl. simpl. apply IH. reflexivity.
Qed.

Lemma path_eqb_refl : forall p, path_eqb p p = true.
Proof. intro p. apply path_eqb_eq. reflexivity. Qed.

Lemma lookup_write_same : forall fs p b, lookup (put_file fs p b) p = Some (NFile b).
Proof.
  induction fs as [|[q n] fs IH]; intros p b; simpl.
  - rewrite path_eqb_refl. reflexivity.
  - destruct (path_eqb p q) eqn:E; simpl.
    + rewrite E. reflexivity.
    + rewrite E. apply IH.
Qed.

Lemma write_text_ok : forall fs p b fs', write_text fs p b = Ok fs' -> fs' = put_file fs p b.
Proof.
  intros fs p b fs' H. unfold write_text in H.
  destruct (check_dirs fs [] (removelast p) (join "/" p)); cbn [bind] in H; [|discriminate].
  destruct (lookup fs p) as [[c|]|]; [injection H as <-; reflexivity | discriminate | injection H as <-; reflexivity].
Qed.

Lemma write_manifest_ok : forall fs root prev ts signer out fs' cmds,
  write_manifest fs root prev ts signer = Ok (out, fs', cmds) ->
  out = manifest_path root ts /\
  fs' = put_file fs out (utf8_encode (dumps_indent2 0 (JObj (manifest_object fs root ts prev)))).
Proof.
  intros fs root prev ts signer out fs' cmds H. unfold write_manifest in H.
  destruct (write_text _ _ _) as [f|e] eqn:E; cbn [bind] in H; [|discriminate].
  injection H as <- <- _. apply write_text_ok in E. split; [reflexivity | exact E].
Qed.

(** C10: [sha256_dir] feeds each file's relative path and then its bytes
    into one running hash, with nothing between them; the trees
    [{ab: "c"}] and [{a: "bc"}] feed the same bytes and get the same digest. *)
Theorem sha256_dir_path_content_collision :
  (forall fs d, sha256_dir fs d =
     SHA256.hexdigest
       (flat_map (fun e => match snd e with
                           | NFile b => (utf8_encode (join "/" (fst e)) ++ b)%list
                           | NDir => []
                           end) (rglob_sorted fs d))) /\
  tree_ab <> tree_a_bc /\
  dir_stream tree_ab ["d"] = utf8_encode "abc" /\
  dir_stream tree_a_bc ["d"] = utf8_encode "abc" /\
  sha256_dir tree_ab ["d"] = sha256_dir tree_a_bc ["d"].
Proof.
  split; [reflexivity|].
  split; [unfold tree_ab, tree_a_bc; intro H; inversion H|].
  split; [vm_compute; reflexivity|].
  split; [vm_compute; reflexivity|].
  unfold sha256_dir. f_equal; vm_compute; reflexivity.
Qed.

(** C4: the manifest written by [write_manifest] is the record
    [{ts, artefacts, prev_manifest_hash}] plus [manifest_hash], the SHA-256
    of the record's [sort_keys], compact [json.dumps]; the stored hash is
    recomputable from the other fields, and a second manifest written with
    the first one's hash as [prev_hash] stores exactly that hash. *)
Theorem write_manifest_hash_and_chain :
  (forall fs root prev ts signer out fs' cmds,
     write_manifest fs root prev ts signer = Ok (out, fs', cmds) ->
     let obj := manifest_object fs root ts prev in
     lookup fs' out = Some (NFile (utf8_encode (dumps_indent2 0 (JObj obj)))) /\
     remove_field "manifest_hash" obj = record_fields ts (artefacts fs root) prev /\
     field "manifest_hash" obj =
       Some (JStr (SHA256.hexdigest (utf8_encode
               (dumps_canonical (JObj (record_fields ts (artefacts fs root) prev)))))) /\
     field "prev_manifest_hash" obj = Some (opt_json prev) /\
     verify_manifest obj = true) /\
  (forall fs root ts1 ts2 signer1 signer2 out1 fs1 cmds1 out2 fs2 cmds2,
     write_manifest fs root None ts1 signer1 = Ok (out1, fs1, cmds1) ->
     let obj1 := manifest_object fs root ts1 None in
     write_manifest fs1 root (Some (stored_hash obj1)) ts2 signer2 = Ok (out2, fs2, cmds2) ->
     let obj2 := manifest_object fs1 root ts2 (Some (stored_hash obj1)) in
     lookup fs2 out2 = Some (NFile (utf8_encode (dumps_indent2 0 (JObj obj2)))) /\
     field "prev_manifest_hash" obj1 = Some JNull /\
     field "prev_manifest_hash" obj2 = Some (JStr (stored_hash obj1)) /\
     verify_manifest obj1 = true /\ verify_manifest obj2 = true).
Proof.
  assert (Hv : forall fs root ts prev, verify_manifest (manifest_object fs root ts prev) = true).
  { intros. unfold verify_manifest, manifest_object. simpl. apply String.eqb_refl. }
  split.
  - intros fs root prev ts signer out fs' cmds H. apply write_manifest_ok in H as [_ ->].
    cbv zeta. repeat split; try apply Hv.
    apply lookup_write_same.
  - intros fs root ts1 ts2 signer1 signer2 out1 fs1 cmds1 out2 fs2 cmds2 _ obj1 H2.
    apply write_manifest_ok in H2 as [_ ->].
    cbv zeta. repeat split; try apply Hv.
    apply lookup_write_same.
Qed.

Lemma write_manifest_hash_and_chain_witness :
  verify_manifest (manifest_object root_fs ["r"] ts_1000_25 None) = true /\
  field "prev_manifest_hash" (manifest_object root_fs ["r"] ts_1000_25 None) = Some JNull.
Proof.
  destruct (write_manifest root_fs ["r"] None ts_1000_25 None) as [[[out1 fs1] cmds1]|e] eqn:E1;
    [|vm_compute in E1; discriminate].
  pose proof E1 as E1'. vm_compute in E1'. injection E1' as _ <- _.
  destruct (write_manifest (put_file root_fs ["r"; "integrity.manifest.1000.json"]
              (utf8_encode (dumps_indent2 0 (JObj (manifest_object root_fs ["r"] ts_1000_25 None)))))
              ["r"] (Some (stored_hash (manifest_object root_fs ["r"] ts_1000_25 None))) ts_1001 None)
    as [[[out2 fs2] cmds2]|e] eqn:E2; [|vm_compute in E2; discriminate].
  destruct (proj2 write_manifest_hash_and_chain root_fs ["r"] ts_1000_25 ts_1001 None None
              out1 _ cmds1 out2 fs2 cmds2 E1 E2) as (_ & H1 & _ & H2 & _).
  split; assumption.
Defined.

End IntegrityProofs.

(** ** Decimal rendering of integers *)

Module DecimalText.










End DecimalText.

(** ** Manifest file names *)

Module ManifestPaths.
Import Integrity Inputs TreeViews.

Lemma lookup_write_other : forall fs p q b, p <> q -> lookup (put_file fs q b) p = lookup fs p.
Proof.
  induction fs as [|[r n] fs IH]; intros p q b Hne; cbn [put_file lookup].
  - destruct (path_eqb p q) eqn:E; [|reflexivity].
    apply IntegrityProofs.path_eqb_eq in E. congruence.
  - destruct (path_eqb q r) eqn:E1; cbn [lookup].
    + apply IntegrityProofs.path_eqb_eq in E1. subst r.
      destruct (path_eqb p q) eqn:E2; [|reflexivity].
      apply IntegrityProofs.path_eqb_eq in E2. congruence.
    + destruct (path_eqb p r); [reflexivity | apply IH; exact Hne].
Qed.

Lemma append_cancel_l : forall s a b, (s ++ a = s ++ b)%string -> a = b.
Proof.
  induction s as [|c s IH]; intros a b H; [exact H|].
  injection H as H. apply IH, H.
Qed.








End ManifestPaths.

(** ** Chart validation *)

Module ChartFacts.
Import ValidateCharts.

Definition stale_msg : string := "Chart is stale relative to the dataset signature.".

Lemma bind_ok : forall {A B} (m : result A) (k : A -> result B) b,
  bind m k = Ok b -> exists a, m = Ok a /\ k a = Ok b.
Proof. intros A B m k b H. destruct m as [a|e]; [exists a; split; [reflexivity | exact H] | discriminate H]. Qed.

Ltac inv_binds :=
  repeat match goal with
  | H : bind ?m _ = Ok _ |- _ =>
      let a := fresh "a" in let Hm := fresh "Hm" in
      apply bind_ok in H; destruct H as [a [Hm H]]
  end.

Lemma compare_values_msg : forall spec tol e_f c_f e c i,
  compare_values spec tol e_f c_f e c = Ok (Some i) -> issue_message i <> stale_msg.
Proof.
  intros spec tol e_f c_f e c i H. unfold compare_values in H.
  destruct (list_equals _ _ _); [discriminate|]. inv_binds.
  destruct (existsb _ _); [|discriminate]. injection H as <-. discriminate.
Qed.

Lemma verify_chart_msg : forall df spec cd tol i,
  verify_chart df spec cd tol = Ok (Some i) -> issue_message i <> stale_msg.
Proof.
  intros df spec cd tol i H. unfold verify_chart in H. inv_binds.
  destruct (String.eqb (kind spec) "bar").
  - destruct (y spec) as [ycol|], (aggregation spec) as [agg|];
      try (injection H as <-; discriminate).
    unfold verify_bar in H. inv_binds.
    destruct (agg_function agg) as [f|]; [|injection H as <-; discriminate].
    inv_binds.
    destruct (negb _); [injection H as <-; discriminate|].
    inv_binds. eapply compare_values_msg, H.
  - destruct (String.eqb (kind spec) "line"); [|injection H as <-; discriminate].
    inv_binds. destruct (filter _ _); [discriminate|]. injection H as <-. discriminate.
Qed.

(** Every issue of [spec_issues] comes from one spec: the missing-output
    error, the per-chart result, or the staleness issue of a spec whose
    chart output is present. *)
Lemma spec_issues_in : forall df sig charts tol specs issues,
  spec_issues df sig charts tol specs = Ok issues ->
  forall i, In i issues -> exists spec, In spec specs /\
    ((lookup_chart charts (identifier spec) = None /\
      i = chart_issue spec "ERROR" "Chart output missing." []) \/
     (exists cd o, lookup_chart charts (identifier spec) = Some cd /\
        verify_chart df spec cd tol = Ok o /\ (o = Some i \/ In i (stale_issues spec sig)))).
Proof.
  intros df sig charts tol specs. induction specs as [|spec r IH]; intros issues H i Hi.
  - injection H as <-. destruct Hi.
  - cbn [spec_issues] in H. inv_binds. injection H as <-.
    apply in_app_or in Hi as [Hi|Hi].
    + exists spec. split; [left; reflexivity|].
      destruct (lookup_chart charts (identifier spec)) as [cd|] eqn:E.
      * inv_binds. injection Hm as <-. right. exists cd, a1. split; [reflexivity|]. split; [eassumption|].
        apply in_app_or in Hi as [Hi|Hi]; [left | right; exact Hi].
        destruct a1; [destruct Hi as [<-|[]]; reflexivity | destruct Hi].
      * injection Hm as <-. left. split; [reflexivity|]. destruct Hi as [<-|[]]. reflexivity.
    + edestruct IH as [sp [Hin Hsp]]; [eassumption | exact Hi |]. exists sp. split; [right; exact Hin | exact Hsp].
Qed.

(** The staleness issues of every spec whose chart output is present are
    in the result of [spec_issues], whatever the per-chart check returned. *)
Lemma spec_issues_stale : forall df sig charts tol specs issues,
  spec_issues df sig charts tol specs = Ok issues ->
  forall spec, In spec specs -> lookup_chart charts (identifier spec) <> None ->
  forall i, In i (stale_issues spec sig) -> In i issues.
Proof.
  intros df sig charts tol specs. induction specs as [|sp r IH]; intros issues H spec Hin Hl i Hi.
  - destruct Hin.
  - cbn [spec_issues] in H. inv_binds. injection H as <-.
    destruct Hin as [->|Hin].
    + apply in_or_app. left.
      destruct (lookup_chart charts (identifier spec)) as [cd|]; [|congruence].
      inv_binds. injection Hm as <-. apply in_or_app. right. exact Hi.
    + apply in_or_app. right. eapply IH; eauto.
Qed.

End ChartFacts.

Module ChartClaims.
Import ValidateCharts ChartFacts ChartInputs.

Lemma sdf_signature_eq : hash_dataframe sdf = sdf_signature.
Proof. vm_compute. reflexivity. Qed.

(** C9: a spec whose captured signature is the empty string never gets a
    staleness issue: every staleness issue of a returned report comes from a
    spec whose captured signature is a non-empty string different from the
    report's signature, which is itself never empty. *)
Theorem validate_charts_empty_signature_not_stale :
  forall df specs charts tol r, validate_charts df specs charts tol = Ok r ->
  report_data_signature r <> "" /\
  (forall spec, data_signature spec = Some "" -> stale_issues spec (report_data_signature r) = []) /\
  (forall i, In i (report_issues r) -> issue_message i = stale_msg ->
     exists spec s, In spec specs /\ data_signature spec = Some s /\ s <> "" /\
       s <> report_data_signature r /\
       i = chart_issue spec "ERROR" stale_msg
             [("chart_signature", CStr s); ("data_signature", CStr (report_data_signature r))]).
Proof.
  intros df specs charts tol r H. unfold validate_charts in H. inv_binds. injection H as <-.
  cbn [report_data_signature report_issues].
  split; [apply ShaFacts.hexdigest_nonempty|]. split.
  - intros spec Hs. unfold stale_issues. rewrite Hs. reflexivity.
  - intros i Hi Hmsg. destruct (spec_issues_in _ _ _ _ _ _ Hm _ Hi) as [spec [Hin Hsp]].
    destruct Hsp as [[_ ->]|[cd [o [_ [Hv [->|Hst]]]]]].
    + discriminate Hmsg.
    + exfalso. exact (verify_chart_msg _ _ _ _ _ Hv Hmsg).
    + unfold stale_issues in Hst. destruct (data_signature spec) as [s|] eqn:Hs; [|destruct Hst].
      destruct (negb (String.eqb s "") && negb (String.eqb s (hash_dataframe df)))%bool eqn:Hc;
        [|destruct Hst].
      apply andb_prop in Hc as [H1 H2]. apply negb_true_iff, String.eqb_neq in H1, H2.
      destruct Hst as [<-|[]]. exists spec, s. repeat split; assumption.
Qed.

Lemma validate_charts_empty_signature_not_stale_witness :
  validate_charts sdf [bar_spec (Some "")] charts_ok default_tolerance =
    Ok {| report_issues := []; report_data_signature := sdf_signature |} /\
  stale_issues (bar_spec (Some "")) sdf_signature = [].
Proof.
  assert (H : validate_charts sdf [bar_spec (Some "")] charts_ok default_tolerance =
    Ok {| report_issues := []; report_data_signature := sdf_signature |}) by (vm_compute; reflexivity).
  split; [exact H|].
  exact (proj1 (proj2 (validate_charts_empty_signature_not_stale _ _ _ _ _ H)) (bar_spec (Some "")) eq_refl).
Defined.

(** C2 (counterexample): a spec whose captured signature ["old"] differs from
    the dataset's, but whose chart output is missing, gets only the
    missing-output error and no staleness issue. *)
Lemma validate_charts_missing_output_not_stale :
  validate_charts sdf [bar_spec (Some "old")] [] default_tolerance =
    Ok {| report_issues := [chart_issue (bar_spec (Some "old")) "ERROR" "Chart output missing." []];
          report_data_signature := sdf_signature |} /\
  "old" <> sdf_signature.
Proof. split; [vm_compute; reflexivity | discriminate]. Qed.

(** C2 (amended): for every spec whose chart output is present and whose
    captured signature is a non-empty string different from the dataset
    signature, a returned report holds the staleness ERROR for that chart
    with both signatures in its context, whatever the per-chart check found;
    a spec whose chart output is missing only gets the missing-output error. *)
Theorem validate_charts_stale_when_output_present :
  (forall df specs charts tol r, validate_charts df specs charts tol = Ok r ->
   forall spec s, In spec specs -> lookup_chart charts (identifier spec) <> None ->
   data_signature spec = Some s -> s <> "" -> s <> report_data_signature r ->
   In (chart_issue spec "ERROR" stale_msg
         [("chart_signature", CStr s); ("data_signature", CStr (report_data_signature r))])
      (report_issues r)) /\
  (forall df spec charts tol, lookup_chart charts (identifier spec) = None ->
   validate_charts df [spec] charts tol =
     Ok {| report_issues := [chart_issue spec "ERROR" "Chart output missing." []];
           report_data_signature := hash_dataframe df |}).
Proof.
  split.
  - intros df specs charts tol r H spec s Hin Hl Hs Hne Hdiff.
    unfold validate_charts in H. inv_binds. injection H as <-.
    cbn [report_data_signature report_issues] in *.
    apply (spec_issues_stale _ _ _ _ _ _ Hm spec Hin Hl).
    unfold stale_issues. rewrite Hs.
    apply String.eqb_neq in Hne, Hdiff. rewrite Hne, Hdiff. left. reflexivity.
  - intros df spec charts tol Hl. unfold validate_charts. cbn [spec_issues]. rewrite Hl.
    reflexivity.
Qed.

Lemma validate_charts_stale_when_output_present_witness :
  verify_chart sdf (bar_spec (Some "old")) agg_chart default_tolerance = Ok None /\
  In (chart_issue (bar_spec (Some "old")) "ERROR" stale_msg
        [("chart_signature", CStr "old"); ("data_signature", CStr sdf_signature)])
     (match validate_charts sdf [bar_spec (Some "old")] charts_ok default_tolerance with
      | Ok r => report_issues r | Raise _ => [] end).
Proof.
  split; [vm_compute; reflexivity|].
  assert (H : validate_charts sdf [bar_spec (Some "old")] charts_ok default_tolerance =
    Ok {| report_issues := [chart_issue (bar_spec (Some "old")) "ERROR" stale_msg
                              [("chart_signature", CStr "old"); ("data_signature", CStr sdf_signature)]];
          report_data_signature := sdf_signature |}) by (vm_compute; reflexivity).
  rewrite H.
  exact (proj1 validate_charts_stale_when_output_present _ _ _ _ _ H (bar_spec (Some "old")) "old"
           (or_introl eq_refl) ltac:(vm_compute; discriminate) eq_refl
           ltac:(discriminate) ltac:(vm_compute; discriminate)).
Defined.

Lemma has_column_absent : forall df col, ~ In col (df_columns df) -> has_column df col = false.
Proof.
  induction df as [|c df IH]; intros col H; [reflexivity|].
  cbn [has_column existsb]. fold (has_column df col).
  destruct (String.eqb (cname c) col) eqn:E.
  - apply String.eqb_eq in E. exfalso. apply H. left. exact E.
  - apply IH. intro H'. apply H. right. exact H'.
Qed.

Lemma apply_filters_from_absent : forall df flts filtered col v,
  In (col, v) flts -> has_column df col = false ->
  exists e, apply_filters_from df filtered flts = Raise e.
Proof.
  intros df flts. induction flts as [|[c w] r IH]; intros filtered col v Hin Hc; [destruct Hin|].
  cbn [apply_filters_from]. destruct Hin as [Heq|Hin].
  - injection Heq as -> ->. unfold apply_filter. rewrite Hc. cbn. eexists. reflexivity.
  - destruct (apply_filter df filtered (c, w)) as [f'|e]; cbn [bind].
    + eapply IH; eassumption.
    + exists e. reflexivity.
Qed.

Lemma verify_chart_filter_absent : forall df spec cd tol col v,
  In (col, v) (filters spec) -> has_column df col = false ->
  exists e, verify_chart df spec cd tol = Raise e.
Proof.
  intros df spec cd tol col v Hin Hc. unfold verify_chart.
  destruct (filters spec) as [|f fl] eqn:Hf; [destruct Hin|].
  unfold apply_filters. rewrite <- Hf.
  destruct (apply_filters_from_absent df (filters spec) df col v) as [e He];
    [rewrite Hf; exact Hin | exact Hc |].
  rewrite He. exists e. reflexivity.
Qed.

Lemma spec_issues_raise : forall df sig charts tol specs spec cd e,
  In spec specs -> lookup_chart charts (identifier spec) = Some cd ->
  verify_chart df spec cd tol = Raise e ->
  exists e', spec_issues df sig charts tol specs = Raise e'.
Proof.
  intros df sig charts tol specs. induction specs as [|sp r IH]; intros spec cd e Hin Hl Hv;
    [destruct Hin|].
  cbn [spec_issues]. destruct Hin as [->|Hin].
  - rewrite Hl, Hv. cbn. eexists. reflexivity.
  - destruct (match lookup_chart charts (identifier sp) with
              | Some chart_df => issue <- verify_chart df sp chart_df tol ;;
                                 Ok (option_list issue ++ stale_issues sp sig)%list
              | None => Ok [chart_issue sp "ERROR" "Chart output missing." []]
              end) as [this|e1]; cbn [bind].
    + destruct (IH spec cd e Hin Hl Hv) as [e' He']. rewrite He'. exists e'. reflexivity.
    + exists e1. reflexivity.
Qed.

(** C3 (counterexample): a bar spec without filters whose x column is not a
    column of the dataset makes [validate_charts] raise [KeyError]. *)
Lemma validate_charts_raises_without_filters :
  filters region_spec = [] /\
  validate_charts sdf [region_spec] region_charts default_tolerance = Raise (KeyError "region").
Proof. split; [reflexivity | vm_compute; reflexivity]. Qed.

(** C3 (amended): when a spec whose chart output is present names in its
    filters a column that the dataset does not have, [validate_charts]
    raises instead of returning a report.  (It can also raise for other
    misconfigured specs, e.g. an absent x column.) *)
Theorem validate_charts_raises_on_absent_filter_column :
  forall df specs charts tol spec col v,
  In spec specs -> lookup_chart charts (identifier spec) <> None ->
  In (col, v) (filters spec) -> ~ In col (df_columns df) ->
  exists e, validate_charts df specs charts tol = Raise e.
Proof.
  intros df specs charts tol spec col v Hin Hl Hf Hc.
  destruct (lookup_chart charts (identifier spec)) as [cd|] eqn:E; [|congruence].
  destruct (verify_chart_filter_absent df spec cd tol col v Hf (has_column_absent df col Hc)) as [e He].
  destruct (spec_issues_raise df (hash_dataframe df) charts tol specs spec cd e Hin E He) as [e' He'].
  unfold validate_charts. rewrite He'. exists e'. reflexivity.
Qed.

Lemma validate_charts_raises_on_absent_filter_column_witness :
  exists e, validate_charts sdf [filtered_spec] charts_ok default_tolerance = Raise e.
Proof.
  apply (validate_charts_raises_on_absent_filter_column sdf [filtered_spec] charts_ok
           default_tolerance filtered_spec "region" (FScalar (VStr "north"))).
  - left. reflexivity.
  - vm_compute. discriminate.
  - left. reflexivity.
  - vm_compute. intros [H|[H|[]]]; discriminate H.
Defined.

End ChartClaims.

(** ** The bar-chart value check *)

Module BarFacts.
Import ValidateCharts ChartFacts BarCheck.



Lemma mapM_length : forall {A B} (f : A -> result B) l l', mapM f l = Ok l' -> length l' = length l.
Proof.
  intros A B f l. induction l as [|a l IH]; intros l' H; cbn [mapM] in H.
  - injection H as <-. reflexivity.
  - inv_binds. injection H as <-. cbn [length]. f_equal. apply IH. assumption.
Qed.










End BarFacts.

Module BarClaims.
Import ValidateCharts ChartFacts ChartInputs BarCheck BarFacts.




End BarClaims.

(** ** Schema validation *)

Module DataClaims.
Import ValidateData DataInputs.

Lemma log_lines_append : forall st p e, log_lines (append_line st p e) p = (log_lines st p ++ [e])%list.
Proof.
  induction st as [|[q lines] st IH]; intros p e; cbn [append_line log_lines].
  - rewrite String.eqb_refl. reflexivity.
  - destruct (String.eqb p q) eqn:E; cbn [log_lines].
    + rewrite E. reflexivity.
    + rewrite E. apply IH.
Qed.

(** C1: the range example gives exactly one ERROR, with context
    [{minimum: 18, count: 1}]; but when the [age] column holds text, whose
    dtype check alone reports an [Unexpected dtype] ERROR, the minimum check
    compares text with [18] and [validate_dataframe] raises [TypeError]
    instead of returning a report. *)
Theorem validate_dataframe_range_check_on_text_raises :
  validate_dataframe age_df age_schema None false t_report t_log [] =
    (Ok {| issues := [issue "ERROR" "age" "Values below minimum"
                        [("minimum", CVal (VInt 18)); ("count", CInt 1)]];
           data_signature := hash_dataframe age_df; schema_version := None;
           validated_at := t_report |}, []) /\
  check_column text_age_df {| name := "age"; dtype := "number"; required := true; nullable := true;
                              allowed_values := None; minimum := None; maximum := None;
                              notes := None |} =
    Ok [issue "ERROR" "age" "Unexpected dtype" [("observed", CStr "object"); ("expected", CStr "number")]] /\
  validate_dataframe text_age_df age_schema None false t_report t_log [] =
    (Raise (TypeError "'<' not supported between instances"), []).
Proof.
  split; [vm_compute; reflexivity|]. split; vm_compute; reflexivity.
Qed.

(** C6: once the column checks have run, and when the audit-log line can
    be serialised, the report is built and its log line appended; only
    then, if [halt_on_error] is set and the report has errors, a single
    [ValidationError] naming the error count is raised, otherwise the
    report is returned.  Even with [halt_on_error] unset the call can raise
    instead of returning the report: a column check that raises (the
    minimum of a column read as text) ends it before any report or log
    line, and [json.dumps] rejects the [numpy.int64] values listed as
    [invalid_values] of an [int64] column, after the log file was opened
    and before any line is written. *)
Theorem validate_dataframe_halt_after_log :
  (forall df schema p halt now_report now_log st col_issues,
   column_issues df (columns schema) = Ok col_issues ->
   json_error df (col_issues ++ extra_issues df schema)%list = None ->
   let report := {| issues := (col_issues ++ extra_issues df schema)%list;
                    data_signature := hash_dataframe df; schema_version := version schema;
                    validated_at := now_report |} in
   let st' := append_line st p {| ts := now_log; entry := report |} in
   validate_dataframe df schema (Some p) halt now_report now_log st =
     (if halt && has_errors report
      then Raise (ValidationError ("Validation failed with " ++ str_of_nat (length (errors report))
                                   ++ " error(s)"))
      else Ok report, st') /\
   log_lines st' p = (log_lines st p ++ [{| ts := now_log; entry := report |}])%list) /\
  validate_dataframe text_age_df age_schema (Some "audit.jsonl") false t_report t_log [] =
    (Raise (TypeError "'<' not supported between instances"), []) /\
  validate_dataframe code_df code_schema (Some "audit.jsonl") false t_report t_log [] =
    (Raise (TypeError "Object of type int64 is not JSON serializable"), [("audit.jsonl", [])]).
Proof.
  split; [|split; vm_compute; reflexivity].
  intros df schema p halt now_report now_log st col_issues H Hj report st'.
  unfold report, st'. split; [|apply log_lines_append].
  unfold validate_dataframe. rewrite H. cbv zeta. cbn [issues]. rewrite Hj.
  match goal with |- context [if ?b then _ else _] => destruct b end; reflexivity.
Qed.

Lemma validate_dataframe_halt_after_log_witness :
  fst (validate_dataframe x_df id_schema (Some "audit.jsonl") true t_report t_log []) =
    Raise (ValidationError "Validation failed with 1 error(s)") /\
  length (log_lines (snd (validate_dataframe x_df id_schema (Some "audit.jsonl") true t_report t_log []))
            "audit.jsonl") = 1%nat.
Proof.
  assert (Hc : column_issues x_df (columns id_schema) =
               Ok [issue "ERROR" "id" "Missing required column" []]) by (vm_compute; reflexivity).
  destruct (proj1 validate_dataframe_halt_after_log x_df id_schema "audit.jsonl" true t_report t_log []
              _ Hc ltac:(vm_compute; reflexivity)) as [H1 H2].
  rewrite H1. split; vm_compute; reflexivity.
Defined.

End DataClaims.

(** ** Data signatures *)

Module CsvFacts.
Import CsvRead.

Lemma all_chars_ok : forall c, char_ok c = true.
Proof. intro c. destruct c as [[] [] [] [] [] [] [] []]; vm_compute; reflexivity. Qed.

Lemma utf8_char_decode : forall c rest, utf8_decode (utf8_char c ++ rest) = String c (utf8_decode rest).
Proof.
  intros c rest. pose proof (all_chars_ok c) as H. unfold char_ok in H.
  destruct (utf8_char c) as [|b [|b2 [|b3 r]]]; try discriminate H.
  - apply andb_prop in H as [H1 H2]. apply Ascii.eqb_eq in H2.
    cbn [app utf8_decode]. rewrite H1, H2. reflexivity.
  - apply andb_prop in H as [H1 H2]. apply Ascii.eqb_eq in H2. apply negb_true_iff in H1.
    cbn [app utf8_decode]. rewrite H1, H2. reflexivity.
Qed.

Lemma utf8_roundtrip : forall s, utf8_decode (utf8_encode s) = s.
Proof.
  induction s as [|c s IH]; [reflexivity|].
  cbn [utf8_encode]. rewrite utf8_char_decode, IH. reflexivity.
Qed.

Lemma utf8_encode_inj : forall s t, utf8_encode s = utf8_encode t -> s = t.
Proof. intros s t H. rewrite <- (utf8_roundtrip s), <- (utf8_roundtrip t), H. reflexivity. Qed.

Lemma str_app_assoc : forall a b c, ((a ++ b) ++ c = a ++ (b ++ c))%string.
Proof. induction a as [|x a IH]; intros b c; cbn; [reflexivity | rewrite IH; reflexivity]. Qed.

Lemma str_app_nonempty : forall a c r, (a ++ String c r)%string <> EmptyString.
Proof. intros [|x a] c r; discriminate. Qed.

Lemma parse_quoted_double : forall t c r, Ascii.eqb c dquote = false ->
  parse_quoted (double_quotes t ++ String dquote (String c r)) = Some (t, String c r).
Proof.
  induction t as [|a t IH]; intros c r Hc; cbn [double_quotes append].
  - cbn [parse_quoted]. rewrite Ascii.eqb_refl, Hc. reflexivity.
  - destruct (Ascii.eqb a dquote) eqn:Ha; cbn [append parse_quoted].
    + rewrite Ascii.eqb_refl. rewrite IH by exact Hc. apply Ascii.eqb_eq in Ha. subst. reflexivity.
    + rewrite Ha, IH by exact Hc. reflexivity.
Qed.

Lemma parse_plain_plain : forall t c r, has_special t = false ->
  (Ascii.eqb c comma || Ascii.eqb c nl)%bool = true ->
  parse_plain (t ++ String c r) = (t, String c r).
Proof.
  induction t as [|a t IH]; intros c r Ht Hc; cbn [append parse_plain].
  - rewrite Hc. reflexivity.
  - cbn [has_special] in Ht. apply orb_false_iff in Ht as [Ha Ht].
    unfold special in Ha. rewrite !orb_false_iff in Ha. destruct Ha as [[[Hcm Hdq] Hnl] Hcr].
    rewrite Hcm, Hnl. cbn [orb]. rewrite IH by assumption. reflexivity.
Qed.

Lemma parse_field_quote_field : forall t c r,
  (Ascii.eqb c comma || Ascii.eqb c nl)%bool = true ->
  parse_field (quote_field t ++ String c r) = Some (t, String c r).
Proof.
  intros t c r Hc.
  assert (Hq : Ascii.eqb c dquote = false).
  { apply orb_true_iff in Hc as [H|H]; apply Ascii.eqb_eq in H; subst; reflexivity. }
  unfold quote_field. destruct (has_special t) eqn:Hs.
  - cbn [append parse_field]. rewrite Ascii.eqb_refl, str_app_assoc. cbn [append].
    apply parse_quoted_double, Hq.
  - destruct t as [|a t'].
    + cbn [append parse_field]. rewrite Hq. cbn [parse_plain]. rewrite Hc. reflexivity.
    + cbn [append parse_field].
      assert (Ha : Ascii.eqb a dquote = false).
      { cbn [has_special] in Hs. apply orb_false_iff in Hs as [Ha _].
        unfold special in Ha. rewrite !orb_false_iff in Ha. destruct Ha as [[[_ Hdq] _] _]. exact Hdq. }
      rewrite Ha. change (String a (t' ++ String c r)) with (String a t' ++ String c r)%string.
      rewrite parse_plain_plain by assumption. reflexivity.
Qed.

Lemma comma_sep : (Ascii.eqb comma comma || Ascii.eqb comma nl)%bool = true.
Proof. reflexivity. Qed.

Lemma nl_sep : (Ascii.eqb nl comma || Ascii.eqb nl nl)%bool = true.
Proof. reflexivity. Qed.

Lemma parse_fields_join : forall ts rest f, ts <> [] -> (length ts <= f)%nat ->
  parse_fields f (join "," (map quote_field ts) ++ String nl rest) = Some (ts, rest).
Proof.
  induction ts as [|t ts IH]; intros rest f Hne Hf; [congruence|].
  destruct f as [|f]; [cbn in Hf; lia|].
  destruct ts as [|t2 ts'].
  - cbn [map join parse_fields]. rewrite parse_field_quote_field by exact nl_sep. reflexivity.
  - cbn [map join]. fold (map quote_field (t2 :: ts')). fold (join "," (quote_field t2 :: map quote_field ts')).
    change (quote_field t2 :: map quote_field ts') with (map quote_field (t2 :: ts')).
    rewrite !str_app_assoc. cbn [append]. cbn [parse_fields].
    rewrite parse_field_quote_field by exact comma_sep. cbn [Ascii.eqb].
    change (Ascii.eqb comma comma) with true. cbv iota.
    rewrite IH; [reflexivity | discriminate | cbn in Hf |- *; lia].
Qed.

Lemma join_length : forall l, (length l <= S (String.length (join "," l)))%nat.
Proof.
  induction l as [|s l IH]; [cbn; lia|].
  destruct l as [|s2 l']; [cbn; lia|].
  change (join "," (s :: s2 :: l')) with (s ++ "," ++ join "," (s2 :: l'))%string.
  rewrite !ShaFacts.length_append. cbn [String.length]. cbn [length] in *. lia.
Qed.

Lemma record_head : forall ts rest, ts <> [] -> ts <> [""] ->
  exists c r, (join "," (map quote_field ts) ++ String nl rest)%string = String c r /\
              Ascii.eqb c nl = false.
Proof.
  intros [|t ts'] rest Hne Hone; [congruence|].
  unfold quote_field at 1. cbn [map].
  destruct (has_special t) eqn:Hs.
  - destruct ts' as [|t2 ts'']; cbn [join append]; eexists; eexists; split; reflexivity.
  - destruct t as [|a t'].
    + destruct ts' as [|t2 ts'']; [congruence|]. cbn [join append].
      eexists; eexists; split; reflexivity.
    + assert (Ha : Ascii.eqb a nl = false).
      { cbn [has_special] in Hs. apply orb_false_iff in Hs as [Ha _].
        unfold special in Ha. rewrite !orb_false_iff in Ha. destruct Ha as [[[_ _] Hnl] _]. exact Hnl. }
      destruct ts' as [|t2 ts'']; cbn [join append]; exists a; eexists; split; [reflexivity | exact Ha | reflexivity | exact Ha].
Qed.

Lemma parse_record_csv_record : forall ts rest, parse_record (csv_record ts ++ rest) = Some (ts, rest).
Proof.
  intros ts rest.
  destruct (list_eq_dec string_dec ts []) as [->|Hne]; [reflexivity|].
  destruct (list_eq_dec string_dec ts [""]) as [->|Hone]; [reflexivity|].
  assert (Hc : csv_record ts = (join "," (map quote_field ts) ++ String nl EmptyString)%string).
  { destruct ts as [|t [|t2 ts']]; [congruence| |].
    - destruct t; [congruence | reflexivity].
    - destruct t; reflexivity. }
  rewrite Hc, str_app_assoc. cbn [append].
  destruct (record_head ts rest Hne Hone) as [c [r [Hs Hn]]].
  unfold parse_record. rewrite Hs, Hn, <- Hs.
  apply parse_fields_join; [exact Hne|].
  pose proof (join_length (map quote_field ts)) as Hl. rewrite length_map in Hl.
  rewrite ShaFacts.length_append. cbn [String.length]. lia.
Qed.

Lemma csv_record_app_nonempty : forall ts rest, (csv_record ts ++ rest)%string <> EmptyString.
Proof.
  intros ts rest. destruct ts as [|t [|t2 ts']]; [discriminate| |].
  - destruct t; [discriminate|]. cbn [csv_record]. rewrite str_app_assoc. apply str_app_nonempty.
  - destruct t; cbn [csv_record]; rewrite str_app_assoc; apply str_app_nonempty.
Qed.

Lemma parse_records_csv : forall rs f, (length rs <= f)%nat ->
  parse_records f (concat_str (map csv_record rs)) = Some rs.
Proof.
  induction rs as [|r rs IH]; intros f Hf; [destruct f; reflexivity|].
  destruct f as [|f]; [cbn in Hf; lia|].
  cbn [map concat_str].
  destruct (csv_record r ++ concat_str (map csv_record rs))%string as [|c s] eqn:E;
    [exfalso; exact (csv_record_app_nonempty _ _ E)|].
  cbn [parse_records]. rewrite <- E, parse_record_csv_record, IH by (cbn in Hf; lia).
  reflexivity.
Qed.

Lemma to_csv_records : forall df,
  to_csv df = concat_str (map csv_record (df_columns df :: map (map cell_text) (rows df))).
Proof. intro df. unfold to_csv. cbn [map concat_str]. rewrite map_map. reflexivity. Qed.

Lemma parse_to_csv : forall df f, (S (length (rows df)) <= f)%nat ->
  parse_records f (to_csv df) = Some (df_columns df :: map (map cell_text) (rows df)).
Proof.
  intros df f Hf. rewrite to_csv_records. apply parse_records_csv. cbn [length]. rewrite length_map. exact Hf.
Qed.

End CsvFacts.

Module SignatureClaims.
Import CsvRead CsvFacts SignatureInputs.

(** C7 (counterexample): changing one cell from the number [1] to the
    string ["1"] gives a different dataset with the same Data Signature. *)
Lemma hash_dataframe_number_vs_text_cell :
  df_int <> df_text /\ hash_dataframe df_int = hash_dataframe df_text.
Proof.
  split; [unfold df_int, df_text; intro H; inversion H | vm_compute; reflexivity].
Qed.

(** C7 (amended): the Data Signature is the SHA-256 of the UTF-8 bytes of
    the dataset's CSV text, and two datasets give the same bytes exactly
    when they have the same column names and the same rows once each cell
    is rendered as CSV text.  So adding or removing a row, reordering rows
    that render differently, or changing a cell's rendered text changes the
    hashed bytes; a change that keeps every rendered text does not. *)
Theorem hash_dataframe_bytes_iff_rendered_rows :
  forall df1 df2,
  hash_dataframe df1 = SHA256.hexdigest (utf8_encode (to_csv df1)) /\
  (utf8_encode (to_csv df1) = utf8_encode (to_csv df2) <->
   df_columns df1 = df_columns df2 /\
   map (map cell_text) (rows df1) = map (map cell_text) (rows df2)).
Proof.
  intros df1 df2. split; [reflexivity|]. split.
  - intro H. apply utf8_encode_inj in H.
    pose proof (parse_to_csv df1 (S (length (rows df1) + length (rows df2))) ltac:(lia)) as H1.
    pose proof (parse_to_csv df2 (S (length (rows df1) + length (rows df2))) ltac:(lia)) as H2.
    rewrite H, H2 in H1. injection H1 as E1 E2. split; symmetry; assumption.
  - intros [H1 H2]. rewrite (to_csv_records df1), (to_csv_records df2), H1, H2. reflexivity.
Qed.

Lemma hash_dataframe_bytes_iff_rendered_rows_witness :
  utf8_encode (to_csv df_int) = utf8_encode (to_csv df_text).
Proof.
  apply (proj2 (proj2 (hash_dataframe_bytes_iff_rendered_rows df_int df_text))).
  split; vm_compute; reflexivity.
Defined.

End SignatureClaims.

(** Order and list facts shared by the further properties. *)
Module OrderFacts.

Lemma str_compare_refl : forall s, String.compare s s = Eq.
Proof.
  induction s as [|a s IH]; [reflexivity|]. cbn [String.compare].
  unfold Ascii.compare. rewrite N.compare_refl. exact IH.
Qed.

Lemma str_compare_trans : forall s t u,
  String.compare s t = Lt -> String.compare t u = Lt -> String.compare s u = Lt.
Proof.
  induction s as [|a s IH]; intros [|b t] [|c u] H1 H2; cbn [String.compare] in *;
    try discriminate; try reflexivity.
  unfold Ascii.compare in *.
  destruct (N.compare_spec (N_of_ascii a) (N_of_ascii b)) as [Hab|Hab|Hab];
  destruct (N.compare_spec (N_of_ascii b) (N_of_ascii c)) as [Hbc|Hbc|Hbc];
    try discriminate.
  - rewrite Hab, Hbc, N.compare_refl. eauto.
  - rewrite (proj2 (N.compare_lt_iff _ _)) by lia. reflexivity.
  - rewrite (proj2 (N.compare_lt_iff _ _)) by lia. reflexivity.
  - rewrite (proj2 (N.compare_lt_iff _ _)) by lia. reflexivity.
Qed.

Lemma str_ltb_irrefl : forall s, String.ltb s s = false.
Proof. intro s. unfold String.ltb. rewrite str_compare_refl. reflexivity. Qed.

Lemma str_ltb_trans : forall s t u,
  String.ltb s t = true -> String.ltb t u = true -> String.ltb s u = true.
Proof.
  unfold String.ltb. intros s t u H1 H2.
  destruct (String.compare s t) eqn:E1; try discriminate.
  destruct (String.compare t u) eqn:E2; try discriminate.
  rewrite (str_compare_trans _ _ _ E1 E2). reflexivity.
Qed.

Lemma str_ltb_total : forall s t, s <> t -> String.ltb s t = false -> String.ltb t s = true.
Proof.
  unfold String.ltb. intros s t Hne H. rewrite String.compare_antisym.
  destruct (String.compare s t) eqn:E; try discriminate; try reflexivity.
  apply String.compare_eq_iff in E. contradiction.
Qed.

Lemma filter_none : forall {A} (f : A -> bool) l, (forall x, In x l -> f x = false) -> filter f l = [].
Proof.
  intros A f l H. induction l as [|x l IH]; [reflexivity|]. cbn [filter].
  rewrite (H x (or_introl eq_refl)). apply IH. intros y Hy. apply H. right. exact Hy.
Qed.

Lemma existsb_map_comp : forall {A B} (f : B -> bool) (g : A -> B) l,
  existsb f (map g l) = existsb (fun a => f (g a)) l.
Proof. intros A B f g l. induction l as [|a l IH]; [reflexivity|]. cbn. rewrite IH. reflexivity. Qed.

End OrderFacts.

(** Further properties of [validate_dataframe] and [check_column]. *)
Module DataExtras.
Import ValidateData ChartFacts DataViews OrderFacts DataInputs DataExtraInputs.

Lemma get_column_found : forall df nm s,
  get_column df nm = Ok s -> has_column df nm = true /\ cname s = nm /\ In s df.
Proof.
  intros df nm s H. unfold get_column in H.
  destruct (find (fun c => String.eqb (cname c) nm) df) as [c|] eqn:E; [|discriminate].
  injection H as <-. apply find_some in E as [Hin Heq].
  split; [apply existsb_exists; exists c; auto|]. split; [apply String.eqb_eq; exact Heq | exact Hin].
Qed.

Lemma has_column_found : forall df nm, has_column df nm = true -> exists s, get_column df nm = Ok s.
Proof.
  intros df nm H. unfold get_column.
  destruct (find (fun c => String.eqb (cname c) nm) df) as [c|] eqn:E; [eauto|].
  apply existsb_exists in H as [c [Hin Hc]]. rewrite (find_none _ _ E c Hin) in Hc. discriminate.
Qed.

Ltac open_check H Hget :=
  unfold check_column in H;
  rewrite (proj1 (get_column_found _ _ _ Hget)) in H; cbn [negb] in H;
  rewrite Hget in H; cbn [bind] in H; inv_binds.

Lemma check_column_columns : forall df cs is, check_column df cs = Ok is ->
  forall i, In i is -> column i = Some (name cs).
Proof.
  intros df cs is H i Hi.
  destruct (has_column df (name cs)) eqn:Hh.
  - destruct (has_column_found _ _ Hh) as [s Hget]. open_check H Hget. injection H as <-.
    repeat (apply in_app_or in Hi as [Hi|Hi]).
    + destruct (_ && _); [destruct Hi as [<-|[]]; reflexivity | destruct Hi].
    + destruct (series_has_dtype s (dtype cs)) as [[|]|[]]; try discriminate Hm;
        injection Hm as <-; try destruct Hi as [<-|[]]; try destruct Hi; reflexivity.
    + destruct (allowed_values cs) as [av|].
      * apply bind_ok in Hm0 as [inv [_ Hm0]]. injection Hm0 as <-.
        destruct inv; [destruct Hi | destruct Hi as [<-|[]]; reflexivity].
      * injection Hm0 as <-. destruct Hi.
    + destruct (minimum cs) as [m|].
      * apply bind_ok in Hm1 as [bl [_ Hm1]]. injection Hm1 as <-.
        destruct (existsb _ _); [destruct Hi as [<-|[]]; reflexivity | destruct Hi].
      * injection Hm1 as <-. destruct Hi.
    + destruct (maximum cs) as [m|].
      * apply bind_ok in Hm2 as [bl [_ Hm2]]. injection Hm2 as <-.
        destruct (existsb _ _); [destruct Hi as [<-|[]]; reflexivity | destruct Hi].
      * injection Hm2 as <-. destruct Hi.
  - unfold check_column in H. rewrite Hh in H. injection H as <-.
    destruct (required cs); destruct Hi as [<-|[]]; reflexivity.
Qed.

Lemma filter_about_own : forall df cs is, check_column df cs = Ok is ->
  forall nm, filter (about_column nm) is = if String.eqb (name cs) nm then is else [].
Proof.
  intros df cs is H nm. pose proof (check_column_columns _ _ _ H) as Hc. clear H.
  induction is as [|i is IH]; [destruct (String.eqb (name cs) nm); reflexivity|].
  cbn [filter]. unfold about_column at 1. rewrite (Hc i (or_introl eq_refl)).
  rewrite IH by (intros j Hj; apply Hc; right; exact Hj).
  destruct (String.eqb (name cs) nm); reflexivity.
Qed.

Lemma column_issues_other : forall df cols ci nm,
  filter (fun c => String.eqb (name c) nm) cols = [] ->
  column_issues df cols = Ok ci -> filter (about_column nm) ci = [].
Proof.
  intros df cols. induction cols as [|c r IH]; intros ci nm Hf H.
  - injection H as <-. reflexivity.
  - cbn [filter] in Hf. destruct (String.eqb (name c) nm) eqn:E; [discriminate|].
    cbn [column_issues] in H. inv_binds. injection H as <-.
    rewrite filter_app, (filter_about_own _ _ _ Hm), E, (IH _ _ Hf Hm0). reflexivity.
Qed.

Lemma column_issues_one : forall df cols ci cs,
  filter (fun c => String.eqb (name c) (name cs)) cols = [cs] ->
  column_issues df cols = Ok ci ->
  exists ics, check_column df cs = Ok ics /\ filter (about_column (name cs)) ci = ics.
Proof.
  intros df cols. induction cols as [|c r IH]; intros ci cs Hf H.
  - discriminate Hf.
  - cbn [filter] in Hf. cbn [column_issues] in H. inv_binds. injection H as <-.
    rewrite filter_app, (filter_about_own _ _ _ Hm).
    destruct (String.eqb (name c) (name cs)) eqn:E.
    + injection Hf as -> Hf. exists a. split; [exact Hm|].
      rewrite (column_issues_other _ _ _ _ Hf Hm0), app_nil_r. reflexivity.
    + destruct (IH _ _ Hf Hm0) as [ics [H1 H2]]. exists ics. split; [exact H1 | exact H2].
Qed.

Lemma validate_dataframe_ok : forall df schema p halt now_r now_l st r st',
  validate_dataframe df schema p halt now_r now_l st = (Ok r, st') ->
  exists ci, column_issues df (columns schema) = Ok ci /\
    issues r = (ci ++ extra_issues df schema)%list /\ data_signature r = hash_dataframe df.
Proof.
  intros df schema p halt now_r now_l st r st' H. unfold validate_dataframe in H.
  destruct (column_issues df (columns schema)) as [ci|e]; [|discriminate].
  exists ci. split; [reflexivity|]. cbv zeta in H.
  destruct p as [p|]; [destruct (json_error _ _); [discriminate|]|];
    (destruct (halt && _); [discriminate|]; injection H as <- _; split; reflexivity).
Qed.

Lemma insert_str_perm : forall x l, Permutation (insert_str x l) (x :: l).
Proof.
  intros x l. induction l as [|y l IH]; [reflexivity|]. cbn [insert_str].
  destruct (String.ltb y x); [|reflexivity].
  rewrite IH. apply perm_swap.
Qed.

Lemma sort_str_perm : forall l, Permutation (sort_str l) l.
Proof.
  induction l as [|x l IH]; [reflexivity|]. unfold sort_str. cbn [fold_right].
  fold (sort_str l). rewrite insert_str_perm. apply perm_skip, IH.
Qed.

Lemma insert_str_sorted : forall x l,
  StronglySorted (fun a b => String.ltb a b = true) l -> ~ In x l ->
  StronglySorted (fun a b => String.ltb a b = true) (insert_str x l).
Proof.
  intros x l. induction l as [|y l IH]; intros Hs Hn.
  - repeat constructor.
  - apply StronglySorted_inv in Hs as [Hs Hf]. cbn [insert_str].
    destruct (String.ltb y x) eqn:E.
    + constructor; [apply IH; [exact Hs | intro H; apply Hn; right; exact H]|].
      apply Forall_forall. intros z Hz. apply (Permutation_in _ (insert_str_perm x l)) in Hz.
      destruct Hz as [<-|Hz]; [exact E | exact (proj1 (Forall_forall _ _) Hf z Hz)].
    + assert (Hxy : String.ltb x y = true).
      { apply str_ltb_total; [intro H; apply Hn; left; exact H | exact E]. }
      constructor; [constructor; [exact Hs | exact Hf]|].
      constructor; [exact Hxy|].
      apply Forall_forall. intros z Hz. eapply str_ltb_trans; [exact Hxy|].
      exact (proj1 (Forall_forall _ _) Hf z Hz).
Qed.

Lemma sort_str_sorted : forall l, NoDup l ->
  StronglySorted (fun a b => String.ltb a b = true) (sort_str l).
Proof.
  induction l as [|x l IH]; intro Hnd; [constructor|].
  apply NoDup_cons_iff in Hnd as [Hx Hnd]. unfold sort_str. cbn [fold_right]. fold (sort_str l).
  apply insert_str_sorted; [exact (IH Hnd)|].
  intro H. apply Hx. exact (Permutation_in _ (sort_str_perm l) H).
Qed.

Lemma str_dedup_spec : forall l, NoDup (str_dedup l) /\ forall x, In x (str_dedup l) <-> In x l.
Proof.
  induction l as [|y l [IHn IHi]]; [split; [constructor | tauto]|].
  cbn [str_dedup]. split.
  - constructor; [|apply NoDup_filter, IHn].
    rewrite filter_In. intros [_ H]. rewrite String.eqb_refl in H. discriminate.
  - intro x. cbn [In]. rewrite filter_In, IHi. split.
    + intros [->|[H _]]; [left; reflexivity | right; exact H].
    + intros [->|H]; [left; reflexivity|].
      destruct (String.eqb y x) eqn:E.
      * left. apply String.eqb_eq. exact E.
      * right. split; [exact H | reflexivity].
Qed.

Lemma extra_columns_in : forall df schema c, In c (extra_columns df schema) <->
  In c (df_columns df) /\ Forall (fun cs => name cs <> c) (columns schema).
Proof.
  intros df schema c. unfold extra_columns.
  destruct (str_dedup_spec (df_columns df)) as [_ Hin].
  set (l := filter _ (str_dedup (df_columns df))). split.
  - intro H. apply (Permutation_in _ (sort_str_perm l)) in H. unfold l in H.
    apply filter_In in H as [H1 H2]. split; [apply Hin, H1|].
    apply Forall_forall. intros cs Hcs Heq. apply negb_true_iff in H2.
    rewrite <- not_true_iff_false in H2. apply H2, existsb_exists.
    exists cs. split; [exact Hcs | apply String.eqb_eq, Heq].
  - intros [H1 H2]. apply (Permutation_in _ (Permutation_sym (sort_str_perm l))).
    unfold l. apply filter_In. split; [apply Hin, H1|].
    apply negb_true_iff, not_true_iff_false. intro H. apply existsb_exists in H as [cs [Hcs Heq]].
    apply String.eqb_eq in Heq. exact (proj1 (Forall_forall _ _) H2 cs Hcs Heq).
Qed.

(** X2: the undeclared columns that [validate_dataframe] warns about are listed in strictly increasing order, without repetition, and are exactly the frame's columns that no schema column declares. *)
Theorem extra_columns_sorted_undeclared : forall df schema,
  StronglySorted (fun a b => String.ltb a b = true) (extra_columns df schema) /\
  NoDup (extra_columns df schema) /\
  (forall c, In c (extra_columns df schema) <->
     In c (df_columns df) /\ Forall (fun cs => name cs <> c) (columns schema)).
Proof.
  intros df schema. split; [|split; [|apply extra_columns_in]]; unfold extra_columns;
    destruct (str_dedup_spec (df_columns df)) as [Hnd _];
    set (l := filter _ (str_dedup (df_columns df)));
    assert (Hl : NoDup l) by (apply NoDup_filter, Hnd).
  - apply sort_str_sorted, Hl.
  - exact (Permutation_NoDup (Permutation_sym (sort_str_perm l)) Hl).
Qed.

(** X1: a declared column that the frame does not have gets exactly one issue naming it: the ERROR "Missing required column" when it is required, the WARN "Optional column missing" otherwise; no dtype, null, range or allowed-value check runs on it. *)
Theorem validate_dataframe_missing_column : forall df schema p halt now_r now_l st r st' cs,
  filter (fun c => String.eqb (name c) (name cs)) (columns schema) = [cs] ->
  has_column df (name cs) = false ->
  validate_dataframe df schema p halt now_r now_l st = (Ok r, st') ->
  filter (about_column (name cs)) (issues r) =
    [if required cs then issue "ERROR" (name cs) "Missing required column" []
     else issue "WARN" (name cs) "Optional column missing" []].
Proof.
  intros df schema p halt now_r now_l st r st' cs Hf Hh H.
  destruct (validate_dataframe_ok _ _ _ _ _ _ _ _ _ H) as [ci [Hci [Hr _]]].
  rewrite Hr, filter_app.
  destruct (column_issues_one _ _ _ _ Hf Hci) as [ics [Hc ->]].
  unfold check_column in Hc. rewrite Hh in Hc. injection Hc as <-.
  assert (Hcs : In cs (columns schema)).
  { assert (Hin : In cs (filter (fun c => String.eqb (name c) (name cs)) (columns schema)))
      by (rewrite Hf; left; reflexivity).
    apply filter_In in Hin. exact (proj1 Hin). }
  rewrite (filter_none _ (extra_issues df schema)), app_nil_r.
  - destruct (required cs); unfold about_column, issue; cbn [filter column];
      try rewrite String.eqb_refl; reflexivity.
  - intros i Hi. unfold extra_issues in Hi. apply in_map_iff in Hi as [c [<- Hc]].
    unfold about_column. cbn [column issue]. apply String.eqb_neq. intros ->.
    apply extra_columns_in in Hc as [_ Hc].
    exact (proj1 (Forall_forall _ _) Hc cs Hcs eq_refl).
Qed.

Lemma lookup_checks_none : forall k t, ~ In k (map fst t) -> lookup_checks k t = None.
Proof.
  intros k t. induction t as [|[k' v] t IH]; intro H; [reflexivity|]. cbn [lookup_checks].
  destruct (String.eqb k k') eqn:E.
  - apply String.eqb_eq in E. subst. exfalso. apply H. left. reflexivity.
  - apply IH. intro H'. apply H. right. exact H'.
Qed.

(** The messages of the checks after the null check. *)

Lemma later_parts_messages : forall df cs s is,
  get_column df (name cs) = Ok s -> check_column df cs = Ok is ->
  exists null_part rest,
    is = (null_part ++ rest)%list /\
    null_part = (if negb (nullable cs) && existsb is_null (cells s) then
      [issue "ERROR" (name cs) "Null values not permitted"
         [("null_count", CInt (length (filter is_null (cells s))))]] else []) /\
    forall i, In i rest -> message i <> "Null values not permitted".
Proof.
  intros df cs s is Hget H. open_check H Hget. injection H as <-.
  eexists _, _. split; [reflexivity|]. split; [reflexivity|].
  intros i Hi. repeat (apply in_app_or in Hi as [Hi|Hi]).
  - destruct (series_has_dtype s (dtype cs)) as [[|]|[]] eqn:Ed; try discriminate Hm;
      injection Hm as <-; try destruct Hi as [<-|[]]; try destruct Hi; try discriminate.
    unfold series_has_dtype in Ed. destruct (lookup_checks _ _); [discriminate|].
    injection Ed as <-. discriminate.
  - destruct (allowed_values cs) as [av|].
    + apply bind_ok in Hm0 as [inv [_ Hm0]]. injection Hm0 as <-.
      destruct inv; [destruct Hi | destruct Hi as [<-|[]]; discriminate].
    + injection Hm0 as <-. destruct Hi.
  - destruct (minimum cs) as [m|].
    + apply bind_ok in Hm1 as [bl [_ Hm1]]. injection Hm1 as <-.
      destruct (existsb _ _); [destruct Hi as [<-|[]]; discriminate | destruct Hi].
    + injection Hm1 as <-. destruct Hi.
  - destruct (maximum cs) as [m|].
    + apply bind_ok in Hm2 as [bl [_ Hm2]]. injection Hm2 as <-.
      destruct (existsb _ _); [destruct Hi as [<-|[]]; discriminate | destruct Hi].
    + injection Hm2 as <-. destruct Hi.
Qed.

Lemma existsb_filter_length : forall {A} (f : A -> bool) l,
  existsb f l = true <-> (0 < length (filter f l))%nat.
Proof.
  intros A f l. induction l as [|x l IH]; cbn [existsb filter length]; [split; [discriminate | lia]|].
  destruct (f x); cbn [orb length]; [split; [lia | reflexivity]|exact IH].
Qed.

(** X4: the null check reports the ERROR "Null values not permitted" with null_count [k] exactly when the column is not nullable and [k], the number of missing cells, is positive. *)
Theorem check_column_null_count : forall df cs s is k,
  get_column df (name cs) = Ok s -> check_column df cs = Ok is ->
  (In (issue "ERROR" (name cs) "Null values not permitted" [("null_count", CInt k)]) is <->
   nullable cs = false /\ k = length (filter is_null (cells s)) /\ (0 < k)%nat).
Proof.
  intros df cs s is k Hget H.
  destruct (later_parts_messages _ _ _ _ Hget H) as [np [rest [-> [-> Hr]]]].
  rewrite in_app_iff. split.
  - intros [Hi|Hi]; [|exfalso; exact (Hr _ Hi eq_refl)].
    destruct (negb (nullable cs) && existsb is_null (cells s)) eqn:E; [|destruct Hi].
    destruct Hi as [Hi|[]]. injection Hi as Hk. apply andb_prop in E as [E1 E2].
    apply negb_true_iff in E1. apply existsb_filter_length in E2. split; [exact E1 | lia].
  - intros [H1 [-> H3]]. left. rewrite H1. cbn [negb andb].
    rewrite (proj2 (existsb_filter_length _ _) H3). left. reflexivity.
Qed.

(** X3: a schema dtype outside the supported names (compared lower-cased) does not make the column check raise: the column gets the ERROR "Unsupported dtype in schema: <dtype>" and no "Unexpected dtype" issue. *)
Theorem check_column_unsupported_dtype : forall df cs s,
  get_column df (name cs) = Ok s ->
  ~ In (lower (dtype cs)) ["integer"; "float"; "number"; "string"; "boolean"; "datetime"; "category"] ->
  check_column df cs =
    (a <- allowed_part s cs ;; mi <- min_part s cs ;; ma <- max_part s cs ;;
     Ok (null_part s cs ++ [issue "ERROR" (name cs) ("Unsupported dtype in schema: " ++ dtype cs) []]
         ++ a ++ mi ++ ma)%list) /\
  (forall is, check_column df cs = Ok is ->
   In (issue "ERROR" (name cs) ("Unsupported dtype in schema: " ++ dtype cs) []) is /\
   Forall (fun i => message i <> "Unexpected dtype") is).
Proof.
  intros df cs s Hget Hn.
  assert (Hd : series_has_dtype s (dtype cs) =
               Raise (ValueError ("Unsupported dtype in schema: " ++ dtype cs))).
  { unfold series_has_dtype. rewrite lookup_checks_none; [reflexivity | exact Hn]. }
  split.
  { unfold check_column. rewrite (proj1 (get_column_found _ _ _ Hget)). cbn [negb].
    rewrite Hget. cbn [bind]. rewrite Hd. reflexivity. }
  intros is H.
  open_check H Hget. injection H as <-. rewrite Hd in Hm. injection Hm as <-.
  split.
  - apply in_or_app. right. apply in_or_app. left. left. reflexivity.
  - apply Forall_forall. intros i Hi. repeat (apply in_app_or in Hi as [Hi|Hi]).
    + destruct (_ && _); [destruct Hi as [<-|[]]; discriminate | destruct Hi].
    + destruct Hi as [<-|[]]. cbn [message issue]. intro E.
      apply (f_equal (String.substring 0 3)) in E. discriminate E.
    + destruct (allowed_values cs) as [av|].
      * apply bind_ok in Hm0 as [inv [_ Hm0]]. injection Hm0 as <-.
        destruct inv; [destruct Hi | destruct Hi as [<-|[]]; discriminate].
      * injection Hm0 as <-. destruct Hi.
    + destruct (minimum cs) as [m|].
      * apply bind_ok in Hm1 as [bl [_ Hm1]]. injection Hm1 as <-.
        destruct (existsb _ _); [destruct Hi as [<-|[]]; discriminate | destruct Hi].
      * injection Hm1 as <-. destruct Hi.
    + destruct (maximum cs) as [m|].
      * apply bind_ok in Hm2 as [bl [_ Hm2]]. injection Hm2 as <-.
        destruct (existsb _ _); [destruct Hi as [<-|[]]; discriminate | destruct Hi].
      * injection Hm2 as <-. destruct Hi.
Qed.

Lemma py_lt_num : forall a b p q, num_of a = Some p -> num_of b = Some q -> py_lt a b = Ok (Qlt_bool p q).
Proof.
  intros a b p q Ha Hb. destruct a; destruct b; cbn [num_of] in Ha, Hb; try discriminate;
    injection Ha as <-; injection Hb as <-; reflexivity.
Qed.

Lemma insert_sorted_numeric : forall x l, num_of x <> None -> (forall v, In v l -> num_of v <> None) ->
  exists l', insert_sorted x l = Ok l' /\ Permutation (x :: l) l'.
Proof.
  intros x l Hx. induction l as [|y l IH]; intro Hl; [exists [x]; split; reflexivity|].
  destruct (num_of x) as [p|] eqn:Ep; [|congruence].
  destruct (num_of y) as [q|] eqn:Eq; [|exfalso; exact (Hl y (or_introl eq_refl) Eq)].
  cbn [insert_sorted]. rewrite (py_lt_num _ _ _ _ Eq Ep). cbn [bind].
  destruct (Qlt_bool q p).
  - destruct IH as [l' [H1 H2]]; [intros v Hv; apply Hl; right; exact Hv|].
    rewrite H1. cbn [bind]. eexists. split; [reflexivity|].
    rewrite perm_swap. apply perm_skip, H2.
  - eexists. split; reflexivity.
Qed.

Lemma py_sorted_numeric : forall l, (forall v, In v l -> num_of v <> None) ->
  exists l', py_sorted l = Ok l' /\ Permutation l l'.
Proof.
  induction l as [|x l IH]; intro Hl; [exists []; split; reflexivity|].
  destruct IH as [l' [H1 H2]]; [intros v Hv; apply Hl; right; exact Hv|].
  cbn [py_sorted]. rewrite H1. cbn [bind].
  destruct (insert_sorted_numeric x l') as [l'' [H3 H4]].
  - apply Hl. left. reflexivity.
  - intros v Hv. apply Hl. right. exact (Permutation_in _ (Permutation_sym H2) Hv).
  - exists l''. split; [exact H3|]. rewrite <- H4. apply perm_skip, H2.
Qed.

Lemma unique_incl : forall l v, In v (unique l) -> In v l.
Proof.
  induction l as [|x l IH]; intros v H; [destruct H|]. cbn [unique] in H.
  destruct H as [<-|H]; [left; reflexivity|]. apply filter_In in H as [H _]. right. apply IH, H.
Qed.

Lemma mapM_py_lt_numeric : forall (f : value -> result bool) (g : Q -> bool) l,
  (forall v q, num_of v = Some q -> f v = Ok (g q)) ->
  (forall v, In v l -> num_of v <> None) ->
  mapM f l = Ok (map (num_test g) l).
Proof.
  intros f g l Hf. induction l as [|v l IH]; intro Hl; [reflexivity|].
  destruct (num_of v) as [q|] eqn:E; [|exfalso; exact (Hl v (or_introl eq_refl) E)].
  cbn [mapM]. rewrite (Hf v q E). cbn [bind]. rewrite IH by (intros w Hw; apply Hl; right; exact Hw).
  cbn [bind map]. unfold num_test. rewrite E. reflexivity.
Qed.

Lemma count_true_map : forall {A} (f : A -> bool) l, count_true (map f l) = length (filter f l).
Proof.
  intros A f l. unfold count_true. induction l as [|x l IH]; [reflexivity|]. cbn [map filter].
  destruct (f x); cbn [length]; rewrite IH; reflexivity.
Qed.

Lemma existsb_map_id : forall {A} (f : A -> bool) l, existsb (fun b => b) (map f l) = existsb f l.
Proof. intros A f l. induction l as [|x l IH]; [reflexivity|]. cbn. rewrite IH. reflexivity. Qed.

Lemma filter_dropna : forall g l, filter (num_test g) (dropna l) = filter (num_test g) l.
Proof.
  intros g l. induction l as [|v l IH]; [reflexivity|]. unfold dropna in *. cbn [filter].
  destruct v; cbn [is_null negb]; cbn [filter]; rewrite IH; reflexivity.
Qed.

Lemma check_column_present : forall df cs s, get_column df (name cs) = Ok s ->
  check_column df cs =
    (d <- dtype_part s cs ;; a <- allowed_part s cs ;; mi <- min_part s cs ;; ma <- max_part s cs ;;
     Ok (null_part s cs ++ d ++ a ++ mi ++ ma)%list).
Proof.
  intros df cs s Hget. unfold check_column.
  rewrite (proj1 (get_column_found _ _ _ Hget)). cbn [negb]. rewrite Hget. reflexivity.
Qed.

Lemma messages_differ : forall s cs d, dtype_part s cs = Ok d ->
  forall i, In i d -> message i <> "Values below minimum" /\ message i <> "Values above maximum" /\
    message i <> "Values outside allowed set".
Proof.
  intros s cs d H i Hi. unfold dtype_part, series_has_dtype in H.
  destruct (lookup_checks _ _); [destruct (existsb _ _)|]; injection H as <-.
  - destruct Hi.
  - destruct Hi as [<-|[]]. repeat split; discriminate.
  - destruct Hi as [<-|[]]. cbn [message issue].
    repeat split; intro E; apply (f_equal (String.substring 0 3)) in E; discriminate E.
Qed.

Lemma dtype_part_ok : forall s cs, exists d, dtype_part s cs = Ok d.
Proof.
  intros s cs. unfold dtype_part, series_has_dtype.
  destruct (lookup_checks _ _); [destruct (existsb _ _)|]; eexists; reflexivity.
Qed.

Lemma bound_part_spec : forall (f : value -> value -> result bool) (g : Q -> Q -> bool) l m qm col msg k,
  (forall v q, num_of v = Some q -> f v m = Ok (g q qm)) ->
  (forall v, In v (dropna l) -> num_of v <> None) ->
  exists part,
    (below <- mapM (fun v => f v m) (dropna l) ;;
     Ok (if existsb (fun b => b) below then
           [issue "ERROR" col msg [(k, CVal m); ("count", CInt (count_true below))]] else [])) = Ok part /\
    (forall n, In (issue "ERROR" col msg [(k, CVal m); ("count", CInt n)]) part <->
       n = length (filter (num_test (fun q => g q qm)) l) /\ (0 < n)%nat) /\
    (forall i, In i part -> message i = msg).
Proof.
  intros f g l m qm col msg k Hf Hl.
  rewrite (mapM_py_lt_numeric (fun v => f v m) (fun q => g q qm) _ (fun v q H => Hf v q H) Hl).
  cbn [bind]. eexists. split; [reflexivity|].
  rewrite count_true_map, existsb_map_id, filter_dropna.
  destruct (existsb (num_test (fun q => g q qm)) (dropna l)) eqn:E.
  - apply existsb_filter_length in E. rewrite filter_dropna in E. split.
    + intro n. split.
      * intros [Hi|[]]. injection Hi as Hn. rewrite <- Hn. split; [reflexivity | exact E].
      * intros [-> _]. left. reflexivity.
    + intros i [<-|[]]. reflexivity.
  - split; [|intros i []].
    intro n. split; [intros []|]. intros [-> Hn].
    assert (E' : existsb (num_test (fun q => g q qm)) (dropna l) = true).
    { apply existsb_filter_length. rewrite filter_dropna. exact Hn. }
    congruence.
Qed.

Lemma allowed_part_numeric : forall s cs, (forall v, In v (dropna (cells s)) -> num_of v <> None) ->
  exists a, allowed_part s cs = Ok a /\ forall i, In i a -> message i = "Values outside allowed set".
Proof.
  intros s cs Hd. unfold allowed_part. destruct (allowed_values cs) as [av|]; [|exists []; split; [reflexivity | intros i []]].
  destruct (py_sorted_numeric (filter (fun v => negb (existsb (py_eq v) av)) (unique (dropna (cells s)))))
    as [l' [H1 _]].
  - intros v Hv. apply filter_In in Hv as [Hv _]. apply Hd, unique_incl, Hv.
  - rewrite H1. cbn [bind]. eexists. split; [reflexivity|].
    destruct l'; [intros i []|]. intros i [<-|[]]. reflexivity.
Qed.

Lemma dropna_numeric : forall l, (forall v, In v l -> is_null v = true \/ num_of v <> None) ->
  forall v, In v (dropna l) -> num_of v <> None.
Proof.
  intros l H v Hv. unfold dropna in Hv. apply filter_In in Hv as [Hv Hn].
  destruct (H v Hv) as [E|E]; [rewrite E in Hn; discriminate Hn | exact E].
Qed.

Lemma compare_bound_numeric : forall s m, numeric_dtype (cdtype s) = true -> num_of m <> None ->
  compare_bound true s m = mapM (fun v => py_lt v m) (dropna (cells s)) /\
  compare_bound false s m = mapM (fun v => py_lt m v) (dropna (cells s)).
Proof.
  intros s m Hn Hm. unfold compare_bound.
  destruct (cdtype s); try discriminate Hn;
    (destruct m; [split; reflexivity | split; reflexivity | exfalso; apply Hm; reflexivity
                 | exfalso; apply Hm; reflexivity]).
Qed.

Lemma min_part_spec : forall s cs m qm, minimum cs = Some m -> num_of m = Some qm ->
  numeric_dtype (cdtype s) = true ->
  (forall v, In v (dropna (cells s)) -> num_of v <> None) ->
  exists part, min_part s cs = Ok part /\
    (forall n, In (issue "ERROR" (name cs) "Values below minimum" [("minimum", CVal m); ("count", CInt n)]) part <->
       n = length (filter (num_test (fun q => Qlt_bool q qm)) (cells s)) /\ (0 < n)%nat) /\
    (forall i, In i part -> message i = "Values below minimum").
Proof.
  intros s cs m qm Hm Hq Hn Hd. unfold min_part. rewrite Hm.
  rewrite (proj1 (compare_bound_numeric s m Hn ltac:(rewrite Hq; discriminate))).
  apply (bound_part_spec py_lt Qlt_bool); [|exact Hd].
  intros v q Hv. exact (py_lt_num _ _ _ _ Hv Hq).
Qed.

Lemma max_part_spec : forall s cs m qm, maximum cs = Some m -> num_of m = Some qm ->
  numeric_dtype (cdtype s) = true ->
  (forall v, In v (dropna (cells s)) -> num_of v <> None) ->
  exists part, max_part s cs = Ok part /\
    (forall n, In (issue "ERROR" (name cs) "Values above maximum" [("maximum", CVal m); ("count", CInt n)]) part <->
       n = length (filter (num_test (fun q => Qlt_bool qm q)) (cells s)) /\ (0 < n)%nat) /\
    (forall i, In i part -> message i = "Values above maximum").
Proof.
  intros s cs m qm Hm Hq Hn Hd. unfold max_part. rewrite Hm.
  rewrite (proj2 (compare_bound_numeric s m Hn ltac:(rewrite Hq; discriminate))).
  apply (bound_part_spec (fun v m => py_lt m v) (fun q qm => Qlt_bool qm q)); [|exact Hd].
  intros v q Hv. exact (py_lt_num _ _ _ _ Hq Hv).
Qed.

Lemma min_part_ok : forall s cs, (forall m, minimum cs = Some m -> num_of m <> None) ->
  numeric_dtype (cdtype s) = true ->
  (forall v, In v (dropna (cells s)) -> num_of v <> None) ->
  exists part, min_part s cs = Ok part /\ (forall i, In i part -> message i = "Values below minimum").
Proof.
  intros s cs Hm Hn Hd. destruct (minimum cs) as [m|] eqn:E.
  - destruct (num_of m) as [qm|] eqn:Eq; [|exfalso; exact (Hm m eq_refl Eq)].
    destruct (min_part_spec s cs m qm E Eq Hn Hd) as [p [H1 [_ H2]]]. exists p. split; assumption.
  - exists []. unfold min_part. rewrite E. split; [reflexivity | intros i []].
Qed.

Lemma max_part_ok : forall s cs, (forall m, maximum cs = Some m -> num_of m <> None) ->
  numeric_dtype (cdtype s) = true ->
  (forall v, In v (dropna (cells s)) -> num_of v <> None) ->
  exists part, max_part s cs = Ok part /\ (forall i, In i part -> message i = "Values above maximum").
Proof.
  intros s cs Hm Hn Hd. destruct (maximum cs) as [m|] eqn:E.
  - destruct (num_of m) as [qm|] eqn:Eq; [|exfalso; exact (Hm m eq_refl Eq)].
    destruct (max_part_spec s cs m qm E Eq Hn Hd) as [p [H1 [_ H2]]]. exists p. split; assumption.
  - exists []. unfold max_part. rewrite E. split; [reflexivity | intros i []].
Qed.

Lemma null_part_messages : forall s cs i, In i (null_part s cs) -> message i = "Null values not permitted".
Proof.
  intros s cs i H. unfold null_part in H. destruct (_ && _); [destruct H as [<-|[]]; reflexivity | destruct H].
Qed.

(** X5: on a column of a numeric dtype (int64, float64 or bool) whose non-missing cells and bounds are numbers, the column check returns normally, and it reports "Values below minimum" (resp. "Values above maximum") with count [k] exactly when [k] cells are strictly below the minimum (resp. strictly above the maximum) and [k > 0]; missing cells are never counted. *)
Theorem check_column_bounds_numeric : forall df cs s, get_column df (name cs) = Ok s ->
  numeric_dtype (cdtype s) = true ->
  (forall v, In v (cells s) -> is_null v = true \/ num_of v <> None) ->
  (forall m, minimum cs = Some m -> num_of m <> None) ->
  (forall m, maximum cs = Some m -> num_of m <> None) ->
  exists is, check_column df cs = Ok is /\
    (forall m qm k, minimum cs = Some m -> num_of m = Some qm ->
       (In (issue "ERROR" (name cs) "Values below minimum" [("minimum", CVal m); ("count", CInt k)]) is <->
        k = length (filter (num_test (fun q => Qlt_bool q qm)) (cells s)) /\ (0 < k)%nat)) /\
    (forall m qm k, maximum cs = Some m -> num_of m = Some qm ->
       (In (issue "ERROR" (name cs) "Values above maximum" [("maximum", CVal m); ("count", CInt k)]) is <->
        k = length (filter (num_test (fun q => Qlt_bool qm q)) (cells s)) /\ (0 < k)%nat)).
Proof.
  intros df cs s Hget Hn Hc Hmin Hmax.
  pose proof (dropna_numeric _ Hc) as Hd.
  rewrite (check_column_present _ _ _ Hget).
  destruct (dtype_part_ok s cs) as [d Hdt]. rewrite Hdt. cbn [bind].
  destruct (allowed_part_numeric s cs Hd) as [a [Ha Ham]]. rewrite Ha. cbn [bind].
  destruct (min_part_ok s cs Hmin Hn Hd) as [mi [Hmi Hmim]]. rewrite Hmi. cbn [bind].
  destruct (max_part_ok s cs Hmax Hn Hd) as [ma [Hma Hmam]]. rewrite Hma. cbn [bind].
  pose proof (messages_differ _ _ _ Hdt) as Hdm.
  eexists. split; [reflexivity|]. split.
  - intros m qm k Hm Hq. destruct (min_part_spec s cs m qm Hm Hq Hn Hd) as [p [Hp [Hiff _]]].
    rewrite Hmi in Hp. injection Hp as <-. rewrite <- Hiff.
    repeat rewrite in_app_iff. split; [|intro H; right; right; right; left; exact H].
    intros [H|[H|[H|[H|H]]]]; [| | | exact H |].
    + apply null_part_messages in H. discriminate H.
    + apply Hdm in H. destruct H as [H _]. exfalso. apply H. reflexivity.
    + apply Ham in H. discriminate H.
    + apply Hmam in H. discriminate H.
  - intros m qm k Hm Hq. destruct (max_part_spec s cs m qm Hm Hq Hn Hd) as [p [Hp [Hiff _]]].
    rewrite Hma in Hp. injection Hp as <-. rewrite <- Hiff.
    repeat rewrite in_app_iff. split; [|intro H; right; right; right; right; exact H].
    intros [H|[H|[H|[H|H]]]]; [| | | | exact H].
    + apply null_part_messages in H. discriminate H.
    + apply Hdm in H. destruct H as [_ [H _]]. exfalso. apply H. reflexivity.
    + apply Ham in H. discriminate H.
    + apply Hmim in H. discriminate H.
Qed.

Lemma has_column_insert : forall df1 df2 c nm, cname c <> nm ->
  has_column (df1 ++ c :: df2)%list nm = has_column (df1 ++ df2)%list nm.
Proof.
  intros df1 df2 c nm H. unfold has_column. rewrite !existsb_app. cbn [existsb].
  rewrite (proj2 (String.eqb_neq _ _) H). reflexivity.
Qed.

Lemma get_column_insert : forall df1 df2 c nm, cname c <> nm ->
  get_column (df1 ++ c :: df2)%list nm = get_column (df1 ++ df2)%list nm.
Proof.
  intros df1 df2 c nm H. unfold get_column. induction df1 as [|s df1 IH]; cbn [app find].
  - rewrite (proj2 (String.eqb_neq _ _) H). reflexivity.
  - destruct (String.eqb (cname s) nm); [reflexivity | exact IH].
Qed.

Lemma column_issues_insert : forall df1 df2 c cols,
  Forall (fun cs => name cs <> cname c) cols ->
  column_issues (df1 ++ c :: df2)%list cols = column_issues (df1 ++ df2)%list cols.
Proof.
  intros df1 df2 c cols H. induction H as [|cs cols Hcs _ IH]; [reflexivity|]. cbn [column_issues].
  assert (E : check_column (df1 ++ c :: df2)%list cs = check_column (df1 ++ df2)%list cs).
  { unfold check_column. rewrite has_column_insert, get_column_insert by (intro E; apply Hcs; symmetry; exact E).
    reflexivity. }
  rewrite E, IH. reflexivity.
Qed.

Lemma extra_issues_warn : forall df schema, filter is_error (extra_issues df schema) = [].
Proof.
  intros df schema. apply filter_none. intros i Hi. unfold extra_issues in Hi.
  apply in_map_iff in Hi as [c [<- _]]. reflexivity.
Qed.

Lemma json_error_app_noctx : forall df is X, (forall i, In i X -> context i = []) ->
  json_error df (is ++ X)%list = json_error df is.
Proof.
  intros df is X HX. induction is as [|i is IH].
  - cbn [app]. induction X as [|j X IHX]; [reflexivity|]. cbn [json_error].
    rewrite (HX j (or_introl eq_refl)). cbn [existsb].
    destruct (column j); apply IHX; intros k Hk; apply HX; right; exact Hk.
  - cbn [app json_error]. rewrite IH. reflexivity.
Qed.

Lemma extra_issues_noctx : forall df schema i, In i (extra_issues df schema) -> context i = [].
Proof.
  intros df schema i Hi. unfold extra_issues in Hi. apply in_map_iff in Hi as [c [<- _]]. reflexivity.
Qed.

Lemma json_error_ext : forall df df' is,
  (forall i c, In i is -> column i = Some c -> get_column df c = get_column df' c) ->
  json_error df is = json_error df' is.
Proof.
  intros df df' is. induction is as [|i is IH]; intro H; [reflexivity|]. cbn [json_error].
  rewrite IH by (intros j c Hj; apply H; right; exact Hj).
  destruct (column i) as [c|] eqn:E; [|reflexivity].
  rewrite (H i c (or_introl eq_refl) E). reflexivity.
Qed.

Lemma column_issues_columns : forall df cols ci, column_issues df cols = Ok ci ->
  forall i, In i ci -> exists cs, In cs cols /\ column i = Some (name cs).
Proof.
  intros df cols. induction cols as [|cs r IH]; intros ci H i Hi; cbn [column_issues] in H.
  - injection H as <-. destruct Hi.
  - inv_binds. injection H as <-. apply in_app_or in Hi as [Hi|Hi].
    + exists cs. split; [left; reflexivity | exact (check_column_columns _ _ _ Hm i Hi)].
    + destruct (IH _ Hm0 i Hi) as [cs' [H1 H2]]. exists cs'. split; [right; exact H1 | exact H2].
Qed.

(** X14: inserting, anywhere in the frame, a column that no schema column declares keeps validation from raising when it did not raise without that column, leaves the errors of the report unchanged and adds the WARN "Unexpected column present" for it. *)
Theorem undeclared_column_adds_only_warning : forall df1 df2 c schema p halt now_r now_l st r st',
  Forall (fun cs => name cs <> cname c) (columns schema) ->
  validate_dataframe (df1 ++ df2)%list schema p halt now_r now_l st = (Ok r, st') ->
  exists r' st'', validate_dataframe (df1 ++ c :: df2)%list schema p halt now_r now_l st = (Ok r', st'') /\
    errors r' = errors r /\ In (issue "WARN" (cname c) "Unexpected column present" []) (warnings r').
Proof.
  intros df1 df2 c schema p halt now_r now_l st r st' Hc H.
  destruct (validate_dataframe_ok _ _ _ _ _ _ _ _ _ H) as [ci [Hci [Hr _]]].
  assert (Herr : forall df, filter is_error (ci ++ extra_issues df schema)%list = filter is_error ci).
  { intro df. rewrite filter_app, extra_issues_warn, app_nil_r. reflexivity. }
  assert (Hj : json_error (df1 ++ c :: df2)%list (ci ++ extra_issues (df1 ++ c :: df2)%list schema)%list =
               json_error (df1 ++ df2)%list (ci ++ extra_issues (df1 ++ df2)%list schema)%list).
  { rewrite !json_error_app_noctx by apply extra_issues_noctx. apply json_error_ext.
    intros i c' Hi Hcol. destruct (column_issues_columns _ _ _ Hci i Hi) as [cs [Hcs Hcol']].
    rewrite Hcol in Hcol'. injection Hcol' as ->. apply get_column_insert.
    rewrite Forall_forall in Hc. intro E. apply (Hc cs Hcs). symmetry. exact E. }
  unfold validate_dataframe in H |- *. rewrite column_issues_insert by exact Hc. rewrite Hci in H |- *.
  cbv beta zeta in H |- *. cbn [issues] in H |- *.
  destruct p as [p|]; [rewrite Hj; destruct (json_error (df1 ++ df2)%list _); [discriminate H|]|].
  all: unfold has_errors, errors in H |- *; cbn [issues] in H |- *; rewrite Herr in H |- *;
    destruct (halt && _); [discriminate H|]; injection H as <- _.
  all: eexists; eexists; split; [reflexivity|]; cbn [issues]; split; [rewrite !Herr; reflexivity|];
    unfold warnings; cbn [issues]; apply filter_In; split; [|reflexivity];
    apply in_or_app; right; unfold extra_issues; apply in_map_iff; exists (cname c); split; [reflexivity|];
    apply extra_columns_in; split;
    [unfold df_columns; rewrite map_app; apply in_or_app; right; left; reflexivity | exact Hc].
Qed.

Lemma py_eq_refl : forall v, is_null v = false -> py_eq v v = true.
Proof.
  intros [z|d|t|] H; unfold py_eq; cbn [num_of]; try discriminate; try apply String.eqb_refl;
    apply Qeq_bool_iff; reflexivity.
Qed.

Lemma Qeq_bool_sym : forall p q, Qeq_bool p q = Qeq_bool q p.
Proof.
  intros p q. destruct (Qeq_bool p q) eqn:E1, (Qeq_bool q p) eqn:E2; try reflexivity.
  - apply Qeq_bool_iff in E1. rewrite <- E2. symmetry. apply Qeq_bool_iff. symmetry. exact E1.
  - apply Qeq_bool_iff in E2. rewrite <- E1. apply Qeq_bool_iff. symmetry. exact E2.
Qed.

Lemma py_eq_sym : forall a b, py_eq a b = py_eq b a.
Proof.
  intros [z|d|t|] [z'|d'|t'|]; unfold py_eq; cbn [num_of]; try reflexivity;
    first [apply String.eqb_sym | apply Qeq_bool_sym].
Qed.

Lemma py_eq_trans : forall a b c, py_eq a b = true -> py_eq b c = true -> py_eq a c = true.
Proof.
  intros a b c H1 H2.
  destruct a as [z|d|t|], b as [z'|d'|t'|], c as [z''|d''|t''|]; unfold py_eq in *; cbn [num_of] in *;
    try discriminate;
    first [ apply String.eqb_eq in H1, H2; subst; apply String.eqb_refl
          | apply Qeq_bool_iff in H1, H2; apply Qeq_bool_iff; rewrite H1; exact H2 ].
Qed.

Lemma unique_cover : forall l v, In v l -> is_null v = false -> exists w, In w (unique l) /\ py_eq w v = true.
Proof.
  induction l as [|x l IH]; intros v Hv Hn; [destruct Hv|]. cbn [unique].
  destruct Hv as [<-|Hv]; [exists x; split; [left; reflexivity | apply py_eq_refl, Hn]|].
  destruct (IH v Hv Hn) as [w [Hw E]]. destruct (py_eq x w) eqn:Exw.
  - exists x. split; [left; reflexivity | exact (py_eq_trans _ _ _ Exw E)].
  - exists w. split; [right; apply filter_In; split; [exact Hw | rewrite Exw; reflexivity] | exact E].
Qed.

Lemma insert_sorted_perm : forall x l l', insert_sorted x l = Ok l' -> Permutation (x :: l) l'.
Proof.
  intros x l. induction l as [|y l IH]; intros l' H; cbn [insert_sorted] in H.
  - injection H as <-. reflexivity.
  - inv_binds. destruct a; [|injection H as <-; reflexivity].
    inv_binds. injection H as <-. rewrite perm_swap. apply perm_skip, IH, Hm0.
Qed.

Lemma py_sorted_perm : forall l l', py_sorted l = Ok l' -> Permutation l l'.
Proof.
  induction l as [|x l IH]; intros l' H; cbn [py_sorted] in H; [injection H as <-; reflexivity|].
  inv_binds. rewrite <- (insert_sorted_perm _ _ _ H). apply perm_skip, IH, Hm.
Qed.

Lemma in_dropna : forall v l, In v (dropna l) <-> In v l /\ is_null v = false.
Proof.
  intros v l. unfold dropna. rewrite filter_In. split; intros [H1 H2]; split; try exact H1;
    destruct (is_null v); try reflexivity; discriminate.
Qed.

(** X15: with allowed values, the ERROR "Values outside allowed set" is reported exactly when some non-missing cell equals no allowed value; its invalid_values are such cells, and every such cell equals one of them. *)
Theorem check_column_allowed_values : forall df cs s av is,
  get_column df (name cs) = Ok s -> allowed_values cs = Some av -> check_column df cs = Ok is ->
  ((exists iv, In (issue "ERROR" (name cs) "Values outside allowed set" [("invalid_values", CVals iv)]) is) <->
   (exists v, In v (cells s) /\ is_null v = false /\ existsb (py_eq v) av = false)) /\
  (forall iv, In (issue "ERROR" (name cs) "Values outside allowed set" [("invalid_values", CVals iv)]) is ->
     (forall w, In w iv -> In w (cells s) /\ is_null w = false /\ existsb (py_eq w) av = false) /\
     (forall v, In v (cells s) -> is_null v = false -> existsb (py_eq v) av = false ->
        exists w, In w iv /\ py_eq w v = true)).
Proof.
  intros df cs s av is Hget Hav H. rewrite (check_column_present _ _ _ Hget) in H. inv_binds.
  injection H as <-. pose proof (messages_differ _ _ _ Hm) as Hdm.
  assert (Hmi : forall i, In i a1 -> message i = "Values below minimum").
  { intros i Hi. unfold min_part in Hm1. destruct (minimum cs); [|injection Hm1 as <-; destruct Hi].
    inv_binds. injection Hm1 as <-. destruct (existsb _ _); [destruct Hi as [<-|[]]; reflexivity | destruct Hi]. }
  assert (Hma : forall i, In i a2 -> message i = "Values above maximum").
  { intros i Hi. unfold max_part in Hm2. destruct (maximum cs); [|injection Hm2 as <-; destruct Hi].
    inv_binds. injection Hm2 as <-. destruct (existsb _ _); [destruct Hi as [<-|[]]; reflexivity | destruct Hi]. }
  unfold allowed_part in Hm0. rewrite Hav in Hm0. apply bind_ok in Hm0 as [sorted_iv [Hsort Hm0]].
  injection Hm0 as <-. pose proof (py_sorted_perm _ _ Hsort) as Hp.
  set (bad := filter _ (unique (dropna (cells s)))) in Hp.
  assert (Hin : forall iv, In (issue "ERROR" (name cs) "Values outside allowed set" [("invalid_values", CVals iv)])
      (null_part s cs ++ a ++ match sorted_iv with [] => [] | _ :: _ => [issue "ERROR" (name cs) "Values outside allowed set" [("invalid_values", CVals sorted_iv)]] end ++ a1 ++ a2)%list
    <-> sorted_iv <> [] /\ iv = sorted_iv).
  { intro iv. rewrite !in_app_iff. split.
    - intros [Hi|[Hi|[Hi|[Hi|Hi]]]].
      + apply null_part_messages in Hi. discriminate Hi.
      + apply Hdm in Hi. destruct Hi as [_ [_ Hi]]. exfalso. apply Hi. reflexivity.
      + destruct sorted_iv as [|w r]; [destruct Hi|]. destruct Hi as [Hi|[]].
        apply (f_equal context) in Hi. cbn [context issue] in Hi. injection Hi as Hi.
        split; [discriminate | symmetry; exact Hi].
      + apply Hmi in Hi. discriminate Hi.
      + apply Hma in Hi. discriminate Hi.
    - intros [Hne ->]. right. right. left. destruct sorted_iv; [contradiction | left; reflexivity]. }
  assert (Hbad : forall w, In w sorted_iv <-> In w (unique (dropna (cells s))) /\ existsb (py_eq w) av = false).
  { intro w. split.
    - intro Hw. apply (Permutation_in _ (Permutation_sym Hp)) in Hw. unfold bad in Hw.
      apply filter_In in Hw as [H1 H2]. split; [exact H1 | apply negb_true_iff, H2].
    - intros [H1 H2]. apply (Permutation_in _ Hp). unfold bad. apply filter_In.
      split; [exact H1 | rewrite H2; reflexivity]. }
  assert (Hallowed : forall v w, py_eq w v = true -> existsb (py_eq v) av = false -> existsb (py_eq w) av = false).
  { intros v w E Hv. apply not_true_iff_false. intro Hw. apply existsb_exists in Hw as [a' [Ha' Ea]].
    rewrite <- not_true_iff_false in Hv. apply Hv, existsb_exists. exists a'. split; [exact Ha'|].
    rewrite py_eq_sym in E. exact (py_eq_trans _ _ _ E Ea). }
  split.
  - split.
    + intros [iv Hi]. apply Hin in Hi as [Hne ->]. destruct sorted_iv as [|w r]; [contradiction|].
      destruct (proj1 (Hbad w) (or_introl eq_refl)) as [Hw Ha]. apply unique_incl, in_dropna in Hw as [Hw Hn].
      exists w. split; [exact Hw | split; assumption].
    + intros [v [Hv [Hn Ha]]]. exists sorted_iv. apply Hin. split; [|reflexivity].
      destruct (unique_cover (dropna (cells s)) v) as [w [Hw E]]; [apply in_dropna; split; assumption | exact Hn|].
      intro Hnil. assert (Hw' : In w sorted_iv) by (apply Hbad; split; [exact Hw | exact (Hallowed v w E Ha)]).
      rewrite Hnil in Hw'. destruct Hw'.
  - intros iv Hi. apply Hin in Hi as [_ ->]. split.
    + intros w Hw. apply Hbad in Hw as [Hw Ha]. apply unique_incl, in_dropna in Hw as [Hw Hn]. auto.
    + intros v Hv Hn Ha.
      destruct (unique_cover (dropna (cells s)) v) as [w [Hw E]]; [apply in_dropna; split; assumption | exact Hn|].
      exists w. split; [apply Hbad; split; [exact Hw | exact (Hallowed v w E Ha)] | exact E].
Qed.

Lemma validate_dataframe_missing_column_witness :
  filter (about_column "id") (issues missing_report) = [issue "ERROR" "id" "Missing required column" []].
Proof.
  apply (validate_dataframe_missing_column x_df id_schema None false t_report t_log [] missing_report [] id_col).
  - vm_compute. reflexivity.
  - vm_compute. reflexivity.
  - vm_compute. reflexivity.
Defined.

Lemma check_column_unsupported_dtype_witness :
  In (issue "ERROR" "score" ("Unsupported dtype in schema: " ++ "Decimal") [])
     (ok_or [] (check_column score_df decimal_col)) /\
  Forall (fun i => message i <> "Unexpected dtype") (ok_or [] (check_column score_df decimal_col)).
Proof.
  apply (proj2 (check_column_unsupported_dtype score_df decimal_col score_series
                 ltac:(vm_compute; reflexivity) ltac:(cbn; intuition discriminate))).
  vm_compute. reflexivity.
Defined.

Lemma check_column_null_count_witness :
  In (issue "ERROR" "score" "Null values not permitted" [("null_count", CInt 1)])
     (ok_or [] (check_column score_df strict_col)) <->
  nullable strict_col = false /\ 1%nat = length (filter is_null (cells score_series)) /\ (0 < 1)%nat.
Proof.
  apply (check_column_null_count score_df strict_col score_series (ok_or [] (check_column score_df strict_col)) 1%nat).
  - vm_compute. reflexivity.
  - vm_compute. reflexivity.
Defined.

Lemma check_column_bounds_numeric_witness :
  exists is, check_column score_df strict_col = Ok is /\
    In (issue "ERROR" "score" "Values below minimum" [("minimum", CVal (VInt 5)); ("count", CInt 1)]) is /\
    In (issue "ERROR" "score" "Values above maximum" [("maximum", CVal (VInt 10)); ("count", CInt 1)]) is.
Proof.
  destruct (check_column_bounds_numeric score_df strict_col score_series) as [is [Hc [Hmin Hmax]]].
  - vm_compute. reflexivity.
  - vm_compute. reflexivity.
  - intros v Hv. cbn in Hv. destruct Hv as [<-|[<-|[<-|[]]]].
    + right. discriminate.
    + left. reflexivity.
    + right. discriminate.
  - intros m Hm. injection Hm as <-. discriminate.
  - intros m Hm. injection Hm as <-. discriminate.
  - exists is. split; [exact Hc|]. split.
    + apply (Hmin (VInt 5) (inject_Z 5) 1%nat); [reflexivity | reflexivity |].
      split; [vm_compute; reflexivity | lia].
    + apply (Hmax (VInt 10) (inject_Z 10) 1%nat); [reflexivity | reflexivity |].
      split; [vm_compute; reflexivity | lia].
Defined.

Lemma undeclared_column_adds_only_warning_witness :
  exists r' st'',
    validate_dataframe ([] ++ note_series :: [id_series])%list id_schema None false t_report t_log [] =
      (Ok r', st'') /\
    errors r' = errors id_report /\
    In (issue "WARN" "note" "Unexpected column present" []) (warnings r').
Proof.
  apply (undeclared_column_adds_only_warning [] [id_series] note_series id_schema None false
           t_report t_log [] id_report []).
  - constructor; [cbn; discriminate | constructor].
  - vm_compute. reflexivity.
Defined.

Lemma check_column_allowed_values_witness :
  exists v, In v (cells score_series) /\ is_null v = false /\ existsb (py_eq v) [VInt 3; VInt 5] = false.
Proof.
  destruct (check_column_allowed_values score_df strict_col score_series [VInt 3; VInt 5]
              (ok_or [] (check_column score_df strict_col))) as [[H _] _].
  - vm_compute. reflexivity.
  - reflexivity.
  - vm_compute. reflexivity.
  - apply H. exists [VInt 12]. vm_compute.
    repeat (first [left; reflexivity | right]).
Defined.

End DataExtras.

(** Further properties of the chart checks and of the chart specs of the pipeline. *)
Module ChartExtras.
Import ValidateCharts FrameView ChartFacts ChartViews OrderFacts ChartExtraInputs.

Lemma select_select : forall (f : value -> bool) m1 (l l' : list value),
  length m1 = length l -> length l' = length l ->
  select (map f (select m1 l)) (select m1 l') = select (zip_and m1 (map f l)) l'.
Proof.
  intros f. induction m1 as [|b m IH]; intros l l' H1 H2; [reflexivity|].
  destruct l as [|a l]; [discriminate H1|]. destruct l' as [|a' l']; [discriminate H2|].
  cbn in H1, H2. injection H1 as H1. injection H2 as H2.
  destruct b; cbn [select map zip_and combine fst snd andb].
  - destruct (f a); cbn [select]; [f_equal|]; apply IH; assumption.
  - apply IH; assumption.
Qed.

Lemma zip_and_map : forall (P Q : nat -> bool) l,
  zip_and (map P l) (map Q l) = map (fun i => P i && Q i) l.
Proof. intros P Q l. induction l as [|i l IH]; [reflexivity|]. cbn. f_equal. exact IH. Qed.

Lemma map_by_index : forall {A B} (f : A -> B) l d,
  map f l = map (fun i => f (nth i l d)) (seq 0 (length l)).
Proof.
  intros A B f l d. induction l as [|a l IH]; [reflexivity|].
  cbn [length seq map nth]. f_equal. rewrite IH, <- seq_shift, map_map. reflexivity.
Qed.

Lemma select_all_true : forall {A} (l : list A) k,
  select (map (fun _ : nat => true) (seq k (length l))) l = l.
Proof. intros A l. induction l as [|a l IH]; intro k; [reflexivity|]. cbn. f_equal. apply IH. Qed.

Lemma find_mask_frame : forall df m col,
  find (fun c => String.eqb (cname c) col) (mask_frame df m) =
  option_map (fun c => {| cname := cname c; cdtype := cdtype c; cells := select m (cells c) |})
    (find (fun c => String.eqb (cname c) col) df).
Proof.
  intros df m col. induction df as [|c df IH]; [reflexivity|]. cbn.
  destruct (String.eqb (cname c) col); [reflexivity | exact IH].
Qed.

Lemma mask_frame_mask_frame : forall df f s m1,
  rectangular df -> In s df -> length m1 = nrows df ->
  mask_frame (mask_frame df m1) (map f (select m1 (cells s))) = mask_frame df (zip_and m1 (map f (cells s))).
Proof.
  intros df f s m1 Hr Hs Hm. unfold mask_frame. rewrite map_map. apply map_ext_in. intros c Hc. cbn.
  rewrite select_select; [reflexivity | |].
  - rewrite Hm. symmetry. apply Hr, Hs.
  - rewrite (Hr c Hc). symmetry. apply Hr, Hs.
Qed.

Lemma apply_filters_from_masked : forall df R P, rectangular df ->
  (forall f, In f R -> has_column df (fst f) = true) ->
  apply_filters_from df (mask_frame df (mask_of df P)) R = Ok (mask_frame df (mask_of df (P ++ R))).
Proof.
  intros df R. induction R as [|flt R IH]; intros P Hr Hc; [rewrite app_nil_r; reflexivity|].
  cbn [apply_filters_from]. destruct flt as [col e].
  assert (Hcol : has_column df col = true) by exact (Hc _ (or_introl eq_refl)).
  unfold apply_filter. rewrite Hcol. cbn [negb].
  unfold has_column in Hcol. apply existsb_exists in Hcol as [c0 [Hc0 Hn0]].
  destruct (find (fun c => String.eqb (cname c) col) df) as [s|] eqn:Hf;
    [|exfalso; apply find_none with (x := c0) in Hf; [congruence | exact Hc0]].
  pose proof (find_some _ _ Hf) as [Hs _].
  unfold get_column. rewrite find_mask_frame, Hf. cbn [option_map bind cells].
  assert (Hmask : (match e with
                   | FIterable vs => map (fun v => isin v vs) (select (mask_of df P) (cells s))
                   | FScalar e0 => map (fun v => py_eq v e0) (select (mask_of df P) (cells s))
                   end) = map (filter_test (col, e)) (select (mask_of df P) (cells s)))
    by (destruct e; reflexivity).
  rewrite Hmask. clear Hmask.
  rewrite mask_frame_mask_frame; [| exact Hr | exact Hs | unfold mask_of; rewrite length_map, length_seq; reflexivity].
  replace (zip_and (mask_of df P) (map (filter_test (col, e)) (cells s))) with (mask_of df (P ++ [(col, e)])).
  - replace (P ++ (col, e) :: R)%list with ((P ++ [(col, e)]) ++ R)%list by (rewrite <- app_assoc; reflexivity).
    apply IH; [exact Hr|]. intros f Hf'. apply Hc. right. exact Hf'.
  - rewrite (map_by_index _ (cells s) VNull), (Hr s Hs). unfold mask_of. rewrite zip_and_map.
    apply map_ext. intro i. rewrite forallb_app. cbn [forallb]. rewrite andb_true_r. f_equal.
    unfold passes, cell, filter_test. cbn [fst snd]. rewrite Hf. reflexivity.
Qed.

Lemma apply_filters_kept : forall df flts, rectangular df ->
  (forall f, In f flts -> has_column df (fst f) = true) ->
  apply_filters df flts = Ok (mask_frame df (kept_rows df flts)).
Proof.
  intros df flts Hr Hc. unfold apply_filters.
  assert (H0 : mask_frame df (mask_of df []) = df).
  { unfold mask_frame, mask_of. cbn [forallb]. rewrite <- map_id. apply map_ext_in. intros c Hc'.
    rewrite <- (Hr c Hc'), select_all_true. destruct c; reflexivity. }
  rewrite <- H0 at 2. rewrite apply_filters_from_masked by assumption. reflexivity.
Qed.


(** X6: when every filter column exists, applying the filters one after the other keeps exactly the rows of the original frame that pass every filter ([==] for a scalar, [isin] for an iterable), in their original order. *)
Theorem apply_filters_conjunction : forall df flts,
  rectangular df ->
  (forall f, In f flts -> has_column df (fst f) = true) ->
  apply_filters df flts = Ok (mask_frame df (kept_rows df flts)).
Proof. intros df flts Hr Hc. exact (apply_filters_kept df flts Hr Hc). Qed.

Lemma filter_stage : forall df spec,
  (match filters spec with [] => Ok df | fl => apply_filters df fl end) = apply_filters df (filters spec).
Proof. intros df spec. destruct (filters spec); reflexivity. Qed.

Lemma kept_rows_length : forall df flts, length (kept_rows df flts) = nrows df.
Proof. intros df flts. unfold kept_rows. rewrite length_map, length_seq. reflexivity. Qed.

Lemma isin_select : forall v m l, length m = length l ->
  isin v (select m l) = existsb (fun i => nth i m false && values_equal v (nth i l VNull)) (seq 0 (length l)).
Proof.
  intros v m l. revert m. induction l as [|a l IH]; intros m Hm; [destruct m; reflexivity|].
  destruct m as [|b m]; [discriminate Hm|]. injection Hm as Hm.
  cbn [length seq existsb nth]. rewrite <- seq_shift, existsb_map_comp. cbn [nth].
  rewrite <- (IH m Hm). destruct b; cbn [select andb]; reflexivity.
Qed.

Lemma get_column_mask_frame : forall df m col s, get_column df col = Ok s ->
  get_column (mask_frame df m) col =
    Ok {| cname := cname s; cdtype := cdtype s; cells := select m (cells s) |}.
Proof.
  intros df m col s H. unfold get_column in *. rewrite find_mask_frame.
  destruct (find _ df); [injection H as <-; reflexivity | discriminate H].
Qed.

Lemma get_column_in : forall df col s, get_column df col = Ok s -> In s df.
Proof.
  intros df col s H. unfold get_column in H. destruct (find _ df) eqn:E; [|discriminate H].
  injection H as <-. exact (proj1 (find_some _ _ E)).
Qed.

(** X7: a line chart passes exactly when each of its x-values matches, as [isin] compares, the x cell of some data row kept by the filters; otherwise its ERROR lists the chart's unmatched x-values, in chart order. [y] and [aggregation] are not read. *)
Theorem verify_chart_line_rows : forall df spec cd tol xs cx,
  rectangular df -> kind spec = "line" ->
  (forall f, In f (filters spec) -> has_column df (fst f) = true) ->
  get_column df (x spec) = Ok xs -> get_column cd (x spec) = Ok cx ->
  (verify_chart df spec cd tol = Ok None <->
     forall v, In v (cells cx) -> exists i, (i < nrows df)%nat /\
       nth i (kept_rows df (filters spec)) false = true /\ values_equal v (nth i (cells xs) VNull) = true) /\
  (forall iss, verify_chart df spec cd tol = Ok (Some iss) ->
     iss = chart_issue spec "ERROR" "Chart includes x-values that do not exist in the dataset."
             [("values", CVals (filter (fun v => negb (matched_row df (filters spec) xs v)) (cells cx)))]).
Proof.
  intros df spec cd tol xs cx Hr Hk Hf Hx Hcx.
  assert (Hv : verify_chart df spec cd tol =
    match filter (fun v => negb (matched_row df (filters spec) xs v)) (cells cx) with
    | [] => Ok None
    | missing => Ok (Some (chart_issue spec "ERROR" "Chart includes x-values that do not exist in the dataset."
                            [("values", CVals missing)]))
    end).
  { unfold verify_chart. rewrite filter_stage, apply_filters_kept by assumption. cbn [bind].
    rewrite Hk. cbn [String.eqb Ascii.eqb Bool.eqb andb]. rewrite Hcx. cbn [bind].
    rewrite (get_column_mask_frame _ _ _ _ Hx). cbn [bind cells].
    replace (filter (fun v => negb (isin v (select (kept_rows df (filters spec)) (cells xs)))) (cells cx))
      with (filter (fun v => negb (matched_row df (filters spec) xs v)) (cells cx)); [reflexivity|].
    apply filter_ext. intro v. f_equal. unfold matched_row.
    rewrite isin_select, (Hr xs (get_column_in _ _ _ Hx)); [reflexivity|].
    rewrite kept_rows_length. symmetry. apply Hr, (get_column_in _ _ _ Hx). }
  rewrite Hv. split.
  - split.
    + intros H v Hin. destruct (matched_row df (filters spec) xs v) eqn:E.
      * unfold matched_row in E. apply existsb_exists in E as [i [Hi E]].
        apply in_seq in Hi. apply andb_prop in E as [E1 E2]. exists i. repeat split; [lia | exact E1 | exact E2].
      * exfalso. assert (Hm : In v (filter (fun v => negb (matched_row df (filters spec) xs v)) (cells cx)))
          by (apply filter_In; split; [exact Hin | rewrite E; reflexivity]).
        destruct (filter _ (cells cx)); [destruct Hm | discriminate H].
    + intros H. replace (filter _ (cells cx)) with (@nil value); [reflexivity|].
      symmetry. apply filter_none. intros v Hin. destruct (H v Hin) as [i [Hi [E1 E2]]].
      apply negb_false_iff. unfold matched_row. apply existsb_exists. exists i.
      split; [apply in_seq; lia | rewrite E1, E2; reflexivity].
  - intros iss H. destruct (filter _ (cells cx)); [discriminate H|]. injection H as <-. reflexivity.
Qed.

Lemma mask_frame_names : forall df m, map cname (mask_frame df m) = map cname df.
Proof. intros df m. unfold mask_frame. rewrite map_map. reflexivity. Qed.

Lemma has_column_names : forall df1 df2 col, map cname df1 = map cname df2 -> has_column df1 col = has_column df2 col.
Proof.
  intros df1 df2 col H. unfold has_column.
  rewrite <- (existsb_map_comp (fun n => String.eqb n col) cname df1),
          <- (existsb_map_comp (fun n => String.eqb n col) cname df2), H. reflexivity.
Qed.

Lemma get_column_absent : forall df col, has_column df col = false -> get_column df col = Raise (KeyError col).
Proof.
  intros df col H. unfold get_column. destruct (find _ df) as [c|] eqn:E; [|reflexivity].
  apply find_some in E as [Hin E]. unfold has_column in H.
  assert (Hx : existsb (fun c => String.eqb (cname c) col) df = true) by (apply existsb_exists; exists c; auto).
  congruence.
Qed.

Lemma has_column_get : forall df col, has_column df col = true -> exists s, get_column df col = Ok s.
Proof.
  intros df col H. unfold get_column. destruct (find _ df) as [c|] eqn:E; [exists c; reflexivity|].
  unfold has_column in H. apply existsb_exists in H as [c [Hc Hn]].
  apply find_none with (x := c) in E; [congruence | exact Hc].
Qed.

Lemma apply_filters_from_names : forall df flts filtered, map cname filtered = map cname df ->
  (forall f, In f flts -> has_column df (fst f) = true) ->
  exists r, apply_filters_from df filtered flts = Ok r /\ map cname r = map cname df.
Proof.
  intros df flts. induction flts as [|[col e] flts IH]; intros filtered Hn Hc; [exists filtered; split; [reflexivity | exact Hn]|].
  cbn [apply_filters_from]. unfold apply_filter.
  assert (Hcol : has_column df col = true) by exact (Hc _ (or_introl eq_refl)).
  rewrite Hcol. cbn [negb].
  rewrite <- (has_column_names _ _ col Hn) in Hcol. apply has_column_get in Hcol as [s Hs]. rewrite Hs. cbn [bind].
  apply IH; [rewrite mask_frame_names; exact Hn|]. intros f Hf. apply Hc. right. exact Hf.
Qed.

Lemma filter_stage_names : forall df spec, (forall f, In f (filters spec) -> has_column df (fst f) = true) ->
  exists r, (match filters spec with [] => Ok df | fl => apply_filters df fl end) = Ok r /\ map cname r = map cname df.
Proof. intros df spec H. rewrite filter_stage. apply apply_filters_from_names; [reflexivity | exact H]. Qed.

(** X8: a chart that is neither a line chart nor a bar chart with both [y] and [aggregation] gets a fixed issue, whatever the chart data and the tolerance: an ERROR for the incomplete bar chart, a WARN naming any other kind. *)
Theorem verify_chart_unchecked_kind : forall df spec cd tol,
  kind spec <> "line" -> (kind spec = "bar" -> y spec = None \/ aggregation spec = None) ->
  (forall f, In f (filters spec) -> has_column df (fst f) = true) ->
  verify_chart df spec cd tol =
    Ok (Some (if String.eqb (kind spec) "bar"
              then chart_issue spec "ERROR" "Bar charts must define 'y' and 'aggregation'." []
              else chart_issue spec "WARN" ("No validator registered for chart kind: " ++ kind spec) [])).
Proof.
  intros df spec cd tol Hl Hb Hf. unfold verify_chart.
  destruct (filter_stage_names df spec Hf) as [r [Hr _]]. rewrite Hr. cbn [bind].
  destruct (String.eqb (kind spec) "bar") eqn:Eb.
  - apply String.eqb_eq in Eb. destruct (Hb Eb) as [E|E]; rewrite E; [reflexivity|].
    destruct (y spec); reflexivity.
  - apply String.eqb_neq in Hl. rewrite Hl. reflexivity.
Qed.

(** X9: a bar chart whose aggregation is not mean, sum or count gets the ERROR "Unsupported aggregation: <agg>" when the dataset has its x and y columns, and raises KeyError on the first missing one otherwise; the chart data are not read. *)
Theorem verify_chart_unsupported_aggregation : forall df spec cd tol ycol agg,
  kind spec = "bar" -> y spec = Some ycol -> aggregation spec = Some agg ->
  ~ In agg ["mean"; "sum"; "count"] ->
  (forall f, In f (filters spec) -> has_column df (fst f) = true) ->
  verify_chart df spec cd tol =
    if negb (has_column df (x spec)) then Raise (KeyError (x spec))
    else if negb (has_column df ycol) then Raise (KeyError ycol)
    else Ok (Some (chart_issue spec "ERROR" ("Unsupported aggregation: " ++ agg) [])).
Proof.
  intros df spec cd tol ycol agg Hk Hy Ha Hagg Hf. unfold verify_chart.
  destruct (filter_stage_names df spec Hf) as [r [Hr Hn]]. rewrite Hr. cbn [bind].
  rewrite Hk, Hy, Ha. cbn [String.eqb Ascii.eqb Bool.eqb andb]. unfold verify_bar.
  assert (Hnone : agg_function agg = None).
  { unfold agg_function.
    destruct (String.eqb_spec agg "mean"); [subst; exfalso; apply Hagg; left; reflexivity|].
    destruct (String.eqb_spec agg "sum"); [subst; exfalso; apply Hagg; right; left; reflexivity|].
    destruct (String.eqb_spec agg "count"); [subst; exfalso; apply Hagg; right; right; left; reflexivity|].
    reflexivity. }
  rewrite <- (has_column_names _ _ (x spec) Hn), <- (has_column_names _ _ ycol Hn).
  destruct (has_column r (x spec)) eqn:Ex.
  - destruct (has_column_get _ _ Ex) as [xs Hxs]. rewrite Hxs. cbn [bind negb].
    destruct (has_column r ycol) eqn:Ey.
    + destruct (has_column_get _ _ Ey) as [ys Hys]. rewrite Hys. cbn [bind]. rewrite Hnone. reflexivity.
    + rewrite (get_column_absent _ _ Ey). reflexivity.
  - rewrite (get_column_absent _ _ Ex). reflexivity.
Qed.

Lemma mapM_in : forall {A B} (f : A -> result B) l l', mapM f l = Ok l' ->
  forall b, In b l' -> exists a, In a l /\ f a = Ok b.
Proof.
  intros A B f l. induction l as [|a l IH]; intros l' H b Hb; cbn [mapM] in H.
  - injection H as <-. destruct Hb.
  - inv_binds. injection H as <-. destruct Hb as [<-|Hb].
    + exists a. split; [left; reflexivity | exact Hm].
    + destruct (IH _ Hm0 b Hb) as [a' [Ha' E]]. exists a'. split; [right; exact Ha' | exact E].
Qed.

Lemma verify_chart_ident : forall df spec cd tol i,
  verify_chart df spec cd tol = Ok (Some i) -> issue_identifier i = identifier spec.
Proof.
  intros df spec cd tol i H. unfold verify_chart in H. inv_binds.
  destruct (String.eqb (kind spec) "bar").
  - destruct (y spec) as [ycol|], (aggregation spec) as [agg|]; try (injection H as <-; reflexivity).
    unfold verify_bar in H. inv_binds.
    destruct (agg_function agg) as [f|]; [|injection H as <-; reflexivity].
    inv_binds. destruct (negb _); [injection H as <-; reflexivity|].
    inv_binds. unfold compare_values in H.
    destruct (list_equals _ _ _); [discriminate H|]. inv_binds. destruct (existsb _ _); [|discriminate H].
    injection H as <-. reflexivity.
  - destruct (String.eqb (kind spec) "line"); [|injection H as <-; reflexivity].
    inv_binds. destruct (filter _ _); [discriminate|]. injection H as <-. reflexivity.
Qed.

Lemma stale_issues_shape : forall spec sig, (length (stale_issues spec sig) <= 1)%nat /\
  Forall (fun i => issue_identifier i = identifier spec) (stale_issues spec sig).
Proof.
  intros spec sig. unfold stale_issues. destruct (data_signature spec); [destruct (_ && _)|];
    cbn; split; auto.
Qed.

(** X10: a report of [validate_charts] carries the signature of the dataset, and its issues are, spec by spec in order, at most two issues naming that spec; a spec without chart output contributes only "Chart output missing.". *)
Theorem validate_charts_per_spec : forall df specs charts tol r,
  validate_charts df specs charts tol = Ok r ->
  report_data_signature r = hash_dataframe df /\
  exists parts, report_issues r = concat parts /\
    Forall2 (fun spec part =>
      (length part <= 2)%nat /\ Forall (fun i => issue_identifier i = identifier spec) part /\
      (lookup_chart charts (identifier spec) = None -> part = [chart_issue spec "ERROR" "Chart output missing." []]))
      specs parts.
Proof.
  intros df specs charts tol r H. unfold validate_charts in H. inv_binds. injection H as <-.
  split; [reflexivity|]. cbn [report_issues]. revert a Hm. induction specs as [|spec rest IH]; intros issues H.
  - injection H as <-. exists []. split; [reflexivity | constructor].
  - cbn [spec_issues] in H. inv_binds. injection H as <-.
    destruct (IH _ Hm0) as [parts [Hp Hf]]. exists (a :: parts). split; [cbn [concat]; rewrite Hp; reflexivity|].
    constructor; [|exact Hf].
    destruct (lookup_chart charts (identifier spec)) as [cd|] eqn:E.
    + inv_binds. injection Hm as <-. destruct (stale_issues_shape spec (hash_dataframe df)) as [Hl Hs].
      split; [|split; [|intro; discriminate]].
      * rewrite length_app. destruct a1; cbn [option_list length]; lia.
      * apply Forall_app. split; [|exact Hs].
        destruct a1 as [i|]; [|constructor]. constructor; [|constructor]. eapply verify_chart_ident; eassumption.
    + injection Hm as <-. split; [cbn; lia|]. split; [|reflexivity]. constructor; [reflexivity | constructor].
Qed.

Lemma chart_specs_signature : forall cfg sig specs, Cli.chart_specs cfg sig = Ok specs ->
  forall spec, In spec specs -> data_signature spec = sig.
Proof.
  intros cfg sig specs H spec Hs. unfold Cli.chart_specs in H.
  destruct (mapM_in _ _ _ H spec Hs) as [raw [_ E]]. inv_binds. injection E as <-. reflexivity.
Qed.

(** X11: the chart specs the pipeline builds, with no signature or with the signature of the validation report of the same dataset, never get the staleness ERROR. *)
Theorem pipeline_charts_never_stale : forall df schema lp halt now_r now_l st sig cfg specs charts tol cr,
  (sig = None \/ exists vr st', ValidateData.validate_dataframe df schema lp halt now_r now_l st = (Ok vr, st') /\
                                sig = Some (ValidateData.data_signature vr)) ->
  Cli.chart_specs cfg sig = Ok specs ->
  validate_charts df specs charts tol = Ok cr ->
  forall i, In i (report_issues cr) -> issue_message i <> stale_msg.
Proof.
  intros df schema lp halt now_r now_l st sig cfg specs charts tol cr Hsig Hspecs Hv i Hi.
  assert (Hfresh : forall spec, In spec specs -> stale_issues spec (hash_dataframe df) = []).
  { intros spec Hs. unfold stale_issues. rewrite (chart_specs_signature _ _ _ Hspecs spec Hs).
    destruct Hsig as [->|[vr [st' [Hvd ->]]]]; [reflexivity|].
    destruct (DataExtras.validate_dataframe_ok _ _ _ _ _ _ _ _ _ Hvd) as [ci [_ [_ ->]]].
    rewrite String.eqb_refl, andb_false_r. reflexivity. }
  unfold validate_charts in Hv. inv_binds. injection Hv as <-. cbn [report_issues] in Hi.
  destruct (spec_issues_in _ _ _ _ _ _ Hm i Hi) as [spec [Hs [[_ ->]|[cd [o [_ [Ho [->|Hst]]]]]]]].
  - discriminate.
  - exact (verify_chart_msg _ _ _ _ _ Ho).
  - rewrite (Hfresh spec Hs) in Hst. destruct Hst.
Qed.

(** X16: [_chart_specs] succeeds exactly when every configured spec has an id and an x, and otherwise raises KeyError on "id" or "x"; on success the specs keep the configured ids in order, with kind defaulting to "bar" and filters to empty. *)
Theorem chart_specs_keys : forall cfg sig,
  ((exists specs, Cli.chart_specs cfg sig = Ok specs) <->
   Forall (fun raw => Cli.raw_id raw <> None /\ Cli.raw_x raw <> None) cfg) /\
  (forall e, Cli.chart_specs cfg sig = Raise e -> e = KeyError "id" \/ e = KeyError "x") /\
  (forall specs, Cli.chart_specs cfg sig = Ok specs ->
     map (fun s => Some (identifier s)) specs = map Cli.raw_id cfg /\
     Forall2 (fun raw s => kind s = Cli.get_or (Cli.raw_kind raw) "bar" /\ filters s = Cli.get_or (Cli.raw_filters raw) [])
       cfg specs).
Proof.
  intros cfg sig. unfold Cli.chart_specs. induction cfg as [|raw cfg [IH1 [IH2 IH3]]]; cbn [mapM].
  - split; [split; [intros _; constructor | intros _; eexists; reflexivity]|].
    split; [intros e H; discriminate H|]. intros specs H. injection H as <-. split; [reflexivity | constructor].
  - unfold Cli.required_key. destruct (Cli.raw_id raw) as [ident|] eqn:Ei; cbn [bind];
      [destruct (Cli.raw_x raw) as [xc|] eqn:Ex; cbn [bind]|].
    + destruct (mapM _ cfg) as [rest|e] eqn:Em; cbn [bind].
      * split; [split; [intros _; constructor; [split; congruence | apply IH1; eexists; reflexivity] | intros _; eexists; reflexivity]|].
        split; [intros e H; discriminate H|]. intros specs H. injection H as <-.
        destruct (IH3 rest eq_refl) as [H1 H2]. cbn [map]. rewrite Ei, H1. split; [reflexivity|].
        constructor; [split; reflexivity | exact H2].
      * split; [split; [intros [s H]; discriminate H | intro H; inversion H as [|? ? _ Hf]; subst; apply IH1 in Hf as [s Hs]; discriminate Hs]|].
        split; [intros e' H; injection H as <-; apply IH2; reflexivity | intros specs H; discriminate H].
    + split; [split; [intros [s H]; discriminate H | intro H; inversion H as [|? ? [_ Hx] _]; congruence]|].
      split; [intros e H; injection H as <-; right; reflexivity | intros specs H; discriminate H].
    + split; [split; [intros [s H]; discriminate H | intro H; inversion H as [|? ? [Hi _] _]; congruence]|].
      split; [intros e H; injection H as <-; left; reflexivity | intros specs H; discriminate H].
Qed.

Lemma apply_filters_conjunction_witness :
  apply_filters flt_df flts = Ok (mask_frame flt_df (kept_rows flt_df flts)).
Proof.
  apply apply_filters_conjunction.
  - intros c Hc. destruct Hc as [<-|[<-|[]]]; reflexivity.
  - intros f Hf. destruct Hf as [<-|[<-|[]]]; reflexivity.
Defined.

Lemma verify_chart_line_rows_witness :
  verify_chart flt_df line_spec line_chart default_tolerance <> Ok None.
Proof.
  intros H.
  destruct (verify_chart_line_rows flt_df line_spec line_chart default_tolerance region_series chart_region)
    as [[H1 _] _].
  - intros c Hc. destruct Hc as [<-|[<-|[]]]; reflexivity.
  - reflexivity.
  - intros f Hf. destruct Hf as [<-|[]]. reflexivity.
  - vm_compute. reflexivity.
  - vm_compute. reflexivity.
  - destruct (H1 H (VStr "E") (or_intror (or_introl eq_refl))) as [i [Hi [_ Hv]]].
    destruct i as [|[|[|i]]]; [vm_compute in Hv; discriminate Hv .. | cbn in Hi; lia].
Defined.

Lemma verify_chart_unchecked_kind_witness :
  verify_chart flt_df pie_spec line_chart default_tolerance =
  Ok (Some (chart_issue pie_spec "WARN" ("No validator registered for chart kind: " ++ "pie") [])).
Proof.
  apply (verify_chart_unchecked_kind flt_df pie_spec line_chart default_tolerance).
  - discriminate.
  - intros H. discriminate H.
  - intros f [].
Defined.

Lemma verify_chart_unsupported_aggregation_witness :
  verify_chart flt_df median_spec line_chart default_tolerance =
  Ok (Some (chart_issue median_spec "ERROR" ("Unsupported aggregation: " ++ "median") [])).
Proof.
  rewrite (verify_chart_unsupported_aggregation flt_df median_spec line_chart default_tolerance "score" "median").
  - vm_compute. reflexivity.
  - reflexivity.
  - reflexivity.
  - reflexivity.
  - cbn. intuition discriminate.
  - intros f [].
Defined.

Lemma validate_charts_per_spec_witness :
  report_data_signature missing_chart_report = hash_dataframe flt_df.
Proof.
  destruct (validate_charts_per_spec flt_df [line_spec] [] default_tolerance missing_chart_report)
    as [H _].
  - vm_compute. reflexivity.
  - exact H.
Defined.

Lemma pipeline_charts_never_stale_witness :
  Forall (fun i => issue_message i <> stale_msg)
    (report_issues (DataExtraInputs.ok_or empty_chart_report
                      (validate_charts flt_df c1_specs [("c1", line_chart)] default_tolerance))).
Proof.
  apply Forall_forall.
  apply (pipeline_charts_never_stale flt_df DataExtraInputs.empty_schema None false
           DataInputs.t_report DataInputs.t_log [] (Some (ValidateData.data_signature flt_report))
           [raw_c1] c1_specs [("c1", line_chart)] default_tolerance).
  - right. exists flt_report, []. split; [vm_compute; reflexivity | reflexivity].
  - vm_compute. reflexivity.
  - vm_compute. reflexivity.
Defined.

End ChartExtras.

(** Further properties of the integrity tools. *)
Module TreeExtras.
Import Integrity TreeViews OrderFacts TreeExtraInputs.

Lemma strip_prefix_app : forall r d p, strip_prefix (r ++ d)%list (r ++ p)%list = strip_prefix d p.
Proof. induction r as [|a r IH]; intros d p; [reflexivity|]. cbn. rewrite String.eqb_refl. apply IH. Qed.

Lemma strip_prefix_write : forall d out b, strip_prefix d out = None ->
  forall fs, flat_map (fun e => match strip_prefix d (fst e) with Some rel => [(rel, snd e)] | None => [] end)
    (put_file fs out b) =
  flat_map (fun e => match strip_prefix d (fst e) with Some rel => [(rel, snd e)] | None => [] end) fs.
Proof.
  intros d out b Hs fs. induction fs as [|[q n] fs IH]; cbn [put_file flat_map fst snd].
  - rewrite Hs. reflexivity.
  - destruct (path_eqb out q) eqn:E; cbn [flat_map fst snd].
    + apply IntegrityProofs.path_eqb_eq in E. subst q. rewrite Hs. reflexivity.
    + rewrite IH. reflexivity.
Qed.

Lemma manifest_path_other : forall root ts a, String.substring 0 1 a <> "i" ->
  (root ++ [a])%list <> manifest_path root ts.
Proof.
  intros root ts a Ha E. unfold manifest_path in E. apply app_inv_head in E. injection E as E.
  apply Ha. rewrite E. reflexivity.
Qed.

Lemma artefacts_write_manifest_path : forall fs root ts b,
  artefacts (put_file fs (manifest_path root ts) b) root = artefacts fs root.
Proof.
  intros fs root ts b. unfold artefacts, sha256_file, exists_, sha256_dir, dir_stream, rglob_sorted.
  assert (Hne : forall a, String.substring 0 1 a <> "i" ->
            lookup (put_file fs (manifest_path root ts) b) (root ++ [a])%list = lookup fs (root ++ [a])%list).
  { intros a Ha. apply ManifestPaths.lookup_write_other, manifest_path_other, Ha. }
  rewrite !Hne by discriminate.
  rewrite ManifestPaths.lookup_write_other
    by (unfold manifest_path; intro E; apply app_inv_head in E; discriminate E).
  rewrite strip_prefix_write; [reflexivity|].
  unfold manifest_path. rewrite strip_prefix_app. reflexivity.
Qed.

(** X12: writing a manifest returns its path and leaves the artefact table of the root unchanged: the manifest is neither a tracked artefact nor under charts/. *)
Theorem write_manifest_keeps_artefacts : forall fs root prev ts signer out fs' cmds,
  write_manifest fs root prev ts signer = Ok (out, fs', cmds) ->
  out = manifest_path root ts /\ artefacts fs' root = artefacts fs root.
Proof.
  intros fs root prev ts signer out fs' cmds H. apply IntegrityProofs.write_manifest_ok in H as [-> ->].
  split; [reflexivity | apply artefacts_write_manifest_path].
Qed.

Lemma path_ltb_irrefl : forall p, path_ltb p p = false.
Proof. induction p as [|a p IH]; [reflexivity|]. cbn. rewrite String.eqb_refl. exact IH. Qed.

Lemma path_ltb_trans : forall p q r, path_ltb p q = true -> path_ltb q r = true -> path_ltb p r = true.
Proof.
  induction p as [|a p IH]; intros [|b q] [|c r] H1 H2; cbn [path_ltb] in *; try discriminate; try reflexivity.
  revert H1 H2.
  destruct (String.eqb_spec a b) as [Hab|Hab]; destruct (String.eqb_spec b c) as [Hbc|Hbc];
    destruct (String.eqb_spec a c) as [Hac|Hac]; subst; try congruence; intros H1 H2.
  all: try exact (str_ltb_trans _ _ _ H1 H2).
  all: try (exfalso; pose proof (str_ltb_trans _ _ _ H1 H2) as E; rewrite str_ltb_irrefl in E; discriminate E).
  all: try exact H1; try exact H2; eauto.
Qed.

Lemma path_ltb_total : forall p q, p <> q -> path_ltb p q = false -> path_ltb q p = true.
Proof.
  induction p as [|a p IH]; intros [|b q] Hne H; cbn [path_ltb] in *; try discriminate; try reflexivity.
  - exfalso. apply Hne. reflexivity.
  - rewrite String.eqb_sym. destruct (String.eqb_spec a b) as [<-|Hab].
    + apply IH; [intro E; apply Hne; rewrite E; reflexivity | exact H].
    + apply str_ltb_total; [exact Hab | exact H].
Qed.

Lemma insert_entry_perm : forall e l, Permutation (insert_entry e l) (e :: l).
Proof.
  intros e l. induction l as [|f l IH]; [reflexivity|]. cbn [insert_entry].
  destruct (path_ltb (fst f) (fst e)); [|reflexivity]. rewrite IH. apply perm_swap.
Qed.

Lemma sort_entries_perm : forall l, Permutation (fold_right insert_entry [] l) l.
Proof.
  induction l as [|e l IH]; [reflexivity|]. cbn [fold_right]. rewrite insert_entry_perm. apply perm_skip, IH.
Qed.

Lemma insert_entry_sorted : forall e l, StronglySorted entry_lt l -> ~ In (fst e) (map fst l) ->
  StronglySorted entry_lt (insert_entry e l).
Proof.
  intros e l. induction l as [|f l IH]; intros Hs Hn; [repeat constructor|].
  apply StronglySorted_inv in Hs as [Hs Hf]. cbn [insert_entry].
  destruct (path_ltb (fst f) (fst e)) eqn:E.
  - constructor; [apply IH; [exact Hs | intro H; apply Hn; right; exact H]|].
    apply Forall_forall. intros g Hg. apply (Permutation_in _ (insert_entry_perm e l)) in Hg.
    destruct Hg as [<-|Hg]; [exact E | exact (proj1 (Forall_forall _ _) Hf g Hg)].
  - assert (Hef : entry_lt e f).
    { apply path_ltb_total; [intro H; apply Hn; left; exact H | exact E]. }
    constructor; [constructor; [exact Hs | exact Hf]|]. constructor; [exact Hef|].
    apply Forall_forall. intros g Hg. eapply path_ltb_trans; [exact Hef|].
    exact (proj1 (Forall_forall _ _) Hf g Hg).
Qed.

Lemma sort_entries_sorted : forall l, NoDup (map fst l) -> StronglySorted entry_lt (fold_right insert_entry [] l).
Proof.
  induction l as [|e l IH]; intro Hnd; [constructor|]. cbn [map] in Hnd.
  apply NoDup_cons_iff in Hnd as [He Hnd]. cbn [fold_right].
  apply insert_entry_sorted; [exact (IH Hnd)|].
  intro H. apply He. apply in_map_iff in H as [f [Hf Hin]].
  apply (Permutation_in _ (sort_entries_perm l)) in Hin. rewrite <- Hf. apply in_map, Hin.
Qed.

Lemma sorted_unique : forall l1 l2, StronglySorted entry_lt l1 -> StronglySorted entry_lt l2 ->
  Permutation l1 l2 -> l1 = l2.
Proof.
  induction l1 as [|a l1 IH]; intros l2 H1 H2 Hp.
  - symmetry. apply Permutation_nil, Hp.
  - destruct l2 as [|b l2]; [apply Permutation_sym, Permutation_nil in Hp; discriminate Hp|].
    apply StronglySorted_inv in H1 as [H1 F1]. apply StronglySorted_inv in H2 as [H2 F2].
    assert (Hab : a = b).
    { assert (Ha : In a (b :: l2)) by (apply (Permutation_in _ Hp); left; reflexivity).
      destruct Ha as [<-|Ha]; [reflexivity|]. exfalso.
      assert (Hb : In b (a :: l1)) by (apply (Permutation_in _ (Permutation_sym Hp)); left; reflexivity).
      destruct Hb as [<-|Hb].
      - pose proof (proj1 (Forall_forall _ _) F2 _ Ha) as E. unfold entry_lt in E.
        rewrite path_ltb_irrefl in E. discriminate E.
      - pose proof (proj1 (Forall_forall _ _) F2 _ Ha) as E1. pose proof (proj1 (Forall_forall _ _) F1 _ Hb) as E2.
        unfold entry_lt in E1, E2. pose proof (path_ltb_trans _ _ _ E1 E2) as E.
        rewrite path_ltb_irrefl in E. discriminate E. }
    subst b. f_equal. apply IH; [exact H1 | exact H2 | exact (Permutation_cons_inv Hp)].
Qed.

Lemma sorted_filter : forall (f : Path * node -> bool) l, StronglySorted entry_lt l ->
  StronglySorted entry_lt (filter f l).
Proof.
  intros f l. induction l as [|a l IH]; intro H; [constructor|].
  apply StronglySorted_inv in H as [H F]. cbn [filter]. destruct (f a); [|exact (IH H)].
  constructor; [exact (IH H)|]. apply Forall_forall. intros b Hb. apply filter_In in Hb as [Hb _].
  exact (proj1 (Forall_forall _ _) F b Hb).
Qed.

Lemma perm_filter : forall {A} (f : A -> bool) l l', Permutation l l' -> Permutation (filter f l) (filter f l').
Proof.
  intros A f l l' H. induction H as [|a l l' _ IH|a b l|l l' l'' _ IH1 _ IH2]; cbn [filter].
  - constructor.
  - destruct (f a); [apply perm_skip|]; exact IH.
  - destruct (f a), (f b); try apply perm_swap; try apply perm_skip; reflexivity.
  - etransitivity; eassumption.
Qed.

Lemma strip_prefix_spec : forall d p rel, strip_prefix d p = Some rel <-> p = (d ++ rel)%list /\ rel <> [].
Proof.
  induction d as [|a d IH]; intros [|b p] rel; cbn [strip_prefix app].
  - split; [discriminate | intros [-> H]; exfalso; apply H; reflexivity].
  - split; [intro H; injection H as <-; split; [reflexivity | discriminate] | intros [-> _]; reflexivity].
  - split; [discriminate | intros [H _]; discriminate H].
  - destruct (String.eqb_spec a b) as [<-|Hab].
    + rewrite IH. split; intros [H1 H2]; split; try exact H2; [rewrite H1 | injection H1 as H1]; reflexivity + exact H1.
    + split; [discriminate | intros [H _]; injection H as H; congruence].
Qed.

Lemma stripped_in : forall fs d rel n, In (rel, n) (stripped fs d) <-> In ((d ++ rel)%list, n) fs /\ rel <> [].
Proof.
  intros fs d rel n. unfold stripped. rewrite in_flat_map. split.
  - intros [[p m] [Hin H]]. cbn [fst snd] in H. destruct (strip_prefix d p) as [r|] eqn:E; [|destruct H].
    destruct H as [H|[]]. injection H as -> ->. apply strip_prefix_spec in E as [-> Hr]. split; assumption.
  - intros [Hin Hr]. exists ((d ++ rel)%list, n). split; [exact Hin|]. cbn [fst snd].
    rewrite (proj2 (strip_prefix_spec d _ rel) (conj eq_refl Hr)). left. reflexivity.
Qed.

Lemma stripped_nodup : forall fs d, NoDup (map fst fs) -> NoDup (map fst (stripped fs d)).
Proof.
  induction fs as [|[p n] fs IH]; intros d H; [constructor|]. cbn [map fst] in H.
  apply NoDup_cons_iff in H as [Hp H]. unfold stripped. cbn [flat_map fst snd]. fold (stripped fs d).
  destruct (strip_prefix d p) as [rel|] eqn:E; [|exact (IH d H)]. cbn [app map fst].
  constructor; [|exact (IH d H)].
  intro Hr. apply in_map_iff in Hr as [[r m] [Hr Hin]]. cbn [fst] in Hr. subst r.
  apply stripped_in in Hin as [Hin _]. apply Hp. apply strip_prefix_spec in E as [-> _].
  apply (in_map fst) in Hin. exact Hin.
Qed.

Lemma dir_stream_files : forall fs d, dir_stream fs d =
  flat_map (fun e => match snd e with
                     | NFile b => (utf8_encode (join "/" (fst e)) ++ b)%list
                     | NDir => []
                     end) (filter is_file (rglob_sorted fs d)).
Proof.
  intros fs d. unfold dir_stream. induction (rglob_sorted fs d) as [|[p n] l IH]; [reflexivity|].
  cbn [filter flat_map is_file snd fst]. destruct n; cbn [flat_map snd fst]; rewrite IH; reflexivity.
Qed.

(** X13: the digest of [sha256_dir] depends only on the regular files strictly below the directory, with their relative paths and contents: subdirectories, entries elsewhere and the listing order of the file system do not change it. *)
Theorem sha256_dir_regular_files : forall fs1 fs2 d, NoDup (map fst fs1) -> NoDup (map fst fs2) ->
  (forall rel b, rel <> [] -> In ((d ++ rel)%list, NFile b) fs1 <-> In ((d ++ rel)%list, NFile b) fs2) ->
  sha256_dir fs1 d = sha256_dir fs2 d.
Proof.
  intros fs1 fs2 d H1 H2 Hf. unfold sha256_dir. rewrite !dir_stream_files. f_equal. f_equal.
  unfold rglob_sorted. fold (stripped fs1 d). fold (stripped fs2 d).
  pose proof (stripped_nodup fs1 d H1) as N1. pose proof (stripped_nodup fs2 d H2) as N2.
  apply sorted_unique.
  - apply sorted_filter, sort_entries_sorted, N1.
  - apply sorted_filter, sort_entries_sorted, N2.
  - rewrite (perm_filter _ _ _ (sort_entries_perm (stripped fs1 d))),
            (perm_filter _ _ _ (sort_entries_perm (stripped fs2 d))).
    apply NoDup_Permutation.
    + apply NoDup_filter, (NoDup_map_inv fst), N1.
    + apply NoDup_filter, (NoDup_map_inv fst), N2.
    + intros [rel n]. rewrite !filter_In, !stripped_in.
      destruct n as [b|]; [|split; intros [_ H]; discriminate H]. split; intros [[Hin Hr] _]; (split; [split; [|exact Hr] | reflexivity]);
        apply Hf; assumption.
Qed.

Lemma write_manifest_keeps_artefacts_witness :
  exists out fs' cmds, write_manifest out_fs ["out"] None ts_out None = Ok (out, fs', cmds) /\
    artefacts fs' ["out"] = artefacts out_fs ["out"].
Proof.
  destruct (write_manifest out_fs ["out"] None ts_out None) as [[[out fs'] cmds]|e] eqn:E;
    [|vm_compute in E; discriminate].
  exists out, fs', cmds. split; [reflexivity|].
  exact (proj2 (write_manifest_keeps_artefacts out_fs ["out"] None ts_out None out fs' cmds E)).
Defined.

Lemma sha256_dir_regular_files_witness :
  sha256_dir out_fs ["out"; "charts"] = sha256_dir listed_fs ["out"; "charts"].
Proof.
  apply sha256_dir_regular_files.
  - repeat constructor; cbn; intuition discriminate.
  - repeat constructor; cbn; intuition discriminate.
  - intros rel b Hr. cbn. split; intros H; intuition discriminate.
Defined.

End TreeExtras.
